(** * adb: transport bookkeeping and the in-process service sockets

    A shallow embedding of the parts of the adb sources that the
    specification's testable properties talk about:

    - [services.cpp] of the daemon ([ServiceSocket], [SinkSocket],
      [SourceSocket], [daemon_service_to_socket], [daemon_service_to_fd]),
      embedded from the source;
    - the [atransport] operations exercised by [transport_test.cpp]
      ([SetFeatures], [RunDisconnects], [parse_banner], [MatchesTarget]).
      [transport.cpp] and [adb.cpp] are not among the sources, so these
      are modelled from the specification and checked against the
      scenarios of [transport_test.cpp];
    - the start of the daemon in [daemon/main.cpp]
      ([should_drop_privileges], [drop_privileges], [setup_adb],
      [adbd_main]), embedded from the source;
    - the bookkeeping of the USB handles of the macOS client
      ([IsKnownDevice], [KickDisconnectedDevices], [usb_kick],
      [usb_close], [usb_write]), embedded from the source;
    - the lookups of [client/transport_mdns.cpp] ([ForEachService],
      [mdns_get_connect_service_info], [mdns_get_pairing_service_info]),
      embedded from the source. *)

From Stdlib Require Import ZArith Lia String Ascii List Bool.
From Stdlib Require DecimalString.
From stdpp Require Import base option list gmap strings.

#[local] Arguments String.append !_ _ / : simpl nomatch.

(** ** String helpers (android-base/strings.h) *)

Module Strings.

(** [android::base::Split(s, delim)] for a one-character delimiter: the
    pieces between the delimiters, empty pieces included; the empty
    string splits into one empty piece. *)
Fixpoint Split (s : string) (delim : ascii) : list string :=
  match s with
  | EmptyString => [EmptyString]
  | String c rest =>
      if Ascii.eqb c delim then EmptyString :: Split rest delim
      else match Split rest delim with
           | piece :: pieces => String c piece :: pieces
           | [] => [String c EmptyString]
           end
  end.

(** [android::base::Join(pieces, delim)]. *)
Fixpoint Join (pieces : list string) (delim : ascii) : string :=
  match pieces with
  | [] => EmptyString
  | [p] => p
  | p :: rest => p +:+ String delim (Join rest delim)
  end.

(** [android::base::StartsWith(s, prefix)]. *)
Fixpoint StartsWith (s prefix : string) {struct prefix} : bool :=
  match prefix, s with
  | EmptyString, _ => true
  | String p prefix', String c s' => Ascii.eqb c p && StartsWith s' prefix'
  | String _ _, EmptyString => false
  end.

(** [android::base::ConsumePrefix(&s, prefix)]: [Some rest] when [s]
    starts with [prefix] (the view is advanced past it), [None] when it
    does not (the view is left alone). *)
Fixpoint ConsumePrefix (s prefix : string) {struct prefix} : option string :=
  match prefix, s with
  | EmptyString, _ => Some s
  | String p prefix', String c s' =>
      if Ascii.eqb c p then ConsumePrefix s' prefix' else None
  | String _ _, EmptyString => None
  end.

(** [c] does not occur in [s]. *)
Fixpoint free_of (c : ascii) (s : string) : bool :=
  match s with
  | EmptyString => true
  | String d rest => negb (Ascii.eqb d c) && free_of c rest
  end.

(** The last occurrence of [c] cuts [s] into the part before it and the
    part after it; [None] when [c] does not occur. *)
Fixpoint rsplit (s : string) (c : ascii) : option (string * string) :=
  match s with
  | EmptyString => None
  | String d rest =>
      match rsplit rest c with
      | Some (before, after) => Some (String d before, after)
      | None => if Ascii.eqb d c then Some (EmptyString, rest) else None
      end
  end.

End Strings.

(** ** The transport ([atransport]) *)

Module Transport.
Import Strings.

(** [enum ConnectionState] of [adb.h], as the device-listing proto mirrors
    it (ANY = 0, CONNECTING = 1, ..., RESCUE = 12). *)
Inductive ConnectionState :=
  | kCsAny | kCsConnecting | kCsAuthorizing | kCsUnauthorized | kCsNoPerm
  | kCsDetached | kCsOffline | kCsBootloader | kCsDevice | kCsHost
  | kCsRecovery | kCsSideload | kCsRescue.

(** The transport kinds that [transport_test.cpp] constructs and assigns. *)
Inductive TransportType := kTransportUsb | kTransportLocal | kTransportAny.

(** [FeatureSet]: the feature names, in the order given. *)
Abbreviation FeatureSet := (list string).

(** An [adisconnect*]: the transport keeps the addresses of the hook
    structs its callers own, and compares hooks by address. *)
Abbreviation adisconnect := nat.

(** Modelled from the spec: the transport record ([transport.h] is not
    among the sources). "Identity: an opaque 64-bit transport_id, serial
    string, devpath, product/model/device. State: ConnectionState. Holds:
    negotiated features, max_payload (bytes), list of disconnect hooks." *)
Record atransport := mk_atransport {
  id : N;
  type : TransportType;
  serial : string;
  devpath : string;
  product : string;
  model : string;
  device : string;
  connection_state : ConnectionState;
  features_ : FeatureSet;
  disconnects_ : list adisconnect;
  max_payload : Z;
}.

Definition set_type (t : atransport) (ty : TransportType) : atransport :=
  mk_atransport (id t) ty (serial t) (devpath t) (product t) (model t) (device t)
    (connection_state t) (features_ t) (disconnects_ t) (max_payload t).
Definition set_serial (t : atransport) (s : string) : atransport :=
  mk_atransport (id t) (type t) s (devpath t) (product t) (model t) (device t)
    (connection_state t) (features_ t) (disconnects_ t) (max_payload t).
Definition set_devpath (t : atransport) (s : string) : atransport :=
  mk_atransport (id t) (type t) (serial t) s (product t) (model t) (device t)
    (connection_state t) (features_ t) (disconnects_ t) (max_payload t).
Definition set_product (t : atransport) (s : string) : atransport :=
  mk_atransport (id t) (type t) (serial t) (devpath t) s (model t) (device t)
    (connection_state t) (features_ t) (disconnects_ t) (max_payload t).
Definition set_model (t : atransport) (s : string) : atransport :=
  mk_atransport (id t) (type t) (serial t) (devpath t) (product t) s (device t)
    (connection_state t) (features_ t) (disconnects_ t) (max_payload t).
Definition set_device (t : atransport) (s : string) : atransport :=
  mk_atransport (id t) (type t) (serial t) (devpath t) (product t) (model t) s
    (connection_state t) (features_ t) (disconnects_ t) (max_payload t).
Definition set_features_ (t : atransport) (fs : FeatureSet) : atransport :=
  mk_atransport (id t) (type t) (serial t) (devpath t) (product t) (model t) (device t)
    (connection_state t) fs (disconnects_ t) (max_payload t).
Definition set_disconnects_ (t : atransport) (ds : list adisconnect) : atransport :=
  mk_atransport (id t) (type t) (serial t) (devpath t) (product t) (model t) (device t)
    (connection_state t) (features_ t) ds (max_payload t).

(** Modelled from the spec: the constructor [atransport t{type}] of the
    tests: no serial, devpath, product, model or device yet, no features
    ("ASSERT_EQ(0U, t.features().size())" on a new transport), no hooks.
    The state a transport starts in and its payload bound are the
    caller's. *)
Definition atransport_new (ty : TransportType) (state : ConnectionState)
    (payload : Z) : atransport :=
  mk_atransport 0 ty "" "" "" "" "" state [] [] payload.

(** *** Features *)

(** Modelled from the spec: [FeatureSetToString] and [StringToFeatureSet]:
    "Features value: comma-separated tokens"; [set_features("")] has size
    0. *)
Definition FeatureSetToString (features : FeatureSet) : string :=
  Join features ",".

Definition StringToFeatureSet (features_string : string) : FeatureSet :=
  if String.eqb features_string "" then [] else Split features_string ",".

(** Modelled from the spec: [atransport::SetFeatures]: "the set is
    replaced, not merged". *)
Definition SetFeatures (t : atransport) (features_string : string) : atransport :=
  set_features_ t (StringToFeatureSet features_string).

Definition features (t : atransport) : FeatureSet := features_ t.

Definition has_feature (t : atransport) (feature : string) : bool :=
  bool_decide (feature ∈ features t).

(** [features()] read as a set. *)
Definition feature_set (t : atransport) : gset string :=
  list_to_set (features t).

(** A feature token: a non-empty name without a comma. *)
Definition feature_token (s : string) : Prop :=
  s <> "" /\ free_of "," s = true.

(** *** Disconnect hooks *)

(** Modelled from the spec: [AddDisconnect], [RemoveDisconnect],
    [RunDisconnects]: "add_disconnect(hook) / remove_disconnect(hook):
    mutate the hook list"; "run_disconnects(): invoke and clear hooks in
    registration order". Running a hook calls [func(opaque, t)]; the calls
    made so far are kept as the list of the hooks called, oldest first. *)
Definition AddDisconnect (t : atransport) (disconnect : adisconnect) : atransport :=
  set_disconnects_ t (disconnects_ t ++ [disconnect]).

Definition RemoveDisconnect (t : atransport) (disconnect : adisconnect) : atransport :=
  set_disconnects_ t (filter (fun d => d <> disconnect) (disconnects_ t)).

Definition RunDisconnects (t : atransport) (calls : list adisconnect)
    : atransport * list adisconnect :=
  (set_disconnects_ t [], calls ++ disconnects_ t).

(** What [DisconnectFunc] of the tests leaves in the counter that
    [opaque] points to, for the hook [disconnect] and a counter that
    started at 0: one increment per call. *)
Definition count (disconnect : adisconnect) (calls : list adisconnect) : nat :=
  length (filter (fun d => d = disconnect) calls).

(** *** Banner parsing *)

Definition SetConnectionState (t : atransport) (state : ConnectionState) : atransport :=
  mk_atransport (id t) (type t) (serial t) (devpath t) (product t) (model t) (device t)
    state (features_ t) (disconnects_ t) (max_payload t).

Definition GetConnectionState (t : atransport) : ConnectionState := connection_state t.

(** Modelled from the spec: the side of a banner. "Side ∈ {host, device,
    bootloader, recovery, rescue, sideload}". *)
Definition side_state (side : string) : option ConnectionState :=
  if String.eqb side "host" then Some kCsHost
  else if String.eqb side "device" then Some kCsDevice
  else if String.eqb side "bootloader" then Some kCsBootloader
  else if String.eqb side "recovery" then Some kCsRecovery
  else if String.eqb side "rescue" then Some kCsRescue
  else if String.eqb side "sideload" then Some kCsSideload
  else None.

(** Modelled from the spec: "banner := side "::" props": the banner is cut
    at its first "::". *)
Fixpoint split_side (banner : string) : option (string * string) :=
  match banner with
  | EmptyString => None
  | String c rest =>
      match ConsumePrefix (String c rest) "::" with
      | Some props => Some (EmptyString, props)
      | None =>
          match split_side rest with
          | Some (side, props) => Some (String c side, props)
          | None => None
          end
      end
  end.

(** Modelled from the spec: one property of the banner. "Recognized keys:
    ro.product.name, ro.product.model, ro.product.device, features. The
    features value is a comma-separated set. Unknown keys are ignored." A
    piece that is not [key=value] (the empty piece after a final ";") sets
    nothing. *)
Definition set_prop (t : atransport) (prop : string) : atransport :=
  match Split prop "=" with
  | [key; value] =>
      if String.eqb key "ro.product.name" then set_product t value
      else if String.eqb key "ro.product.model" then set_model t value
      else if String.eqb key "ro.product.device" then set_device t value
      else if String.eqb key "features" then SetFeatures t value
      else t
  | _ => t
  end.

(** Modelled from the spec: [parse_banner] ([adb.cpp] is not among the
    sources). "Format: <side>::<semicolon-separated-k=v-list>"; the
    feature set is the banner's ("replaced, not merged"), so it is empty
    when the banner names no features; a banner outside the grammar
    (no "::", unknown side) leaves the transport offline ("treat them as
    an offline transport"). *)
Definition parse_banner (banner : string) (t : atransport) : atransport :=
  let t := SetFeatures t "" in
  match split_side banner with
  | Some (side, props) =>
      match side_state side with
      | Some state => SetConnectionState (foldl set_prop t (Split props ";")) state
      | None => SetConnectionState t kCsOffline
      end
  | None => SetConnectionState t kCsOffline
  end.



(** *** Target matching *)

(** The host and the port of a [host:port] serial, cut at the last ":". *)
Definition serial_host_port (t : atransport) : option (string * string) :=
  rsplit (serial t) ":".

Definition is_local (t : atransport) : bool :=
  match type t with kTransportLocal => true | _ => false end.

(** Modelled from the spec: "tcp:H[:P], udp:H[:P]: match only on local
    transports; H must equal the serial's host portion and, if P given,
    the port." [address] is the query without its prefix. *)
Definition matches_address (t : atransport) (address : string) : bool :=
  is_local t &&
  match serial_host_port t with
  | Some (host, port) =>
      match rsplit address ":" with
      | Some (h, p) => String.eqb h host && String.eqb p port
      | None => String.eqb address host
      end
  | None => false
  end.

(** Modelled from the spec: "bare string: match if equal to serial,
    devpath, or - for local transports - if it equals the host portion of
    a host:port serial". *)
Definition matches_bare (t : atransport) (target : string) : bool :=
  String.eqb target (serial t) || String.eqb target (devpath t) ||
  (is_local t &&
   match serial_host_port t with
   | Some (host, _) => String.eqb target host
   | None => false
   end).

(** Modelled from the spec: [atransport::MatchesTarget] ([transport.cpp]
    is not among the sources), by the form of the query: "product:X,
    model:X, device:X: match the corresponding attribute", the network
    forms, and the bare string. *)
Definition MatchesTarget (t : atransport) (target : string) : bool :=
  match ConsumePrefix target "product:" with
  | Some x => String.eqb x (product t)
  | None =>
  match ConsumePrefix target "model:" with
  | Some x => String.eqb x (model t)
  | None =>
  match ConsumePrefix target "device:" with
  | Some x => String.eqb x (device t)
  | None =>
  match ConsumePrefix target "tcp:" with
  | Some address => matches_address t address
  | None =>
  match ConsumePrefix target "udp:" with
  | Some address => matches_address t address
  | None => matches_bare t target
  end end end end end.

(** A bare query: none of the prefixes of the query grammar. *)
Definition bare_query (target : string) : Prop :=
  ConsumePrefix target "product:" = None /\ ConsumePrefix target "model:" = None /\
  ConsumePrefix target "device:" = None /\ ConsumePrefix target "tcp:" = None /\
  ConsumePrefix target "udp:" = None.

(** *** The transports of [transport_test.cpp] *)

Module Tests.

(** [atransport t{kTransportLocal}]. *)
Definition t0 : atransport := atransport_new kTransportLocal kCsOffline 4096.

(** The transport of [test_matches_target], with its type set to [ty]. *)
Definition usb_device (ty : TransportType) : atransport :=
  mk_atransport 0 ty "foo" "/path/to/bar" "test_product" "test_model" "test_device"
    kCsOffline [] [] 4096.

(** The transport of [test_matches_target_local], with its type set to
    [ty]. *)
Definition tcp_device (ty : TransportType) : atransport :=
  mk_atransport 0 ty "100.100.100.100:5555" "" "" "" "" kCsOffline [] [] 4096.

End Tests.

End Transport.

(** ** The service sockets of the daemon ([services.cpp]) *)

Module Services.
Import Strings.
Local Open Scope Z_scope.

(** [size_t] and [uint64_t]: 64 bits. *)
Definition SIZE_MAX : Z := 2 ^ 64 - 1.
Definition UINT64_MAX : Z := 2 ^ 64 - 1.
Definition INT_MAX : Z := 2 ^ 31 - 1.

(** [a - b] on [size_t]. *)
Definition size_sub (a b : Z) : Z := (a - b) mod 2 ^ 64.

(** [apacket::payload_type]: a block of bytes. *)
Abbreviation payload_type := (list Byte.byte).

(** [data.size()]. *)
Definition size (data : payload_type) : Z := Z.of_nat (length data).

(** [Block block(len); memset(block.data(), 0, block.size())]. *)
Definition zero_block (len : Z) : payload_type := repeat Byte.x00 (Z.to_nat len).

(** *** Packets and what leaves the process *)

Inductive Command := A_SYNC | A_CNXN | A_AUTH | A_OPEN | A_OKAY | A_CLSE | A_WRTE | A_STLS.

Record apacket := mk_apacket {
  command : Command;
  arg0 : N;
  arg1 : N;
  payload : payload_type;
}.

(** The effects on the world outside the socket table, oldest first: a
    packet handed to a transport (named by its [transport_id]), bytes
    written to a file descriptor, a file descriptor closed. *)
Inductive event :=
  | Sent (transport_id : N) (p : apacket)
  | FdWrite (fd : Z) (data : payload_type)
  | FdClose (fd : Z).

(** *** Sockets *)

(** An [asocket*]: an address in the socket table. *)
Abbreviation ptr := nat.

(** The implementations of the [asocket] callbacks: the three classes of
    [services.cpp] and, from the spec, the remote socket and the
    file-descriptor-backed local socket. A remote socket remembers
    whether its final CLSE went out. *)
Inductive socket_kind :=
  | ServiceSocket
  | SinkSocket (bytes_left_ : Z)
  | SourceSocket (bytes_left_ : Z)
  | RemoteSocket (clse_sent : bool)
  | LocalFdSocket (fd : Z).

(** [struct asocket]: the fields that [services.cpp] reads and writes.
    [shutdown] tells whether the [shutdown] function pointer is set. *)
Record asocket := mk_asocket {
  id : N;
  peer : option ptr;
  transport : Transport.atransport;
  shutdown : bool;
  kind : socket_kind;
}.

Definition set_peer (s : asocket) (p : option ptr) : asocket :=
  mk_asocket (id s) p (transport s) (shutdown s) (kind s).
Definition set_kind (s : asocket) (k : socket_kind) : asocket :=
  mk_asocket (id s) (peer s) (transport s) (shutdown s) k.
Definition set_id (s : asocket) (i : N) : asocket :=
  mk_asocket i (peer s) (transport s) (shutdown s) (kind s).

(** The process state: the live sockets by address, the registry of
    installed local sockets with its id counter, and the effects so far. *)
Record World := mk_World {
  sockets : gmap ptr asocket;
  local_socket_list : list ptr;
  local_socket_next_id : N;
  trace : list event;
}.

Definition set_sockets (w : World) (m : gmap ptr asocket) : World :=
  mk_World m (local_socket_list w) (local_socket_next_id w) (trace w).
Definition set_trace (w : World) (tr : list event) : World :=
  mk_World (sockets w) (local_socket_list w) (local_socket_next_id w) tr.

(** *** Computations on the process state *)

(** How a call ends: it returns; it dereferences a null or dangling
    pointer or frees twice ([Fault], undefined behaviour); a [CHECK] fails
    and the process aborts; or the model ran out of fuel before the call
    returned. *)
Inductive outcome (A : Type) :=
  | Done (a : A) (w : World)
  | Fault
  | Aborted
  | OutOfFuel.
Arguments Done {A} a w.
Arguments Fault {A}.
Arguments Aborted {A}.
Arguments OutOfFuel {A}.

Definition M (A : Type) : Type := World -> outcome A.

Definition ret {A} (a : A) : M A := fun w => Done a w.

Definition bind {A B} (m : M A) (k : A -> M B) : M B :=
  fun w =>
    match m w with
    | Done a w' => k a w'
    | Fault => Fault
    | Aborted => Aborted
    | OutOfFuel => OutOfFuel
    end.

Notation "'let!' x ':=' m 'in' k" := (bind m (fun x => k))
  (at level 10, x name, m at level 100, k at level 200).
Notation "m '>>' k" := (bind m (fun _ => k))
  (at level 100, k at level 200, right associativity).

(** [*s] for a socket pointer. *)
Definition deref (s : ptr) : M asocket :=
  fun w => match sockets w !! s with Some x => Done x w | None => Fault end.

(** [*s] for a pointer that may be null. *)
Definition deref_opt (s : option ptr) : M asocket :=
  match s with Some s => deref s | None => fun _ => Fault end.

(** A write to the fields of [*s]. *)
Definition store (s : ptr) (x : asocket) : M unit :=
  fun w =>
    match sockets w !! s with
    | Some _ => Done tt (set_sockets w (<[s := x]> (sockets w)))
    | None => Fault
    end.

(** [delete s]. *)
Definition free (s : ptr) : M unit :=
  fun w =>
    match sockets w !! s with
    | Some _ => Done tt (set_sockets w (delete s (sockets w)))
    | None => Fault
    end.

(** [new]: a fresh address holding [x]. *)
Definition alloc (x : asocket) : M ptr :=
  fun w =>
    let s := fresh (dom (sockets w)) in
    Done s (set_sockets w (<[s := x]> (sockets w))).

Definition emit (e : event) : M unit :=
  fun w => Done tt (set_trace w (trace w ++ [e])).

(** Modelled from the spec: [send_packet] ([transport.cpp] is not among
    the sources): the packet is handed to the transport's connection. *)
Definition send_packet (p : apacket) (t : Transport.atransport) : M unit :=
  emit (Sent (Transport.id t) p).

(** Modelled from the spec: [send_ready] ([adb.cpp] is not among the
    sources): "emit OKAY(local_id, remote_id) as the credit return". The
    spec's OKAY carries no payload, so the count of acknowledged bytes
    that the caller passes is not sent. *)
Definition send_ready (local remote : N) (t : Transport.atransport) (ack_bytes : Z)
    : M unit :=
  send_packet (mk_apacket A_OKAY local remote []) t.

(** Modelled from the spec: [send_close]: CLSE(local, remote). *)
Definition send_close (local remote : N) (t : Transport.atransport) : M unit :=
  send_packet (mk_apacket A_CLSE local remote []) t.

(** Modelled from the spec: [install_local_socket] ([sockets.cpp] is not
    among the sources): "Enters the registry at creation"; the id is
    "monotonically allocated". Returns the id given to the socket at
    address [s]. *)
Definition install_local_socket (s : ptr) : M N :=
  fun w =>
    Done (local_socket_next_id w)
      (mk_World (sockets w) (local_socket_list w ++ [s])
         (N.succ (local_socket_next_id w)) (trace w)).

(** Modelled from the spec: [remove_socket]: the socket leaves the
    registry. *)
Definition remove_socket (s : ptr) : M unit :=
  fun w =>
    Done tt
      (mk_World (sockets w) (filter (fun a => a <> s) (local_socket_list w))
         (local_socket_next_id w) (trace w)).

(** Modelled from the spec: [asocket::get_max_payload]: the payload bound
    of the transport that the socket is bound to ("max_payload (bytes)"). *)
Definition get_max_payload (s : asocket) : Z :=
  Transport.max_payload (transport s).

(** *** The callbacks *)

(** A call through one of the function pointers of an [asocket]. *)
Inductive op :=
  | enqueue (data : payload_type)
  | ready
  | close
  | do_shutdown.

Section Methods.

(** [s->enqueue(s, data)], [s->ready(s)], [s->close(s)] and
    [s->shutdown(s)] for a socket of any kind; the result is the [int]
    that [enqueue] returns and 0 for the others. *)
Variable call : op -> ptr -> M Z.

(** [ServiceSocket::Close]. *)
Definition ServiceSocket_Close (this : ptr) : M unit :=
  let! s := deref this in
  match peer s with
  | Some p =>
      let! ps := deref p in
      store p (set_peer ps None) >>
      (if shutdown ps then call do_shutdown p >> ret tt else ret tt) >>
      call close p >> ret tt
  | None => ret tt
  end >>
  remove_socket this >>
  free this.

(** [ServiceSocket::Enqueue], which [SourceSocket] overrides with the
    same body. *)
Definition ServiceSocket_Enqueue (this : ptr) (data : payload_type) : M Z :=
  ret (-1).

(** [ServiceSocket::Ready]. *)
Definition ServiceSocket_Ready (this : ptr) : M unit := ret tt.

(** [SinkSocket::Enqueue]; [this] is a sink socket. *)
Definition SinkSocket_Enqueue (this : ptr) (data : payload_type) : M Z :=
  let! s := deref this in
  match kind s with
  | SinkSocket bytes_left_ =>
      if bytes_left_ <=? size data then
        ServiceSocket_Close this >> ret (-1)
      else
        store this (set_kind s (SinkSocket (size_sub bytes_left_ (size data)))) >>
        ret 0
  | _ => fun _ => Fault
  end.

(** [SourceSocket::Ready]; [this] is a source socket. [bytes_left_] is
    read again after the call on the peer. *)
Definition SourceSocket_Ready (this : ptr) : M unit :=
  let! s := deref this in
  match kind s with
  | SourceSocket bytes_left_ =>
      let len := Z.min bytes_left_ (get_max_payload s) in
      if len =? 0 then ServiceSocket_Close this
      else
        let! p := match peer s with Some p => ret p | None => fun _ => Fault end in
        call (enqueue (zero_block len)) p >>
        let! s' := deref this in
        match kind s' with
        | SourceSocket bytes_left_' =>
            store this (set_kind s' (SourceSocket (size_sub bytes_left_' len)))
        | _ => fun _ => Fault
        end
  | _ => fun _ => Fault
  end.

(** The virtual [Enqueue] and [Ready] of a service socket. *)
Definition Enqueue (this : ptr) (data : payload_type) : M Z :=
  let! s := deref this in
  match kind s with
  | SinkSocket _ => SinkSocket_Enqueue this data
  | _ => ServiceSocket_Enqueue this data
  end.

Definition Ready (this : ptr) : M unit :=
  let! s := deref this in
  match kind s with
  | SourceSocket _ => SourceSocket_Ready this
  | _ => ServiceSocket_Ready this
  end.

(** The [enqueue] callback that the [ServiceSocket] constructor installs:
    the credit goes back first, then the service sees the data. *)
Definition ServiceSocket_enqueue (self : ptr) (data : payload_type) : M Z :=
  let! s := deref self in
  let! p := deref_opt (peer s) in
  send_ready (id s) (id p) (transport s) (size data) >>
  Enqueue self data.

(** Modelled from the spec: the remote socket ([sockets.cpp] is not among
    the sources). "Outbound: a local socket writes into its peer remote
    socket, which serializes an A_WRTE packet and hands it to the
    Transport's Connection"; the packet "carries arg0 = sender's local_id,
    arg1 = receiver's local_id". *)
Definition remote_socket_enqueue (s : ptr) (data : payload_type) : M Z :=
  let! r := deref s in
  let! p := deref_opt (peer r) in
  send_packet (mk_apacket A_WRTE (id p) (id r) data) (transport r) >>
  ret 1.

(** Modelled from the spec: a remote socket that is told [ready] passes
    the credit on to its peer across the transport. *)
Definition remote_socket_ready (s : ptr) : M unit :=
  let! r := deref s in
  let! p := deref_opt (peer r) in
  send_ready (id p) (id r) (transport r) 0.

(** Modelled from the spec: the final CLSE of a remote socket; its
    [arg0] is the local id of its peer, 0 when it has none ("local_id==0
    is reserved for unpaired" sockets). *)
Definition remote_socket_send_close (s : ptr) : M unit :=
  let! r := deref s in
  match kind r with
  | RemoteSocket true => ret tt
  | _ =>
      let! local := match peer r with
                    | Some p => let! ps := deref p in ret (id ps)
                    | None => ret 0%N
                    end in
      send_close local (id r) (transport r) >>
      store s (set_kind r (RemoteSocket true))
  end.

Definition remote_socket_shutdown (s : ptr) : M unit :=
  remote_socket_send_close s.

(** Modelled from the spec: "close(): dispose; must cascade a final CLSE
    to the peer if not already sent"; a socket that closes takes its pair
    with it. *)
Definition remote_socket_close (s : ptr) : M unit :=
  let! r := deref s in
  match peer r with
  | Some p =>
      let! ps := deref p in
      store p (set_peer ps None) >>
      call close p >> ret tt
  | None => ret tt
  end >>
  remote_socket_send_close s >>
  free s.

(** Modelled from the spec: the file-descriptor-backed local socket: it
    "writes inbound WRTE payloads to" its descriptor; it reads the
    descriptor from the event loop, not from [ready]; closing it closes
    the descriptor and cascades to the peer. *)
Definition local_socket_enqueue (s : ptr) (data : payload_type) : M Z :=
  let! l := deref s in
  match kind l with
  | LocalFdSocket fd => emit (FdWrite fd data) >> ret 0
  | _ => fun _ => Fault
  end.

Definition local_socket_close (s : ptr) : M unit :=
  let! l := deref s in
  match peer l with
  | Some p =>
      let! ps := deref p in
      store p (set_peer ps None) >>
      (if shutdown ps then call do_shutdown p >> ret tt else ret tt) >>
      call close p >> ret tt
  | None => ret tt
  end >>
  match kind l with
  | LocalFdSocket fd => emit (FdClose fd)
  | _ => ret tt
  end >>
  remove_socket s >>
  free s.

Definition void (m : M unit) : M Z := m >> ret 0.

(** The function pointers of a socket, by its kind. A call through a
    null [shutdown] pointer is a fault. *)
Definition methods (o : op) (s : ptr) : M Z :=
  let! x := deref s in
  match kind x, o with
  | (ServiceSocket | SinkSocket _ | SourceSocket _), enqueue data =>
      ServiceSocket_enqueue s data
  | (ServiceSocket | SinkSocket _ | SourceSocket _), ready => void (Ready s)
  | (ServiceSocket | SinkSocket _ | SourceSocket _), close =>
      void (ServiceSocket_Close s)
  | RemoteSocket _, enqueue data => remote_socket_enqueue s data
  | RemoteSocket _, ready => void (remote_socket_ready s)
  | RemoteSocket _, close => void (remote_socket_close s)
  | RemoteSocket _, do_shutdown =>
      if shutdown x then void (remote_socket_shutdown s) else fun _ => Fault
  | LocalFdSocket _, enqueue data => local_socket_enqueue s data
  | LocalFdSocket _, ready => ret 0
  | LocalFdSocket _, close => void (local_socket_close s)
  | _, do_shutdown => fun _ => Fault
  end.

End Methods.

(** Calls through function pointers nest (a close closes the peer), so
    the dispatch is by recursion on a bound on the nesting. *)
Fixpoint call (fuel : nat) (o : op) (s : ptr) : M Z :=
  match fuel with
  | O => fun _ => OutOfFuel
  | S fuel' => methods (call fuel') o s
  end.

(** *** Constructors *)

(** [new] of a service socket class, through the [ServiceSocket]
    constructor: [CHECK(transport)], [install_local_socket(this)], the
    transport and the callbacks; no peer and no [shutdown] callback. The
    class and its [bytes_left_] are [k]. *)
Definition new_ServiceSocket (k : socket_kind) (transport : option Transport.atransport)
    : M ptr :=
  match transport with
  | None => fun _ => Aborted
  | Some t =>
      let! this := alloc (mk_asocket 0 None t false k) in
      let! i := install_local_socket this in
      let! s := deref this in
      store this (set_id s i) >>
      ret this
  end.

(** [new SinkSocket(transport, byte_count)] and
    [new SourceSocket(transport, byte_count)]. *)
Definition new_SinkSocket (transport : option Transport.atransport) (byte_count : Z)
    : M ptr :=
  new_ServiceSocket (SinkSocket byte_count) transport.

Definition new_SourceSocket (transport : option Transport.atransport) (byte_count : Z)
    : M ptr :=
  new_ServiceSocket (SourceSocket byte_count) transport.

(** *** The service dispatcher *)

(** The value of a decimal digit. *)
Definition digit (c : ascii) : option Z :=
  let n := Z.of_N (N_of_ascii c) in
  if (48 <=? n) && (n <=? 57) then Some (n - 48) else None.

Fixpoint parse_digits (max : Z) (str : string) (value : Z) : option Z :=
  match str with
  | EmptyString => Some value
  | String c rest =>
      match digit c with
      | None => None
      | Some d =>
          if value >? max / 10 then None
          else if value * 10 >? max - d then None
          else parse_digits max rest (value * 10 + d)
      end
  end.

(** Modelled from the spec: [ParseUint(&result, str)] ([adb_utils.h] is
    not among the sources): the "<n>" of "sink:<n>" and "source:<n>", an
    unsigned decimal number that fits the result type, whose largest
    value is [max]. *)
Definition ParseUint (max : Z) (str : string) : option Z :=
  match str with
  | EmptyString => None
  | _ => parse_digits max str 0
  end.

Section Dispatcher.

(** The JDWP sockets of [daemon/jdwp_service.h]; their definitions are
    not among the sources. *)
Variable create_jdwp_service_socket : M (option ptr).
Variable create_jdwp_tracker_service_socket : M (option ptr).
Variable create_app_tracker_service_socket : M (option ptr).

(** [daemon_service_to_socket]. *)
Definition daemon_service_to_socket (name : string)
    (transport : option Transport.atransport) : M (option ptr) :=
  if String.eqb name "jdwp" then create_jdwp_service_socket
  else if String.eqb name "track-jdwp" then create_jdwp_tracker_service_socket
  else if String.eqb name "track-app" then create_app_tracker_service_socket
  else
    match ConsumePrefix name "sink:" with
    | Some name =>
        match ParseUint UINT64_MAX name with
        | None => ret None
        | Some byte_count =>
            let! s := new_SinkSocket transport byte_count in ret (Some s)
        end
    | None =>
        match ConsumePrefix name "source:" with
        | Some name =>
            match ParseUint UINT64_MAX name with
            | None => ret None
            | Some byte_count =>
                let! s := new_SourceSocket transport byte_count in ret (Some s)
            end
        | None => ret None
        end
    end.

End Dispatcher.

Inductive SubprocessType := kPty | kRaw.
Inductive SubprocessProtocol := kNone | kShell.

(** What [daemon_service_to_fd] asks of the build and of the system: the
    preprocessor symbols, and for each helper that starts a service the
    descriptor it returns (-1 when it fails). *)
Record Os := mk_Os {
  ANDROID : bool;
  ANDROID_RECOVERY : bool;
  is_in_tradeinmode : bool;
  allow_tradeinmode_command : string -> bool;
  android_log_is_debuggable : bool;
  execute_abb_command : string -> Z;
  create_service_thread : string -> Z;
  StartSubprocess : string -> option string -> SubprocessType -> SubprocessProtocol -> Z;
  unix_open : string -> Z;
  tcgetattr : Z -> Z;
  tcsetattr : Z -> Z;
  create_jdwp_connection_fd : Z -> Z;
  sscanf_d : string -> option Z;
  adb_socketpair : option (Z * Z);
  kShellServiceArgRaw : string;
  kShellServiceArgPty : string;
  kShellServiceArgShellProtocol : string;
}.

(** [args.find(c)] and the two [substr] around it. *)
Fixpoint cut (s : string) (c : ascii) : option (string * string) :=
  match s with
  | EmptyString => None
  | String d rest =>
      if Ascii.eqb d c then Some (EmptyString, rest)
      else match cut rest c with
           | Some (before, after) => Some (String d before, after)
           | None => None
           end
  end.

(** [reverse_service]: the descriptor of its end of the socket pair. *)
Definition reverse_service (os : Os) (command : string) : Z :=
  match adb_socketpair os with
  | None => -1
  | Some (s0, _) => s0
  end.

(** One step of the loop of [ShellService] over the arguments. *)
Definition shell_arg (os : Os)
    (st : SubprocessType * SubprocessProtocol * string) (arg : string)
    : SubprocessType * SubprocessProtocol * string :=
  let '(type, protocol, terminal_type) := st in
  if String.eqb arg (kShellServiceArgRaw os) then (kRaw, protocol, terminal_type)
  else if String.eqb arg (kShellServiceArgPty os) then (kPty, protocol, terminal_type)
  else if String.eqb arg (kShellServiceArgShellProtocol os) then (type, kShell, terminal_type)
  else match ConsumePrefix arg "TERM=" with
       | Some term => (type, protocol, term)
       | None => st
       end.

(** [ShellService]. *)
Definition ShellService (os : Os) (args : string) : Z :=
  match cut args ":" with
  | None => -1
  | Some (service_args, command) =>
      let type := if String.eqb command "" then kPty else kRaw in
      let '(type, protocol, terminal_type) :=
        foldl (shell_arg os) (type, kNone, "dumb") (Split service_args ",") in
      StartSubprocess os command (Some terminal_type) type protocol
  end.

(** [reboot_device]. *)
Definition reboot_device (os : Os) (name : string) : Z :=
  if ANDROID_RECOVERY os && negb (android_log_is_debuggable os) then
    create_service_thread os "reboot"
  else StartSubprocess os ("/system/bin/reboot " +:+ name) None kRaw kNone.

(** The services of [daemon_service_to_fd] under [#if defined(__ANDROID__)];
    [None] when the name is none of them. *)
Definition android_service_to_fd (os : Os) (name : string) : option Z :=
  if StartsWith name "framebuffer:" then Some (create_service_thread os "fb")
  else match ConsumePrefix name "remount:" with
  | Some name =>
      Some (StartSubprocess os ("/system/bin/remount " +:+ name) None kRaw kNone)
  | None =>
  match ConsumePrefix name "reboot:" with
  | Some name => Some (reboot_device os name)
  | None =>
  if StartsWith name "root:" then Some (create_service_thread os "root")
  else if StartsWith name "unroot:" then Some (create_service_thread os "unroot")
  else match ConsumePrefix name "backup:" with
  | Some name =>
      Some (StartSubprocess os ("/system/bin/bu backup " +:+ name) None kRaw kNone)
  | None =>
  if StartsWith name "restore:" then
    Some (StartSubprocess os "/system/bin/bu restore" None kRaw kNone)
  else if StartsWith name "disable-verity:" then
    Some (StartSubprocess os "/system/bin/disable-verity" None kRaw kNone)
  else if StartsWith name "enable-verity:" then
    Some (StartSubprocess os "/system/bin/enable-verity" None kRaw kNone)
  else match ConsumePrefix name "tcpip:" with
  | Some name =>
      match sscanf_d os name with
      | None => Some (-1)
      | Some port => Some (create_service_thread os "tcp")
      end
  | None =>
  if StartsWith name "usb:" then Some (create_service_thread os "usb")
  else None
  end end end end.

(** The services of [daemon_service_to_fd] of every build. *)
Definition common_service_to_fd (os : Os) (name : string) : Z :=
  match ConsumePrefix name "dev:" with
  | Some name => unix_open os name
  | None =>
  match ConsumePrefix name "dev-raw:" with
  | Some name =>
      let fd := unix_open os name in
      if fd =? -1 then -1
      else if tcgetattr os fd =? -1 then -1
      else if tcsetattr os fd =? -1 then -1
      else fd
  | None =>
  match ConsumePrefix name "jdwp:" with
  | Some name =>
      match ParseUint INT_MAX name with
      | None => -1
      | Some pid => create_jdwp_connection_fd os pid
      end
  | None =>
  match ConsumePrefix name "shell" with
  | Some name => ShellService os name
  | None =>
  match ConsumePrefix name "exec:" with
  | Some name => StartSubprocess os name None kRaw kNone
  | None =>
  if StartsWith name "sync:" then create_service_thread os "sync"
  else match ConsumePrefix name "reverse:" with
  | Some name => reverse_service os name
  | None =>
  if String.eqb name "reconnect" then create_service_thread os "reconnect"
  else if String.eqb name "spin" then create_service_thread os "spin"
  else -1
  end end end end end end.

(** [daemon_service_to_fd]: the descriptor of the service, -1 (an empty
    [unique_fd]) when there is none. *)
Definition daemon_service_to_fd (os : Os) (name : string)
    (transport : Transport.atransport) : Z :=
  if is_in_tradeinmode os && negb (allow_tradeinmode_command os name) then -1
  else if ANDROID os && negb (ANDROID_RECOVERY os) &&
          (StartsWith name "abb:" || StartsWith name "abb_exec:") then
    execute_abb_command os name
  else
    match (if ANDROID os then android_service_to_fd os name else None) with
    | Some fd => fd
    | None => common_service_to_fd os name
    end.

(** *** Opening a service *)

(** Modelled from the spec: [create_remote_socket] ([sockets.cpp] is not
    among the sources): "Shadow of a peer local socket; holds remote_id,
    back-reference to its transport". *)
Definition create_remote_socket (remote_id : N) (t : Transport.atransport) : M ptr :=
  alloc (mk_asocket remote_id None t true (RemoteSocket false)).

(** Modelled from the spec: [create_local_socket]: "The returned fd is
    wrapped in a file-descriptor-backed local socket", which enters the
    registry. *)
Definition create_local_socket (fd : Z) (t : Transport.atransport) : M ptr :=
  let! s := alloc (mk_asocket 0 None t false (LocalFdSocket fd)) in
  let! i := install_local_socket s in
  let! x := deref s in
  store s (set_id x i) >>
  ret s.

Section Open.

Variable create_jdwp_service_socket : M (option ptr).
Variable create_jdwp_tracker_service_socket : M (option ptr).
Variable create_app_tracker_service_socket : M (option ptr).
Variable os : Os.

(** Modelled from the spec: [create_local_service_socket]: the service
    dispatcher "looks up named service and returns either a
    file-descriptor source/sink or an in-process socket"; [None] when
    neither factory knows the name or the service fails to start. *)
Definition create_local_service_socket (name : string) (t : Transport.atransport)
    : M (option ptr) :=
  let! s := daemon_service_to_socket create_jdwp_service_socket
              create_jdwp_tracker_service_socket create_app_tracker_service_socket
              name (Some t) in
  match s with
  | Some s => ret (Some s)
  | None =>
      let fd := daemon_service_to_fd os name t in
      if fd <? 0 then ret None
      else let! s := create_local_socket fd t in ret (Some s)
  end.

(** Modelled from the spec: the handler of an inbound OPEN ([adb.cpp] is
    not among the sources). "Inbound OPEN(local=remote_id, 0,
    service-name): look up service; if service returns a local endpoint,
    allocate a fresh local_id, pair with a new RemoteSocket(remote_id);
    respond OKAY(local_id, remote_id). If the service is unknown or fails
    to start, respond CLSE(0, remote_id)." Returns the local socket. *)
Definition handle_open (name : string) (t : Transport.atransport) (remote_id : N)
    : M (option ptr) :=
  let! s := create_local_service_socket name t in
  match s with
  | None => send_close 0 remote_id t >> ret None
  | Some s =>
      let! r := create_remote_socket remote_id t in
      let! x := deref s in
      store s (set_peer x (Some r)) >>
      let! y := deref r in
      store r (set_peer y (Some s)) >>
      send_ready (id x) remote_id t 0 >>
      ret (Some s)
  end.

End Open.

(** *** What the properties are stated with *)

(** The classes of [services.cpp]. *)
Definition is_service (k : socket_kind) : Prop :=
  match k with
  | ServiceSocket | SinkSocket _ | SourceSocket _ => True
  | RemoteSocket _ | LocalFdSocket _ => False
  end.

(** Symmetric pairing: a live socket with a peer is the peer of its
    peer, which is live as well. *)
Definition paired (w : World) : Prop :=
  forall s x p, sockets w !! s = Some x -> peer x = Some p ->
    exists y, sockets w !! p = Some y /\ peer y = Some s.

(** The pairing of the live sockets: for each, its [peer] field. *)
Definition peers (w : World) : gmap ptr (option ptr) := peer <$> sockets w.

Definition symmetric (m : gmap ptr (option ptr)) : Prop :=
  forall s p, m !! s = Some (Some p) -> m !! p = Some (Some s).

(** What one close makes of the pairing: nothing, or an unpaired socket
    is gone, or a socket and its peer are gone. *)
Inductive peers_step (m m' : gmap ptr (option ptr)) : Prop :=
  | step_same : m' = m -> peers_step m m'
  | step_close_single (s : ptr) :
      m !! s = Some None -> m' = delete s m -> peers_step m m'
  | step_close_pair (s p : ptr) :
      m !! s = Some (Some p) -> m' = delete s (delete p m) -> peers_step m m'.

(** [w'] has the effects of [w] and then some more. *)
Definition extends (w w' : World) : Prop :=
  exists rest, trace w' = trace w ++ rest.

(** [m2] returns what [m1] returns, wherever [m1] has fuel enough. *)
Definition agrees {A} (m1 m2 : M A) : Prop :=
  forall w, m1 w <> OutOfFuel -> m2 w = m1 w.

(** The world after the service socket [s] and its peer [p] closed, with
    [events] for the effects of the close. *)
Definition closed_pair (w : World) (s p : ptr) (events : list event) : World :=
  mk_World (delete s (delete p (sockets w)))
    (filter (fun a => a <> s) (local_socket_list w))
    (local_socket_next_id w) (trace w ++ events).

(** The names that [daemon_service_to_socket] serves. *)
Definition in_process_service (name : string) : Prop :=
  name = "jdwp" \/ name = "track-jdwp" \/ name = "track-app" \/
  (exists digits byte_count,
     name = "sink:" +:+ digits /\ ParseUint UINT64_MAX digits = Some byte_count) \/
  (exists digits byte_count,
     name = "source:" +:+ digits /\ ParseUint UINT64_MAX digits = Some byte_count).

(** *** A process to run the scenarios in *)

Module Tests.

(** A daemon on Android in which every helper starts its service. *)
Definition os : Os :=
  mk_Os true false false (fun _ => true) true (fun _ => 10) (fun _ => 11)
    (fun _ _ _ _ => 12) (fun _ => 13) (fun _ => 0) (fun _ => 0) (fun _ => 14)
    (fun _ => Some 5555) (Some (15, 16)) "raw" "pty" "v2".

(** A JDWP factory that makes a plain service socket on [t]. *)
Definition jdwp (t : Transport.atransport) : M (option ptr) :=
  let! s := new_ServiceSocket ServiceSocket (Some t) in ret (Some s).

Definition t : Transport.atransport :=
  Transport.atransport_new Transport.kTransportLocal Transport.kCsDevice 4096.

(** No sockets yet; ids start at 1. *)
Definition w0 : World := mk_World ∅ [] 1 [].

(** [n] bytes from the peer. *)
Definition bytes (n : nat) : payload_type := repeat Byte.x01 n.

(** A sink or source socket at address 0 with local id 1, paired with
    the remote socket of the peer's stream 77 at address 1. *)
Definition service (k : socket_kind) : asocket := mk_asocket 1 (Some 1%nat) t false k.
Definition remote : asocket := mk_asocket 77 (Some 0%nat) t true (RemoteSocket false).
Definition opened (k : socket_kind) : World :=
  mk_World (<[0%nat := service k]> (<[1%nat := remote]> ∅)) [0%nat] 2 [].

End Tests.

End Services.

(** ** More of [services.cpp]: what the properties of the descriptor
    factory are stated with *)

Module Descriptors.
Import Services.
Local Open Scope Z_scope.

(** The first test of [daemon_service_to_fd]: trade-in mode forbids the
    command. *)
Definition refused (os : Os) (name : string) : bool :=
  is_in_tradeinmode os && negb (allow_tradeinmode_command os name).

Module Builds.

(** A build of the daemon for a host, in which every helper starts its
    service. *)
Definition host : Os :=
  mk_Os false false false (fun _ => true) true (fun _ => 10) (fun _ => 11)
    (fun _ _ _ _ => 12) (fun _ => 13) (fun _ => 0) (fun _ => 0) (fun _ => 14)
    (fun _ => Some 5555) (Some (15, 16)) "raw" "pty" "v2".

End Builds.

End Descriptors.

(** ** Streams of calls on a service socket *)

Module Streams.
Import Services.
Local Open Scope Z_scope.

(** The peer writes [datas] to the socket [s], one payload after the
    other, until a write is refused; the number of writes the socket
    took. *)
Fixpoint deliver (fuel : nat) (s : ptr) (datas : list payload_type) : M nat :=
  match datas with
  | [] => ret 0%nat
  | data :: rest =>
      let! r := call fuel (enqueue data) s in
      if r =? 0 then let! n := deliver fuel s rest in ret (S n)
      else ret 0%nat
  end.

(** The peer grants credit to the socket [s] for as long as it is live,
    [steps] times at most. *)
Fixpoint drain (fuel : nat) (steps : nat) (s : ptr) : M unit :=
  match steps with
  | O => ret tt
  | S steps' =>
      fun w =>
        match sockets w !! s with
        | Some _ => (call fuel ready s >> drain fuel steps' s) w
        | None => Done tt w
        end
  end.

(** The bytes of [datas] taken together. *)
Definition total (datas : list payload_type) : Z :=
  foldr (fun data n => size data + n) 0 datas.

(** The registry of [w'] holds no socket that the registry of [w] does
    not hold. *)
Definition shrinks (w w' : World) : Prop :=
  forall a, a ∈ local_socket_list w' -> a ∈ local_socket_list w.

End Streams.

(** ** The start of the daemon ([daemon/main.cpp]) *)

Module Daemon.
Import Strings.
Local Open Scope Z_scope.

(** *** System properties (android-base/properties.h) *)

Abbreviation Properties := (gmap string string).

(** [android::base::GetProperty(key, default_value)]: the value of the
    property, [default_value] when it is unset or empty. *)
Definition GetProperty (props : Properties) (key default_value : string) : string :=
  match props !! key with
  | Some value => if String.eqb value "" then default_value else value
  | None => default_value
  end.

(** [android::base::ParseBool]. *)
Definition ParseBool (s : string) : option bool :=
  if existsb (String.eqb s) ["1"; "y"; "yes"; "on"; "true"] then Some true
  else if existsb (String.eqb s) ["0"; "n"; "no"; "off"; "false"] then Some false
  else None.

(** [android::base::GetBoolProperty(key, default_value)]. *)
Definition GetBoolProperty (props : Properties) (key : string) (default_value : bool) : bool :=
  match ParseBool (GetProperty props key "") with
  | Some b => b
  | None => default_value
  end.

(** [android::base::SetProperty(key, value)]. *)
Definition SetProperty (props : Properties) (key value : string) : Properties :=
  <[key := value]> props.

(** [StringPrintf("%d", n)]. *)
Definition decimal (n : Z) : string := DecimalString.NilZero.string_of_int (Z.to_int n).

(** *** The build and the system *)

Inductive cap_flag := CAP_INHERITABLE | CAP_EFFECTIVE | CAP_PERMITTED.

(** What [main.cpp] asks of the build and of the system: the
    preprocessor symbols, the default port of [adb.h], and for each
    helper of another file or of a library what it returns. *)
Record System := mk_System {
  ANDROID : bool;
  ANDROID_RECOVERY : bool;
  DEFAULT_ADB_LOCAL_TRANSPORT_PORT : Z;
  android_log_is_debuggable : bool;
  should_enter_tradeinmode : bool;
  is_in_tradein_evaluation_mode : bool;
  selinux_android_setcon : string -> Z;
  cap_clear_flag : cap_flag -> Z;
  cap_set_proc : Z;
  access_USB_FFS_ADB_EP0 : Z;
  getenv : string -> option string;
  sscanf_d : string -> option Z;
  get_host_socket_spec_port : string -> Z;
}.

Inductive gid :=
  | AID_ADB | AID_LOG | AID_INPUT | AID_INET | AID_NET_BT | AID_NET_BT_ADMIN
  | AID_SDCARD_R | AID_SDCARD_RW | AID_NET_BW_STATS | AID_READPROC | AID_UHID
  | AID_EXT_DATA_RW | AID_EXT_OBB_RW | AID_READTRACEFS | AID_SHELL.

Inductive capability := CAP_SETUID | CAP_SETGID | CAP_SYS_NICE.

(** What the daemon did to its own process and what it started, oldest
    first. *)
Inductive action :=
  | umask (mask : Z)
  | signal_SIGPIPE_SIG_IGN
  | adbd_cloexec_auth_socket
  | setenv_EXTERNAL_STORAGE (value : string)
  | minijail_set_supplementary_gids (groups : list gid)
  | minijail_use_caps (caps : list capability)
  | minijail_change_gid (g : gid)
  | minijail_change_uid (u : gid)
  | minijail_enter
  | caps_cleared
  | enter_tradeinmode (seclabel : option string)
  | setcon (seclabel : string)
  | watchdog_Initialize
  | adbd_auth_init
  | usb_init
  | setup_mdns (port : Z)
  | init_transport_socket_server (addr : string)
  | init_jdwp
  | fdevent_loop.

(** The state of the daemon: the system properties, the [auth_required]
    flag of [adb_auth.h], and what it did. *)
Record Adbd := mk_Adbd {
  properties : Properties;
  auth_required : bool;
  done : list action;
}.

Definition act (st : Adbd) (a : action) : Adbd :=
  mk_Adbd (properties st) (auth_required st) (done st ++ [a]).
Definition set_auth_required (st : Adbd) (b : bool) : Adbd :=
  mk_Adbd (properties st) b (done st).
Definition set_properties (st : Adbd) (props : Properties) : Adbd :=
  mk_Adbd props (auth_required st) (done st).

(** The process goes on, or a [LOG(FATAL)] ended it. *)
Inductive result :=
  | Running (st : Adbd)
  | Fatal (st : Adbd).

(** [should_drop_privileges]. *)
Definition should_drop_privileges (sys : System) (props : Properties) : bool :=
  let ro_secure := GetBoolProperty props "ro.secure" true in
  let ro_debuggable := android_log_is_debuggable sys in
  let drop := ro_secure in
  let prop := GetProperty props "service.adb.root" "" in
  let adb_root := String.eqb prop "1" in
  let adb_unroot := String.eqb prop "0" in
  let drop := if ro_debuggable && adb_root then false else drop in
  let drop := if adb_unroot then true else drop in
  drop.

(** [drop_privileges]; [root_seclabel] and [tim_seclabel] are the
    globals that [main] sets from the command line. The four calls that
    clear the capabilities are one action; each of them can fail.
    [minijail_enter], which aborts the process when a step of it fails,
    is taken to return. *)
Definition drop_privileges (sys : System) (root_seclabel tim_seclabel : option string)
    (st : Adbd) : result :=
  let groups := [AID_ADB; AID_LOG; AID_INPUT; AID_INET; AID_NET_BT; AID_NET_BT_ADMIN;
                 AID_SDCARD_R; AID_SDCARD_RW; AID_NET_BW_STATS; AID_READPROC; AID_UHID;
                 AID_EXT_DATA_RW; AID_EXT_OBB_RW; AID_READTRACEFS] in
  let st := act st (minijail_set_supplementary_gids groups) in
  if should_drop_privileges sys (properties st) then
    let should_drop_caps := negb (android_log_is_debuggable sys) in
    let st := if should_drop_caps
              then act st (minijail_use_caps [CAP_SETUID; CAP_SETGID; CAP_SYS_NICE])
              else st in
    let st := act st (minijail_change_gid AID_SHELL) in
    let st := act st (minijail_change_uid AID_SHELL) in
    let st := act st minijail_enter in
    if cap_clear_flag sys CAP_INHERITABLE =? -1 then Fatal st
    else if cap_clear_flag sys CAP_EFFECTIVE =? -1 then Fatal st
    else if cap_clear_flag sys CAP_PERMITTED =? -1 then Fatal st
    else if negb (cap_set_proc sys =? 0) then Fatal st
    else
      let st := act st caps_cleared in
      if should_enter_tradeinmode sys then
        Running (set_auth_required (act st (enter_tradeinmode tim_seclabel)) false)
      else if is_in_tradein_evaluation_mode sys then
        Running (set_auth_required st false)
      else Running st
  else
    let st := act st minijail_enter in
    match root_seclabel with
    | Some seclabel =>
        if selinux_android_setcon sys seclabel <? 0 then
          Fatal (set_properties st (SetProperty (properties st) "service.adb.root" "0"))
        else Running (act st (setcon seclabel))
    | None => Running st
    end.

(** The loop of [setup_adb] over the addresses, which stops at the first
    one that has a port; -1 when none has. *)
Fixpoint first_port (sys : System) (addrs : list string) : Z :=
  match addrs with
  | [] => -1
  | addr :: rest =>
      let port := get_host_socket_spec_port sys addr in
      if negb (port =? -1) then port else first_port sys rest
  end.

(** [setup_adb]. *)
Definition setup_adb (sys : System) (addrs : list string) (st : Adbd) : Adbd :=
  let st :=
    if ANDROID sys then
      let port := first_port sys addrs in
      let port := if port =? -1 then DEFAULT_ADB_LOCAL_TRANSPORT_PORT sys else port in
      act st (setup_mdns port)
    else st in
  foldl (fun st addr => act st (init_transport_socket_server addr)) st addrs.

(** [adbd_main], the part that settles [auth_required] before the
    privileges are dropped. *)
Definition adbd_main_auth (sys : System) (st : Adbd) : Adbd :=
  if ANDROID sys then
    let device_unlocked :=
      String.eqb (GetProperty (properties st) "ro.boot.verifiedbootstate" "") "orange" in
    if device_unlocked || android_log_is_debuggable sys then
      let st := set_auth_required st (GetBoolProperty (properties st) "ro.adb.secure" false) in
      if ANDROID_RECOVERY sys then
        set_auth_required st
          (auth_required st && GetBoolProperty (properties st) "ro.adb.secure.recovery" true)
      else st
    else st
  else st.

(** [adbd_main], the part that chooses what to listen on: the argument
    of the call of [setup_adb], [None] when it is not called. *)
Definition adbd_main_addrs (sys : System) (props : Properties) (is_usb : bool)
    : option (list string) :=
  let prop_addr := GetProperty props "service.adb.listen_addrs" "" in
  if String.eqb prop_addr "" then
    let prop_port := GetProperty props "service.adb.tcp.port" "" in
    let prop_port :=
      if String.eqb prop_port "" then GetProperty props "persist.adb.tcp.port" ""
      else prop_port in
    let prop_port :=
      if negb (ANDROID sys) then
        match getenv sys "ADBD_PORT" with
        | Some port => if String.eqb prop_port "" then port else prop_port
        | None => prop_port
        end
      else prop_port in
    let default :=
      ["tcp:" +:+ decimal (DEFAULT_ADB_LOCAL_TRANSPORT_PORT sys);
       "vsock:" +:+ decimal (DEFAULT_ADB_LOCAL_TRANSPORT_PORT sys)] in
    match sscanf_d sys prop_port with
    | Some port =>
        if 0 <? port then Some ["tcp:" +:+ decimal port; "vsock:" +:+ decimal port]
        else if negb is_usb then Some default
        else None
    | None => if negb is_usb then Some default else None
    end
  else Some (Split prop_addr ",").

(** [adbd_main]. *)
Definition adbd_main (sys : System) (root_seclabel tim_seclabel : option string)
    (st : Adbd) : result :=
  let st := act st (umask 0) in
  let st := act st signal_SIGPIPE_SIG_IGN in
  let st := act st adbd_cloexec_auth_socket in
  let st := adbd_main_auth sys st in
  let st := match getenv sys "ADB_EXTERNAL_STORAGE" with
            | Some adb_external_storage =>
                act st (setenv_EXTERNAL_STORAGE adb_external_storage)
            | None => st
            end in
  match (if ANDROID sys then drop_privileges sys root_seclabel tim_seclabel st
         else Running st) with
  | Fatal st => Fatal st
  | Running st =>
      let st := if ANDROID sys then act st watchdog_Initialize else st in
      let st := act st adbd_auth_init in
      let is_usb := ANDROID sys && (access_USB_FFS_ADB_EP0 sys =? 0) in
      let st := if is_usb then act st usb_init else st in
      let st := match adbd_main_addrs sys (properties st) is_usb with
                | Some addrs => setup_adb sys addrs st
                | None => st
                end in
      Running (act (act st init_jdwp) fdevent_loop)
  end.

Module Tests.

(** A device: an Android build that is not debuggable, with USB, on
    which every call succeeds; an address of the form [tcp:5555] has the
    port 5555 and no other address has a port. *)
Definition device : System :=
  mk_System true false 5555 false false false (fun _ => 0) (fun _ => 0) 0 0
    (fun _ => None) (fun s => if String.eqb s "5557" then Some 5557 else None)
    (fun addr => if String.eqb addr "tcp:5555" then 5555 else -1).

(** A debuggable build on which the transition to the SELinux context of
    root fails. *)
Definition userdebug : System :=
  mk_System true false 5555 true false false (fun _ => -1) (fun _ => 0) 0 0
    (fun _ => None) (fun _ => None) (fun _ => -1).

(** The daemon before [adbd_main], after [adb root] was asked for. *)
Definition rooted : Adbd :=
  mk_Adbd (<["service.adb.root" := "1"]> (<["ro.secure" := "1"]> ∅)) true [].

(** The daemon of a locked device before [adbd_main]. *)
Definition locked : Adbd :=
  mk_Adbd (<["ro.boot.verifiedbootstate" := "green"]> (<["ro.adb.secure" := "0"]> ∅)) true [].

End Tests.

End Daemon.

(** ** The USB handles of the macOS client ([client/usb_osx.cpp]) *)

Module UsbOsx.
Local Open Scope Z_scope.

(** [struct usb_handle]; [interface] is [None] for a null pointer. *)
Record usb_handle := mk_usb_handle {
  bulkIn : Z;
  bulkOut : Z;
  interface : option nat;
  zero_mask : Z;
  max_packet_size : Z;
  mark : bool;
  devpath : string;
  dead : bool;
}.

Definition set_mark (usb : usb_handle) (b : bool) : usb_handle :=
  mk_usb_handle (bulkIn usb) (bulkOut usb) (interface usb) (zero_mask usb)
    (max_packet_size usb) b (devpath usb) (dead usb).
Definition set_dead (usb : usb_handle) (b : bool) : usb_handle :=
  mk_usb_handle (bulkIn usb) (bulkOut usb) (interface usb) (zero_mask usb)
    (max_packet_size usb) (mark usb) (devpath usb) b.

(** The calls through an interface, oldest first. *)
Inductive io :=
  | USBInterfaceClose (interface : nat)
  | Release (interface : nat)
  | WritePipe (interface : nat) (pipe : Z) (size : Z).

(** [g_usb_handles]: the handles that the vector owns, each with its
    address, in the order of the vector. *)
Abbreviation handles := (list (nat * usb_handle)).

(** [IsKnownDevice]: whether a handle has this device path; the first
    one that has is marked. *)
Fixpoint IsKnownDevice (path : string) (g_usb_handles : handles) : bool * handles :=
  match g_usb_handles with
  | [] => (false, [])
  | (a, usb) :: rest =>
      if String.eqb (devpath usb) path then (true, (a, set_mark usb true) :: rest)
      else let '(known, rest') := IsKnownDevice path rest in (known, (a, usb) :: rest')
  end.

(** [usb_kick_locked] on a handle that is not null: the handle after
    it and the calls made; [None] for the call through a null
    interface. *)
Definition usb_kick_locked (handle : usb_handle) : option (usb_handle * list io) :=
  if dead handle then Some (handle, [])
  else
    match interface handle with
    | Some i => Some (set_dead handle true, [USBInterfaceClose i; Release i])
    | None => None
    end.

(** [KickDisconnectedDevices]. *)
Fixpoint KickDisconnectedDevices (g_usb_handles : handles) : option (handles * list io) :=
  match g_usb_handles with
  | [] => Some ([], [])
  | (a, usb) :: rest =>
      '(usb', calls) ← (if negb (mark usb) then usb_kick_locked usb
                        else Some (set_mark usb false, []));
      '(rest', calls') ← KickDisconnectedDevices rest;
      Some ((a, usb') :: rest', calls ++ calls')
  end.

(** [AddDevice] of the handle at address [a]. *)
Definition AddDevice (a : nat) (handle : usb_handle) (g_usb_handles : handles) : handles :=
  g_usb_handles ++ [(a, set_mark handle true)].

(** [usb_close]: the vector without the handle at this address, which
    is destroyed. *)
Fixpoint usb_close (handle : nat) (g_usb_handles : handles) : handles :=
  match g_usb_handles with
  | [] => []
  | (a, usb) :: rest =>
      if decide (a = handle) then rest else (a, usb) :: usb_close handle rest
  end.

(** [usb_kick], and [usb_reset], which is the same, on a handle that is
    not null; the handles that are alive are those of the vector, and a
    kick of another address is a use after free ([None]). *)
Fixpoint usb_kick (handle : nat) (g_usb_handles : handles) : option (handles * list io) :=
  match g_usb_handles with
  | [] => None
  | (a, usb) :: rest =>
      if decide (a = handle) then
        '(usb', calls) ← usb_kick_locked usb; Some ((a, usb') :: rest, calls)
      else
        '(rest', calls) ← usb_kick handle rest; Some ((a, usb) :: rest', calls)
  end.

(** [usb_write] of [len] bytes; [WritePipe_result n] is what the call
    number [n] of [WritePipe] returns. The result and the calls made;
    [WritePipe] takes the size as a [UInt32], to which the [int] is
    converted. *)
Definition usb_write (WritePipe_result : nat -> Z) (handle : option usb_handle) (len : Z)
    : Z * list io :=
  if len =? 0 then (0, [])
  else
    match handle with
    | None => (-1, [])
    | Some h =>
        if dead h then (-1, [])
        else
          match interface h with
          | None => (-1, [])
          | Some i =>
              if bulkOut h =? 0 then (-1, [])
              else
                let result := WritePipe_result 0%nat in
                let calls := [WritePipe i (bulkOut h) (len mod 2 ^ 32)] in
                let '(result, calls) :=
                  if (result =? 0) && negb (zero_mask h =? 0) then
                    if Z.land (len mod 2 ^ 32) (zero_mask h) =? 0 then
                      (WritePipe_result 1%nat, calls ++ [WritePipe i (bulkOut h) 0])
                    else (result, calls)
                  else (result, calls) in
                if result =? 0 then (len, calls) else (-1, calls)
          end
    end.

(** *** What the properties are stated with *)

(** A handle after a sweep: not marked, and dead if it was dead or was
    not marked. *)
Definition swept (usb : usb_handle) : usb_handle :=
  mk_usb_handle (bulkIn usb) (bulkOut usb) (interface usb) (zero_mask usb)
    (max_packet_size usb) false (devpath usb) (dead usb || negb (mark usb)).

(** The calls of a sweep for this handle. *)
Definition kick_calls (usb : usb_handle) : list io :=
  if mark usb || dead usb then []
  else match interface usb with
       | Some i => [USBInterfaceClose i; Release i]
       | None => []
       end.

Module Tests.

(** A handle as [CheckInterface] returns it, for a device with packets
    of 512 bytes. *)
Definition phone (i : nat) (path : string) (seen : bool) : usb_handle :=
  mk_usb_handle 1 2 (Some i) 511 512 seen path false.

(** Two devices, of which the scan has seen the first. *)
Definition two : handles :=
  [(100%nat, phone 7 "usb:1X" true); (101%nat, phone 8 "usb:2X" false)].

End Tests.

End UsbOsx.

(** ** mDNS discovery of the client ([client/transport_mdns.cpp]) *)

Module Mdns.
Local Open Scope Z_scope.

(** [mdns::ServiceInfo]: the fields that this file reads. *)
Record ServiceInfo := mk_ServiceInfo {
  instance_name : string;
  service_name : string;
  v4_address_string : string;
  port : Z;
}.

(** [MdnsInfo], with its fields [service_name], [service_type], [addr]
    and [port]. *)
Record MdnsInfo := mk_MdnsInfo {
  info_service_name : string;
  info_service_type : string;
  info_addr : string;
  info_port : Z;
}.

(** What [mdns_parse_instance_name] makes of a name. *)
Record MdnsInstance := mk_MdnsInstance {
  parsed_instance_name : string;
  parsed_service_name : string;
  parsed_transport_type : string;
}.

(** A [ServiceWatcher]: whether it runs and the services it has found. *)
Record ServiceWatcher := mk_ServiceWatcher {
  is_running : bool;
  GetServices : list ServiceInfo;
}.

(** The globals of the file: [g_using_bonjour] and the watchers of
    [g_state], [None] while [g_state] is null. *)
Record Discovery := mk_Discovery {
  g_using_bonjour : bool;
  g_state : option (list ServiceWatcher);
}.

(** How a lookup ends: with its answer, in a failed [CHECK], or in an
    access outside the vector of watchers. *)
Inductive lookup_result :=
  | Answer (info : option MdnsInfo)
  | CheckFailed
  | OutOfRange.

(** [ForEachService]: the callback [cb] runs on the services of a
    running watcher, those of the wanted instance when one is named. *)
Definition ForEachService {A} (receiver : ServiceWatcher) (wanted_instance_name : string)
    (cb : ServiceInfo -> A -> A) (acc : A) : A :=
  if negb (is_running receiver) then acc
  else
    foldl (fun acc s =>
             if String.eqb wanted_instance_name "" ||
                String.eqb (instance_name s) wanted_instance_name
             then cb s acc else acc)
      acc (GetServices receiver).

(** The callback of the lookups: [info.emplace(...)]. *)
Definition emplace (si : ServiceInfo) (info : option MdnsInfo) : option MdnsInfo :=
  Some (mk_MdnsInfo (instance_name si) (service_name si) (v4_address_string si) (port si)).

(** The services that [ForEachService] calls back for when an instance is
    named. *)
Definition found (receiver : ServiceWatcher) (wanted : string) : list ServiceInfo :=
  filter (fun si => instance_name si = wanted)
    (if is_running receiver then GetServices receiver else []).

Section Lookups.

(** The indices of [adb_mdns.h] and the helpers of other files. *)
Variables kADBTransportServiceRefIndex kADBSecurePairingServiceRefIndex
  kADBSecureConnectServiceRefIndex : nat.
Variable mdns_parse_instance_name : string -> option MdnsInstance.
Variable adb_DNSServiceIndexByName : string -> option nat.

(** The lookups of [g_adb_mdnsresponder_funcs]. *)
Variable responder_connect_service_info : string -> option MdnsInfo.
Variable responder_pairing_service_info : string -> option MdnsInfo.

(** [ForEachService(g_state->watchers[index], wanted, cb)], and what
    follows it. *)
Definition watcher (watchers : list ServiceWatcher) (index : nat) (wanted : string)
    (info : option MdnsInfo) (k : option MdnsInfo -> lookup_result) : lookup_result :=
  match watchers !! index with
  | Some receiver => k (ForEachService receiver wanted emplace info)
  | None => OutOfRange
  end.

(** [mdns_get_connect_service_info]. *)
Definition mdns_get_connect_service_info (d : Discovery) (name : string) : lookup_result :=
  if String.eqb name "" then CheckFailed
  else if g_using_bonjour d then Answer (responder_connect_service_info name)
  else
    match g_state d with
    | None | Some [] => Answer None
    | Some watchers =>
        match mdns_parse_instance_name name with
        | None => Answer None
        | Some mdns_instance =>
            if negb (String.eqb (parsed_service_name mdns_instance) "") then
              let reg_type := parsed_service_name mdns_instance +:+ "." +:+
                              parsed_transport_type mdns_instance in
              match adb_DNSServiceIndexByName reg_type with
              | None => Answer None
              | Some index =>
                  if bool_decide (index = kADBTransportServiceRefIndex) ||
                     bool_decide (index = kADBSecureConnectServiceRefIndex)
                  then watcher watchers index (parsed_instance_name mdns_instance) None Answer
                  else Answer None
              end
            else
              watcher watchers kADBSecureConnectServiceRefIndex name None (fun info =>
                match info with
                | Some _ => Answer info
                | None => watcher watchers kADBTransportServiceRefIndex name info Answer
                end)
        end
    end.

(** [mdns_get_pairing_service_info]. *)
Definition mdns_get_pairing_service_info (d : Discovery) (name : string) : lookup_result :=
  if String.eqb name "" then CheckFailed
  else if g_using_bonjour d then Answer (responder_pairing_service_info name)
  else
    match g_state d with
    | None | Some [] => Answer None
    | Some watchers =>
        match mdns_parse_instance_name name with
        | None => Answer None
        | Some mdns_instance =>
            let info : option MdnsInfo := None in
            if negb (String.eqb (parsed_service_name mdns_instance) "") then
              let reg_type := parsed_service_name mdns_instance +:+ "." +:+
                              parsed_transport_type mdns_instance in
              match adb_DNSServiceIndexByName reg_type with
              | None => Answer None
              | Some index =>
                  if bool_decide (index = kADBSecurePairingServiceRefIndex) then Answer info
                  else Answer None
              end
            else watcher watchers kADBSecurePairingServiceRefIndex name info Answer
        end
    end.

End Lookups.

Module Tests.

(** A name is an instance name, or an instance name and the service
    [_adb-tls-pairing._tcp] after a slash. *)
Definition parse (name : string) : option MdnsInstance :=
  match Strings.Split name "/" with
  | [instance] => Some (mk_MdnsInstance instance "" "")
  | [instance; service] => Some (mk_MdnsInstance instance service "_tcp")
  | _ => None
  end.

Definition index_of (reg_type : string) : option nat :=
  if String.eqb reg_type "_adb._tcp" then Some 0%nat
  else if String.eqb reg_type "_adb-tls-pairing._tcp" then Some 1%nat
  else if String.eqb reg_type "_adb-tls-connect._tcp" then Some 2%nat
  else None.

Definition no_responder (name : string) : option MdnsInfo := None.

(** The same device seen by the three watchers. *)
Definition seen (service : string) (port : Z) : ServiceWatcher :=
  mk_ServiceWatcher true [mk_ServiceInfo "adb-1234" service "192.168.0.2" port].

Definition discovery : Discovery :=
  mk_Discovery false
    (Some [seen "_adb._tcp" 5555; seen "_adb-tls-pairing._tcp" 37001;
           seen "_adb-tls-connect._tcp" 37002]).

End Tests.

End Mdns.

(** * Properties *)

(** ** Facts about the string helpers *)

Module StringFacts.
Import Strings.

Lemma Split_nonempty s delim : Split s delim <> [].
Proof.
  destruct s as [|c rest]; simpl; [discriminate|].
  destruct (Ascii.eqb c delim); [discriminate|].
  destruct (Split rest delim); discriminate.
Qed.

Lemma Split_free s delim : free_of delim s = true -> Split s delim = [s].
Proof.
  induction s as [|c rest IH]; simpl; [reflexivity|].
  intros [Hc Hrest]%andb_true_iff.
  apply negb_true_iff in Hc. rewrite Hc, (IH Hrest). reflexivity.
Qed.

Lemma Split_app_delim s rest delim :
  free_of delim s = true ->
  Split (s +:+ String delim rest) delim = s :: Split rest delim.
Proof.
  induction s as [|c s' IH]; simpl.
  - intros _. rewrite Ascii.eqb_refl. reflexivity.
  - intros [Hc Hs']%andb_true_iff.
    apply negb_true_iff in Hc. rewrite Hc, (IH Hs'). reflexivity.
Qed.

(** Splitting undoes joining, for pieces that do not hold the delimiter. *)
Lemma Split_Join pieces delim :
  pieces <> [] ->
  Forall (fun p => free_of delim p = true) pieces ->
  Split (Join pieces delim) delim = pieces.
Proof.
  induction pieces as [|p rest IH]; [congruence|].
  intros _ Hall. inversion Hall as [|? ? Hp Hrest]; subst.
  destruct rest as [|q rest'].
  - simpl. apply Split_free, Hp.
  - change (Join (p :: q :: rest') delim)
      with (p +:+ String delim (Join (q :: rest') delim)).
    rewrite Split_app_delim by exact Hp.
    rewrite IH; [reflexivity|discriminate|exact Hrest].
Qed.

Lemma ConsumePrefix_app prefix rest : ConsumePrefix (prefix +:+ rest) prefix = Some rest.
Proof.
  induction prefix as [|p prefix' IH]; simpl; [reflexivity|].
  rewrite Ascii.eqb_refl. exact IH.
Qed.

Lemma ConsumePrefix_Some s prefix rest :
  ConsumePrefix s prefix = Some rest <-> s = prefix +:+ rest.
Proof.
  split.
  - revert s. induction prefix as [|p prefix' IH]; intros s; simpl.
    + intros [= ->]. reflexivity.
    + destruct s as [|c s']; [discriminate|].
      destruct (Ascii.eqb_spec c p) as [->|]; [|discriminate].
      intros H. rewrite (IH _ H). reflexivity.
  - intros ->. apply ConsumePrefix_app.
Qed.

Lemma StartsWith_ConsumePrefix s prefix :
  StartsWith s prefix = true <-> is_Some (ConsumePrefix s prefix).
Proof.
  revert s. induction prefix as [|p prefix' IH]; intros s; simpl.
  - split; eauto.
  - destruct s as [|c s'].
    + split; [discriminate|intros [? [=]]].
    + destruct (Ascii.eqb c p); simpl; [apply IH|].
      split; [discriminate|intros [? [=]]].
Qed.





Lemma free_of_app (c : ascii) (a b : string) :
  free_of c (a +:+ b) = free_of c a && free_of c b.
Proof.
  induction a as [|x a IH]; simpl; [reflexivity|].
  rewrite IH, andb_assoc. reflexivity.
Qed.

Lemma free_of_Join (c delim : ascii) (pieces : list string) :
  c <> delim ->
  Forall (fun p => free_of c p = true) pieces ->
  free_of c (Join pieces delim) = true.
Proof.
  intros Hne. induction 1 as [|p rest Hp Hrest IH]; [reflexivity|].
  destruct rest as [|q rest']; [exact Hp|].
  change (Join (p :: q :: rest') delim)
    with (p +:+ String delim (Join (q :: rest') delim)).
  rewrite free_of_app, Hp.
  change (free_of c (String delim (Join (q :: rest') delim)))
    with (negb (Ascii.eqb delim c) && free_of c (Join (q :: rest') delim)).
  rewrite IH.
  destruct (Ascii.eqb_spec delim c); [congruence|reflexivity].
Qed.



End StringFacts.

(** ** The transport *)

Module TransportSpec.
Import Strings StringFacts Transport.

(** *** The scenarios of [transport_test.cpp] *)

Module Scenarios.
Import Tests.

Example SetFeatures_test :
  let t1 := SetFeatures t0 (FeatureSetToString ["foo"]) in
  let t2 := SetFeatures t1 (FeatureSetToString ["foo"; "bar"]) in
  let t3 := SetFeatures t2 (FeatureSetToString ["foo"; "bar"; "foo"]) in
  let t4 := SetFeatures t3 (FeatureSetToString ["bar"; "baz"]) in
  let t5 := SetFeatures t4 "" in
  length (features t0) = 0 /\
  (length (features t1) = 1 /\ has_feature t1 "foo" = true) /\
  (length (features t2) = 2 /\ has_feature t2 "foo" = true /\ has_feature t2 "bar" = true) /\
  (2 <= length (features t3) /\ has_feature t3 "foo" = true /\ has_feature t3 "bar" = true) /\
  (length (features t4) = 2 /\ has_feature t4 "foo" = false /\
   has_feature t4 "bar" = true /\ has_feature t4 "baz" = true) /\
  length (features t5) = 0.
Proof. vm_compute. repeat split; lia. Qed.

Example RunDisconnects_test :
  let disconnect : adisconnect := 7 in
  let '(t1, c1) := RunDisconnects t0 [] in
  let '(t2, c2) := RunDisconnects (AddDisconnect t1 disconnect) c1 in
  let '(t3, c3) := RunDisconnects t2 c2 in
  let '(t4, c4) := RunDisconnects (RemoveDisconnect (AddDisconnect t3 disconnect) disconnect) [] in
  count disconnect c2 = 1 /\ count disconnect c3 = 1 /\ count disconnect c4 = 0.
Proof. vm_compute. repeat split. Qed.

Example parse_banner_no_features :
  let t := parse_banner "host::" t0 in
  length (features t) = 0 /\ GetConnectionState t = kCsHost /\
  product t = "" /\ model t = "" /\ device t = "".
Proof. vm_compute. repeat split. Qed.

Example parse_banner_product_features :
  let t := parse_banner
    "host::ro.product.name=foo;ro.product.model=bar;ro.product.device=baz;" t0 in
  GetConnectionState t = kCsHost /\ length (features t) = 0 /\
  product t = "foo" /\ model t = "bar" /\ device t = "baz".
Proof. vm_compute. repeat split. Qed.

Example parse_banner_features :
  let t := parse_banner
    "host::ro.product.name=foo;ro.product.model=bar;ro.product.device=baz;features=woodly,doodly" t0 in
  GetConnectionState t = kCsHost /\ length (features t) = 2 /\
  has_feature t "woodly" = true /\ has_feature t "doodly" = true /\
  product t = "foo" /\ model t = "bar" /\ device t = "baz".
Proof. vm_compute. repeat split. Qed.

Example test_matches_target :
  forall ty, ty = kTransportAny \/ ty = kTransportLocal ->
  let t := usb_device ty in
  MatchesTarget t "foo" = true /\ MatchesTarget t "/path/to/bar" = true /\
  MatchesTarget t "product:test_product" = true /\
  MatchesTarget t "model:test_model" = true /\
  MatchesTarget t "device:test_device" = true /\
  MatchesTarget t "test_product" = false /\ MatchesTarget t "test_model" = false /\
  MatchesTarget t "test_device" = false.
Proof. intros ty [-> | ->]; vm_compute; repeat split. Qed.

Example test_matches_target_local :
  forall ty, ty = kTransportAny \/ ty = kTransportLocal ->
  let t := tcp_device ty in
  let should_match := is_local t in
  MatchesTarget t "100.100.100.100" = should_match /\
  MatchesTarget t "tcp:100.100.100.100" = should_match /\
  MatchesTarget t "tcp:100.100.100.100:5555" = should_match /\
  MatchesTarget t "udp:100.100.100.100" = should_match /\
  MatchesTarget t "udp:100.100.100.100:5555" = should_match /\
  MatchesTarget t "100.100.100" = false /\
  MatchesTarget t "100.100.100.100:" = false /\
  MatchesTarget t "100.100.100.100:-1" = false /\
  MatchesTarget t "100.100.100.100:5554" = false /\
  MatchesTarget t "abc:100.100.100.100" = false.
Proof. intros ty [-> | ->]; vm_compute; repeat split. Qed.

End Scenarios.

(** *** Features *)

Lemma Join_nonempty (p : string) (rest : list string) (delim : ascii) :
  p <> "" -> Join (p :: rest) delim <> "".
Proof.
  destruct p as [|c p']; [congruence|]. intros _.
  destruct rest; simpl; discriminate.
Qed.

(** The string form of a list of feature tokens reads back as the list. *)
Lemma StringToFeatureSet_FeatureSetToString (toks : FeatureSet) :
  Forall feature_token toks ->
  StringToFeatureSet (FeatureSetToString toks) = toks.
Proof.
  intros Hall. unfold StringToFeatureSet, FeatureSetToString.
  destruct toks as [|tok rest]; [reflexivity|].
  assert (Hne : Join (tok :: rest) "," <> "").
  { apply Join_nonempty. inversion Hall as [|? ? [Htok _] _]. exact Htok. }
  apply String.eqb_neq in Hne. rewrite Hne.
  apply Split_Join; [discriminate|].
  eapply Forall_impl; [exact Hall|]. intros x [_ Hx]. exact Hx.
Qed.

Lemma Forall_remove_dups {A} `{EqDecision A} (P : A -> Prop) (l : list A) :
  Forall P l -> Forall P (remove_dups l).
Proof.
  rewrite !Forall_forall. intros Hall x Hx. apply Hall.
  apply elem_of_remove_dups. exact Hx.
Qed.

(** C1. After any sequence of [SetFeatures] calls the features of the
    transport are the tokens of the last argument alone: as a list, as a
    set and through [has_feature]; the earlier arguments leave no trace.
    For a list of feature tokens, [SetFeatures] of its string form stores
    these tokens, and the set is the same whether or not the duplicates
    are taken out of the list first. *)
Theorem SetFeatures_replaces (t : atransport) (Fs : list string) (Fn : string)
    (toks : FeatureSet) :
  Forall feature_token toks ->
  let t' := foldl SetFeatures t (Fs ++ [Fn]) in
  features t' = StringToFeatureSet Fn /\
  feature_set t' = list_to_set (StringToFeatureSet Fn) /\
  (forall f, has_feature t' f = true <-> f ∈ StringToFeatureSet Fn) /\
  features (SetFeatures t (FeatureSetToString toks)) = toks /\
  feature_set (SetFeatures t (FeatureSetToString toks)) =
    feature_set (SetFeatures t (FeatureSetToString (remove_dups toks))).
Proof.
  intros Htoks t'.
  assert (Hlast : features t' = StringToFeatureSet Fn).
  { unfold t'. rewrite foldl_snoc. reflexivity. }
  split; [exact Hlast|]. split; [unfold feature_set; rewrite Hlast; reflexivity|].
  split.
  { intros f. unfold has_feature. rewrite Hlast. apply bool_decide_eq_true. }
  assert (Hset : forall l, Forall feature_token l ->
            features (SetFeatures t (FeatureSetToString l)) = l).
  { intros l Hl. unfold SetFeatures, features. simpl.
    apply StringToFeatureSet_FeatureSetToString, Hl. }
  split; [apply Hset, Htoks|].
  unfold feature_set.
  rewrite (Hset _ Htoks), (Hset _ (Forall_remove_dups _ _ Htoks)).
  apply set_eq. intros f.
  rewrite !elem_of_list_to_set, elem_of_remove_dups. reflexivity.
Qed.

Lemma SetFeatures_replaces_witness :
  let t := SetFeatures Tests.t0 "foo" in
  let t' := foldl SetFeatures t (["foo,bar"; "foo,bar,foo"] ++ ["bar,baz"]) in
  features t' = ["bar"; "baz"] /\
  feature_set (SetFeatures t "foo,bar,foo") = feature_set (SetFeatures t "foo,bar").
Proof.
  assert (Htoks : Forall feature_token ["foo"; "bar"; "foo"]).
  { repeat constructor; discriminate. }
  pose proof (SetFeatures_replaces (SetFeatures Tests.t0 "foo")
                ["foo,bar"; "foo,bar,foo"] "bar,baz" ["foo"; "bar"; "foo"] Htoks)
    as (Hlast & _ & _ & _ & Hdedupe).
  split; [exact Hlast|exact Hdedupe].
Defined.

(** *** Disconnect hooks *)

Lemma count_app (d : adisconnect) (l k : list adisconnect) :
  count d (l ++ k) = count d l + count d k.
Proof. unfold count. rewrite filter_app, length_app. reflexivity. Qed.

Lemma count_not_in (d : adisconnect) (l : list adisconnect) :
  d ∉ l -> count d l = 0.
Proof.
  intros Hd. unfold count.
  induction l as [|e l IH]; [reflexivity|].
  apply not_elem_of_cons in Hd as [Hne Hl].
  rewrite filter_cons_False by congruence. apply IH, Hl.
Qed.

Lemma filter_ne_not_in (d : adisconnect) (l : list adisconnect) :
  d ∉ filter (fun e => e <> d) l.
Proof. rewrite list_elem_of_filter. tauto. Qed.

(** C2. [RunDisconnects] calls the registered hooks in registration
    order, each registration once, and leaves the list empty, so that a
    second run calls nothing. For a hook [H] that is not yet registered:
    after [AddDisconnect(H)] the first run calls [H] exactly once and
    removes it, the second run does not call it again; and after
    [AddDisconnect(H)] and [RemoveDisconnect(H)] a run does not call [H]
    at all. *)
Theorem RunDisconnects_fires_once (t : atransport) (H : adisconnect)
    (calls : list adisconnect) :
  H ∉ disconnects_ t ->
  let first := RunDisconnects (AddDisconnect t H) calls in
  let second := RunDisconnects first.1 first.2 in
  let removed := RunDisconnects (RemoveDisconnect (AddDisconnect t H) H) calls in
  first.2 = calls ++ disconnects_ t ++ [H] /\
  disconnects_ first.1 = [] /\
  count H first.2 = S (count H calls) /\
  second.2 = first.2 /\
  count H second.2 = S (count H calls) /\
  (H ∉ disconnects_ (RemoveDisconnect (AddDisconnect t H) H)) /\
  count H removed.2 = count H calls.
Proof.
  intros Hnew. simpl. rewrite app_nil_r.
  repeat split.
  - rewrite !count_app, (count_not_in _ _ Hnew). unfold count. simpl.
    rewrite filter_cons_True, filter_nil by reflexivity. simpl. lia.
  - rewrite !count_app, (count_not_in _ _ Hnew). unfold count. simpl.
    rewrite filter_cons_True, filter_nil by reflexivity. simpl. lia.
  - apply filter_ne_not_in.
  - rewrite count_app, (count_not_in H (filter _ _)); [lia|].
    apply filter_ne_not_in.
Qed.

Lemma RunDisconnects_fires_once_witness :
  let H : adisconnect := 7 in
  let first := RunDisconnects (AddDisconnect Tests.t0 H) [] in
  let second := RunDisconnects first.1 first.2 in
  let removed := RunDisconnects (RemoveDisconnect (AddDisconnect Tests.t0 H) H) [] in
  count H first.2 = 1 /\ count H second.2 = 1 /\ count H removed.2 = 0.
Proof.
  assert (Hnew : 7 ∉ disconnects_ Tests.t0) by (simpl; apply not_elem_of_nil).
  pose proof (RunDisconnects_fires_once Tests.t0 7 [] Hnew)
    as (_ & _ & Hfirst & _ & Hsecond & _ & Hremoved).
  split; [exact Hfirst|]. split; [exact Hsecond|exact Hremoved].
Defined.

(** *** Banner parsing *)









(** *** Target matching *)


Lemma MatchesTarget_bare (t : atransport) (q : string) :
  bare_query q -> MatchesTarget t q = matches_bare t q.
Proof.
  intros (Hp & Hm & Hd & Htcp & Hudp). unfold MatchesTarget.
  rewrite Hp, Hm, Hd, Htcp, Hudp. reflexivity.
Qed.





(** C6. A bare query (one without a prefix of the query grammar) that is
    the serial or the devpath of the transport matches; a query
    [product:X], [model:X] or [device:X] matches exactly when [X] is that
    attribute of the transport; and a bare query that is neither the
    serial nor the devpath nor, on a local transport, the host of the
    serial does not match, whether or not it is the product, the model or
    the device of the transport. *)
Theorem MatchesTarget_attributes (t : atransport) (q X : string) :
  bare_query q ->
  (q = serial t \/ q = devpath t -> MatchesTarget t q = true) /\
  (MatchesTarget t ("product:" +:+ X) = true <-> X = product t) /\
  (MatchesTarget t ("model:" +:+ X) = true <-> X = model t) /\
  (MatchesTarget t ("device:" +:+ X) = true <-> X = device t) /\
  (q <> serial t -> q <> devpath t ->
   (forall host port, is_local t = true -> serial_host_port t = Some (host, port) ->
      q <> host) ->
   MatchesTarget t q = false).
Proof.
  intros Hbare. rewrite (MatchesTarget_bare _ _ Hbare). unfold matches_bare.
  split.
  { intros [-> | ->]; rewrite String.eqb_refl; [reflexivity|].
    rewrite orb_true_r. reflexivity. }
  split; [apply String.eqb_eq|]. split; [apply String.eqb_eq|].
  split; [apply String.eqb_eq|].
  intros Hs Hd Hhost.
  apply String.eqb_neq in Hs, Hd. rewrite Hs, Hd. simpl.
  destruct (is_local t); [|reflexivity].
  destruct (serial_host_port t) as [[host port]|]; [|reflexivity].
  simpl. apply String.eqb_neq. eapply Hhost; reflexivity.
Qed.

Lemma MatchesTarget_attributes_witness :
  let t := Tests.usb_device kTransportLocal in
  MatchesTarget t "foo" = true /\
  MatchesTarget t "product:test_product" = true /\
  MatchesTarget t "test_product" = false.
Proof.
  assert (Hfoo : bare_query "foo") by (repeat split).
  assert (Hproduct : bare_query "test_product") by (repeat split).
  split.
  { apply (MatchesTarget_attributes (Tests.usb_device kTransportLocal) "foo" "" Hfoo).
    left. reflexivity. }
  pose proof (MatchesTarget_attributes (Tests.usb_device kTransportLocal)
                "test_product" "test_product" Hproduct) as (_ & Hp & _ & _ & Hno).
  split; [apply Hp; reflexivity|].
  apply Hno; [discriminate..|]. intros host port _ Hsplit. discriminate Hsplit.
Defined.

End TransportSpec.

(** ** The service sockets *)

Module ServiceSpec.
Import Strings StringFacts Services.
Local Open Scope Z_scope.

(** *** Reading a computation backwards *)

Lemma bind_Done {A B} (m : M A) (k : A -> M B) (w w'' : World) (b : B) :
  bind m k w = Done b w'' -> exists a w', m w = Done a w' /\ k a w' = Done b w''.
Proof. unfold bind. destruct (m w) as [a w'| | |]; try discriminate. eauto. Qed.

Lemma ret_Done {A} (a b : A) (w w' : World) : ret a w = Done b w' -> b = a /\ w' = w.
Proof. intros [= -> ->]. auto. Qed.

Lemma deref_Done (s : ptr) (w w' : World) (x : asocket) :
  deref s w = Done x w' -> sockets w !! s = Some x /\ w' = w.
Proof.
  unfold deref. destruct (sockets w !! s); [|discriminate]. intros [= -> ->]. auto.
Qed.

Lemma deref_opt_Done (o : option ptr) (w w' : World) (x : asocket) :
  deref_opt o w = Done x w' -> exists s, o = Some s /\ sockets w !! s = Some x /\ w' = w.
Proof.
  destruct o as [s|]; [|discriminate]. intros H%deref_Done. exists s. tauto.
Qed.

Lemma store_Done (s : ptr) (x : asocket) (w w' : World) (u : unit) :
  store s x w = Done u w' ->
  is_Some (sockets w !! s) /\ w' = set_sockets w (<[s := x]> (sockets w)).
Proof.
  unfold store. destruct (sockets w !! s); [|discriminate]. intros [= _ <-]. eauto.
Qed.

Lemma free_Done (s : ptr) (w w' : World) (u : unit) :
  free s w = Done u w' ->
  is_Some (sockets w !! s) /\ w' = set_sockets w (delete s (sockets w)).
Proof.
  unfold free. destruct (sockets w !! s); [|discriminate]. intros [= _ <-]. eauto.
Qed.

Lemma emit_Done (e : event) (w w' : World) (u : unit) :
  emit e w = Done u w' -> w' = set_trace w (trace w ++ [e]).
Proof. intros [= _ <-]. reflexivity. Qed.

Lemma remove_socket_Done (s : ptr) (w w' : World) (u : unit) :
  remove_socket s w = Done u w' -> sockets w' = sockets w /\ trace w' = trace w.
Proof. intros [= _ <-]. auto. Qed.

(** Takes apart the hypotheses that say that a computation returned. *)
Ltac minv :=
  repeat match goal with
  | H : bind _ _ _ = Done _ _ |- _ =>
      let a := fresh "a" in let w := fresh "w" in let Hm := fresh "Hm" in
      apply bind_Done in H as (a & w & Hm & H); cbv beta in H
  | H : ret _ _ = Done _ _ |- _ => apply ret_Done in H as [? ?]; subst
  | H : deref _ _ = Done _ _ |- _ =>
      let Hl := fresh "Hl" in apply deref_Done in H as [Hl ?]; subst
  | H : deref_opt _ _ = Done _ _ |- _ =>
      let Hl := fresh "Hl" in let Hp := fresh "Hp" in
      apply deref_opt_Done in H as (? & Hp & Hl & ?); subst
  | H : store _ _ _ = Done _ _ |- _ =>
      let Hl := fresh "Hl" in apply store_Done in H as [Hl ?]; subst
  | H : free _ _ = Done _ _ |- _ =>
      let Hl := fresh "Hl" in apply free_Done in H as [Hl ?]; subst
  | H : emit _ _ = Done _ _ |- _ => apply emit_Done in H; subst
  | H : send_packet _ _ _ = Done _ _ |- _ => unfold send_packet in H
  | H : send_ready _ _ _ _ _ = Done _ _ |- _ => unfold send_ready in H
  | H : send_close _ _ _ _ = Done _ _ |- _ => unfold send_close in H
  | H : void _ _ = Done _ _ |- _ => unfold void in H
  | H : Fault = Done _ _ |- _ => discriminate H
  | H : (fun _ => Fault) _ = Done _ _ |- _ => discriminate H
  | H : (match ?x with _ => _ end) _ = Done _ _ |- _ => destruct x eqn:?
  | H : (if ?b then _ else _) _ = Done _ _ |- _ => destruct b eqn:?
  end.

(** *** Running a computation forwards *)

Ltac exec_step :=
  first
  [ progress unfold methods, void, ServiceSocket_enqueue, Enqueue, Ready,
      SinkSocket_Enqueue, ServiceSocket_Enqueue, ServiceSocket_Ready,
      ServiceSocket_Close, SourceSocket_Ready, remote_socket_enqueue,
      remote_socket_ready, remote_socket_shutdown, remote_socket_close,
      remote_socket_send_close, local_socket_enqueue, local_socket_close,
      send_ready, send_close, send_packet,
      bind, ret, deref, deref_opt, store, free, emit, remove_socket
  | progress cbn [call sockets trace local_socket_list local_socket_next_id
                  set_sockets set_trace set_peer set_kind set_id
                  id peer transport shutdown kind]
  | rewrite lookup_insert_eq
  | rewrite lookup_insert_ne by congruence
  | rewrite lookup_delete_ne by congruence
  | match goal with
    | H : sockets ?w !! ?s = Some _ |- context [sockets ?w !! ?s] => rewrite H
    | H : kind ?x = _ |- context [kind ?x] => rewrite H
    | H : peer ?x = _ |- context [peer ?x] => rewrite H
    | H : shutdown ?x = _ |- context [shutdown ?x] => rewrite H
    end ].

Ltac exec := repeat exec_step.

(** *** The pairing *)

Lemma paired_symmetric (w : World) : paired w <-> symmetric (peers w).
Proof.
  unfold paired, symmetric, peers. split.
  - intros H s p. rewrite !lookup_fmap. intros Hs.
    destruct (sockets w !! s) as [x|] eqn:Hx; [|discriminate].
    injection Hs as Hs. destruct (H _ _ _ Hx Hs) as (y & Hy & Hpy).
    rewrite Hy. simpl. rewrite Hpy. reflexivity.
  - intros H s x p Hx Hp. specialize (H s p). rewrite !lookup_fmap, Hx in H.
    simpl in H. rewrite Hp in H. specialize (H eq_refl).
    destruct (sockets w !! p) as [y|]; [|discriminate].
    injection H as H. eauto.
Qed.

Lemma peers_lookup (w : World) (s : ptr) (x : asocket) :
  sockets w !! s = Some x -> peers w !! s = Some (peer x).
Proof. intros H. unfold peers. rewrite lookup_fmap, H. reflexivity. Qed.

Lemma peers_lookup_inv (w : World) (s : ptr) (o : option ptr) :
  peers w !! s = Some o -> exists x, sockets w !! s = Some x /\ peer x = o.
Proof.
  unfold peers. rewrite lookup_fmap.
  destruct (sockets w !! s) as [x|]; [|discriminate]. intros [= <-]. eauto.
Qed.

Lemma peers_set_trace (w : World) (tr : list event) : peers (set_trace w tr) = peers w.
Proof. reflexivity. Qed.

Lemma peers_store_kind (w : World) (s : ptr) (x : asocket) (k : socket_kind) :
  sockets w !! s = Some x ->
  peer <$> <[s := set_kind x k]> (sockets w) = peers w.
Proof.
  intros H. unfold peers. rewrite fmap_insert. apply insert_id.
  rewrite lookup_fmap, H. reflexivity.
Qed.

Lemma peers_store_peer (w : World) (s : ptr) (x : asocket) (o : option ptr) :
  peers (set_sockets w (<[s := set_peer x o]> (sockets w))) = <[s := o]> (peers w).
Proof. unfold peers. cbn [sockets set_sockets]. rewrite fmap_insert. reflexivity. Qed.

Lemma peers_free (w : World) (s : ptr) :
  peers (set_sockets w (delete s (sockets w))) = delete s (peers w).
Proof. unfold peers. cbn [sockets set_sockets]. rewrite fmap_delete. reflexivity. Qed.

Lemma peers_remove_socket (s : ptr) (w w' : World) (u : unit) :
  remove_socket s w = Done u w' -> peers w' = peers w.
Proof. intros [Hs _]%remove_socket_Done. unfold peers. rewrite Hs. reflexivity. Qed.

Lemma remote_socket_send_close_peers (s : ptr) (w w' : World) (u : unit) :
  remote_socket_send_close s w = Done u w' -> peers w' = peers w.
Proof.
  unfold remote_socket_send_close. intros H. minv; try reflexivity.
  all: unfold peers; cbn [sockets set_sockets set_trace].
  all: eapply peers_store_kind; eassumption.
Qed.

(** A shutdown leaves the pairing alone. *)
Lemma call_do_shutdown_peers (fuel : nat) (s : ptr) (w w' : World) (r : Z) :
  call fuel do_shutdown s w = Done r w' -> peers w' = peers w.
Proof.
  destruct fuel as [|fuel]; [discriminate|]. cbn [call]. unfold methods. intros H.
  minv; try discriminate.
  unfold remote_socket_shutdown in *. minv.
  eapply remote_socket_send_close_peers; eassumption.
Qed.

(** Closing a socket without a peer takes this socket away and nothing
    else; no call is made through another socket. *)
Lemma call_close_unpaired (fuel : nat) (s : ptr) (w w' : World) (x : asocket) (r : Z) :
  sockets w !! s = Some x -> peer x = None ->
  call (S fuel) close s w = Done r w' -> peers w' = delete s (peers w).
Proof.
  intros Hs Hp. cbn [call]. unfold methods. intros H.
  minv; simplify_eq.
  all: unfold ServiceSocket_Close, remote_socket_close, local_socket_close,
         remote_socket_send_close in *.
  all: minv; simplify_eq.
  all: repeat match goal with
       | H : remove_socket _ _ = Done _ _ |- _ => apply remove_socket_Done in H as [? ?]
       end.
  all: unfold peers in *; cbn [sockets set_sockets set_trace] in *.
  all: repeat match goal with H : sockets _ = _ |- _ => rewrite H in * end.
  all: rewrite ?fmap_delete, ?fmap_insert, ?delete_insert_eq; try reflexivity.
Qed.

(** The peer lost its back-pointer, was perhaps shut down, and was
    closed: it is gone, and nothing else changed. *)
Lemma cascade_peers (fuel : nat) (p : ptr) (y : asocket) (w w2 w3 : World) (r : Z) :
  sockets w !! p = Some y ->
  peers w2 = peers (set_sockets w (<[p := set_peer y None]> (sockets w))) ->
  call fuel close p w2 = Done r w3 ->
  peers w3 = delete p (peers w).
Proof.
  intros Hp H2 Hclose. rewrite peers_store_peer in H2.
  destruct fuel as [|fuel]; [discriminate|].
  destruct (peers_lookup_inv w2 p None) as (y2 & Hy2 & Hpeer).
  { rewrite H2. apply lookup_insert_eq. }
  rewrite (call_close_unpaired _ _ _ _ _ _ Hy2 Hpeer Hclose), H2.
  apply delete_insert_eq.
Qed.

Ltac cascade :=
  match goal with
  | Hy : sockets ?w !! ?p = Some ?y, Hc : call _ close ?p ?w2 = Done _ ?w3 |- _ =>
      let Hpeers := fresh "Hpeers" in
      assert (Hpeers : peers w3 = delete p (peers w)) by
        (eapply (cascade_peers _ p y w w2 w3); [exact Hy| |exact Hc];
         first [reflexivity | eapply call_do_shutdown_peers; eassumption]);
      clear Hc
  end.

Ltac peers_tail :=
  repeat match goal with
  | H : remove_socket _ _ = Done _ _ |- _ => apply peers_remove_socket in H
  | H : remote_socket_send_close _ _ = Done _ _ |- _ =>
      apply remote_socket_send_close_peers in H
  end;
  repeat first
    [ rewrite peers_free
    | rewrite peers_set_trace
    | match goal with H : peers _ = _ |- _ => rewrite H end ].

Ltac close_step :=
  match goal with
  | Hs : sockets ?w !! ?s = Some ?x, Hp : peer ?x = Some ?p
    |- peers_step (peers ?w) _ =>
      apply (step_close_pair _ _ s p);
      [rewrite (peers_lookup _ _ _ Hs), Hp; reflexivity|]
  | Hs : sockets ?w !! ?s = Some ?x, Hp : peer ?x = None
    |- peers_step (peers ?w) _ =>
      apply (step_close_single _ _ s);
      [rewrite (peers_lookup _ _ _ Hs), Hp; reflexivity|]
  end.

Lemma ServiceSocket_Close_step (fuel : nat) (s : ptr) (w w' : World) (u : unit) :
  ServiceSocket_Close (call fuel) s w = Done u w' -> peers_step (peers w) (peers w').
Proof.
  unfold ServiceSocket_Close. intros H. minv.
  1,2: cascade.
  all: close_step; peers_tail; reflexivity.
Qed.

Lemma remote_socket_close_step (fuel : nat) (s : ptr) (w w' : World) (u : unit) :
  remote_socket_close (call fuel) s w = Done u w' -> peers_step (peers w) (peers w').
Proof.
  unfold remote_socket_close. intros H. minv.
  1: cascade.
  all: close_step; peers_tail; reflexivity.
Qed.

Lemma local_socket_close_step (fuel : nat) (s : ptr) (w w' : World) (u : unit) :
  local_socket_close (call fuel) s w = Done u w' -> peers_step (peers w) (peers w').
Proof.
  unfold local_socket_close. intros H. minv.
  all: try cascade.
  all: close_step; peers_tail; reflexivity.
Qed.

(** What a call through a function pointer makes of the pairing: closes,
    one after the other. *)
Lemma call_peers (fuel : nat) (o : op) (s : ptr) (w w' : World) (r : Z) :
  call fuel o s w = Done r w' -> rtc peers_step (peers w) (peers w').
Proof.
  revert o s w r w'. induction fuel as [|fuel IH]; intros o s w r w'; [discriminate|].
  cbn [call]. unfold methods. intros H. minv.
  all: unfold ServiceSocket_enqueue, Enqueue, Ready, remote_socket_enqueue,
         remote_socket_ready, remote_socket_shutdown, local_socket_enqueue,
         ServiceSocket_Enqueue, ServiceSocket_Ready in *.
  all: minv.
  all: unfold SinkSocket_Enqueue, SourceSocket_Ready in *.
  all: minv.
  all: try match goal with
       | H : ServiceSocket_Close _ _ _ = Done _ _ |- _ =>
           apply ServiceSocket_Close_step in H
       | H : remote_socket_close _ _ _ = Done _ _ |- _ =>
           apply remote_socket_close_step in H
       | H : local_socket_close _ _ _ = Done _ _ |- _ =>
           apply local_socket_close_step in H
       | H : remote_socket_send_close _ _ = Done _ _ |- _ =>
           apply remote_socket_send_close_peers in H
       | H : call _ _ _ _ = Done _ _ |- _ => apply IH in H
       end.
  all: unfold peers in *; cbn [sockets set_trace set_sockets] in *.
  all: try (erewrite peers_store_kind by eassumption; unfold peers).
  all: try (apply rtc_once; assumption).
  all: try (apply rtc_refl).
  all: try assumption.
  all: try (match goal with H : _ <$> _ = _ <$> _ |- _ => rewrite H end; apply rtc_refl).
Qed.

Lemma symmetric_step (m m' : gmap ptr (option ptr)) :
  peers_step m m' -> symmetric m -> symmetric m'.
Proof.
  intros [->|s Hs ->|s p Hs ->] Hsym; [exact Hsym| |].
  - intros a q Ha.
    apply lookup_delete_Some in Ha as [Hne Ha].
    pose proof (Hsym _ _ Ha) as Hq.
    rewrite lookup_delete_ne; [exact Hq|]. intros ->. congruence.
  - intros a q Ha.
    apply lookup_delete_Some in Ha as [Hne Ha].
    apply lookup_delete_Some in Ha as [Hne' Ha].
    pose proof (Hsym _ _ Ha) as Hq. pose proof (Hsym _ _ Hs) as Hp.
    rewrite !lookup_delete_ne; [exact Hq| |]; intros ->; congruence.
Qed.

Lemma call_paired (fuel : nat) (o : op) (s : ptr) (w w' : World) (r : Z) :
  paired w -> call fuel o s w = Done r w' -> paired w'.
Proof.
  rewrite !paired_symmetric. intros Hsym Hcall.
  apply call_peers in Hcall. induction Hcall as [|m1 m2 m3 Hstep _ IH]; [exact Hsym|].
  apply IH. eapply symmetric_step; eassumption.
Qed.

(** *** Fuel *)

Lemma agrees_refl {A} (m : M A) : agrees m m.
Proof. intros w _. reflexivity. Qed.

Lemma agrees_bind {A B} (m1 m2 : M A) (k1 k2 : A -> M B) :
  agrees m1 m2 -> (forall a, agrees (k1 a) (k2 a)) -> agrees (bind m1 k1) (bind m2 k2).
Proof.
  intros Hm Hk w. unfold bind. specialize (Hm w).
  destruct (m1 w) as [a w1| | |]; intros H.
  - rewrite Hm by discriminate. apply Hk, H.
  - rewrite Hm by discriminate. reflexivity.
  - rewrite Hm by discriminate. reflexivity.
  - congruence.
Qed.

Ltac agrees_tac Hrec :=
  repeat first
    [ apply agrees_refl
    | apply Hrec
    | apply agrees_bind; [|intros ?]
    | match goal with
      | |- agrees (match ?x with _ => _ end) _ => destruct x
      | |- agrees (if ?b then _ else _) _ => destruct b
      end ].

Lemma methods_agrees (rec1 rec2 : op -> ptr -> M Z) :
  (forall o s, agrees (rec1 o s) (rec2 o s)) ->
  forall o s, agrees (methods rec1 o s) (methods rec2 o s).
Proof.
  intros Hrec o s.
  unfold methods, void, ServiceSocket_enqueue, Enqueue, Ready,
      SinkSocket_Enqueue, ServiceSocket_Enqueue, ServiceSocket_Ready,
      ServiceSocket_Close, SourceSocket_Ready, remote_socket_enqueue,
      remote_socket_ready, remote_socket_shutdown, remote_socket_close,
      remote_socket_send_close, local_socket_enqueue, local_socket_close.
  agrees_tac Hrec.
Qed.

Lemma call_fuel_S (fuel : nat) (o : op) (s : ptr) : agrees (call fuel o s) (call (S fuel) o s).
Proof.
  revert o s. induction fuel as [|fuel IH]; intros o s.
  - intros w H. exfalso. apply H. reflexivity.
  - change (agrees (methods (call fuel) o s) (methods (call (S fuel)) o s)).
    apply methods_agrees, IH.
Qed.

(** More fuel does not change what a call returns. *)
Lemma call_fuel_mono (fuel fuel' : nat) (o : op) (s : ptr) (w : World) :
  (fuel <= fuel')%nat -> call fuel o s w <> OutOfFuel ->
  call fuel' o s w = call fuel o s w.
Proof.
  induction 1 as [|fuel' _ IH]; [reflexivity|]. intros H.
  rewrite <- (IH H). apply call_fuel_S. rewrite (IH H). exact H.
Qed.

Lemma bind_fuel {A B} (m : M A) (k : A -> M B) (w : World) :
  m w <> OutOfFuel -> (forall a w', m w = Done a w' -> k a w' <> OutOfFuel) ->
  bind m k w <> OutOfFuel.
Proof.
  unfold bind. destruct (m w) as [a w'| | |]; intros Hm Hk; try discriminate.
  - apply Hk. reflexivity.
  - congruence.
Qed.

Ltac prim :=
  unfold void, send_ready, send_close, send_packet, ret, deref_opt,
    deref, store, free, emit, remove_socket;
  cbv beta; repeat case_match; discriminate.

(** A computation without calls through function pointers. *)
Ltac no_calls :=
  repeat lazymatch goal with
  | |- void _ _ <> OutOfFuel => unfold void
  | |- bind _ _ _ <> OutOfFuel => apply bind_fuel; [|intros ? ? ?]
  | |- (match ?x with _ => _ end) _ <> OutOfFuel => destruct x eqn:?
  | |- (if ?b then _ else _) _ <> OutOfFuel => destruct b eqn:?
  | |- _ => prim
  end.

Lemma call_do_shutdown_fuel (fuel : nat) (s : ptr) (w : World) :
  call (S fuel) do_shutdown s w <> OutOfFuel.
Proof.
  cbn [call]. unfold methods, remote_socket_shutdown, remote_socket_send_close. no_calls.
Qed.

Lemma call_close_unpaired_fuel (fuel : nat) (s : ptr) (w : World) :
  (forall x, sockets w !! s = Some x -> peer x = None) ->
  call (S fuel) close s w <> OutOfFuel.
Proof.
  intros Hpeer. cbn [call]. unfold methods.
  apply bind_fuel; [prim|]. intros x w' [Hs ->]%deref_Done.
  specialize (Hpeer x Hs).
  destruct (kind x);
    unfold void, ServiceSocket_Close, remote_socket_close, local_socket_close,
      remote_socket_send_close.
  all: apply bind_fuel; [|intros; discriminate].
  all: apply bind_fuel; [prim|]; intros x' w' [Hs' ->]%deref_Done.
  all: assert (x' = x) as -> by congruence; rewrite Hpeer.
  all: no_calls.
Qed.

Lemma unpaired_of_peers (p : ptr) (y : asocket) (w w2 : World) :
  peers w2 = peers (set_sockets w (<[p := set_peer y None]> (sockets w))) ->
  forall x, sockets w2 !! p = Some x -> peer x = None.
Proof.
  intros Hpeers x Hx. rewrite peers_store_peer in Hpeers.
  apply peers_lookup in Hx. rewrite Hpeers, lookup_insert_eq in Hx. congruence.
Qed.

Ltac fuel_step :=
  lazymatch goal with
  | |- call _ do_shutdown _ _ <> OutOfFuel => apply call_do_shutdown_fuel
  | |- call _ close _ _ <> OutOfFuel =>
      minv; eapply call_close_unpaired_fuel, unpaired_of_peers;
      first [reflexivity | eapply call_do_shutdown_peers; eassumption]
  | |- call _ _ _ _ <> OutOfFuel => fail
  | |- void _ _ <> OutOfFuel => unfold void
  | |- bind _ _ _ <> OutOfFuel => apply bind_fuel; [|intros ? ? ?]
  | |- (match ?x with _ => _ end) _ <> OutOfFuel => destruct x eqn:?
  | |- (if ?b then _ else _) _ <> OutOfFuel => destruct b eqn:?
  | |- _ => prim
  end.

Ltac fuel_tac := repeat fuel_step.

Lemma ServiceSocket_Close_fuel (fuel : nat) (s : ptr) (w : World) :
  ServiceSocket_Close (call (S fuel)) s w <> OutOfFuel.
Proof. unfold ServiceSocket_Close. fuel_tac. Qed.

Lemma remote_socket_close_fuel (fuel : nat) (s : ptr) (w : World) :
  remote_socket_close (call (S fuel)) s w <> OutOfFuel.
Proof. unfold remote_socket_close, remote_socket_send_close. fuel_tac. Qed.

Lemma local_socket_close_fuel (fuel : nat) (s : ptr) (w : World) :
  local_socket_close (call (S fuel)) s w <> OutOfFuel.
Proof. unfold local_socket_close. fuel_tac. Qed.

Lemma call_close_fuel (fuel : nat) (s : ptr) (w : World) :
  call (S (S fuel)) close s w <> OutOfFuel.
Proof.
  change (methods (call (S fuel)) close s w <> OutOfFuel). unfold methods.
  apply bind_fuel; [prim|]. intros x w' _.
  destruct (kind x); unfold void; (apply bind_fuel; [|intros; discriminate]).
  1-3: apply ServiceSocket_Close_fuel.
  - apply remote_socket_close_fuel.
  - apply local_socket_close_fuel.
Qed.

Lemma call_enqueue_fuel (fuel : nat) (data : payload_type) (s : ptr) (w : World) :
  call (S (S fuel)) (enqueue data) s w <> OutOfFuel.
Proof.
  change (methods (call (S fuel)) (enqueue data) s w <> OutOfFuel). unfold methods.
  apply bind_fuel; [prim|]. intros x w' _.
  destruct (kind x);
    unfold ServiceSocket_enqueue, Enqueue, SinkSocket_Enqueue, ServiceSocket_Enqueue,
      remote_socket_enqueue, local_socket_enqueue.
  all: repeat first [ apply ServiceSocket_Close_fuel | fuel_step ].
Qed.

(** Three levels of nesting are all that a call needs: a [ready] that
    enqueues to a peer that closes its own peer. *)
Theorem call_fuel_enough (fuel : nat) (o : op) (s : ptr) (w : World) :
  call (S (S (S fuel))) o s w <> OutOfFuel.
Proof.
  destruct o as [data| | |].
  - apply call_enqueue_fuel.
  - change (methods (call (S (S fuel))) ready s w <> OutOfFuel). unfold methods.
    apply bind_fuel; [prim|]. intros x w' _.
    destruct (kind x);
      unfold void, Ready, SourceSocket_Ready, ServiceSocket_Ready, remote_socket_ready.
    all: repeat first
           [ apply ServiceSocket_Close_fuel | apply call_enqueue_fuel | fuel_step ].
  - apply call_close_fuel.
  - apply call_do_shutdown_fuel.
Qed.

(** *** Sizes *)

(** No wrap-around when the subtrahend is the smaller. *)
Lemma size_sub_exact (a b : Z) : 0 <= b <= a -> a <= SIZE_MAX -> size_sub a b = a - b.
Proof. intros Hb Ha. unfold size_sub, SIZE_MAX in *. apply Z.mod_small. lia. Qed.

Lemma size_nonneg (data : payload_type) : 0 <= size data.
Proof. unfold size. lia. Qed.

(** *** Closing a service socket whose peer is a remote socket *)

(** The service socket and the remote socket are gone, and the remote
    socket's CLSE went out, once: from its shutdown when it has one, from
    its close when not, and not at all when it went out before. *)
Lemma ServiceSocket_Close_remote fuel w s p x y c :
  sockets w !! s = Some x -> peer x = Some p -> s <> p ->
  sockets w !! p = Some y -> kind y = RemoteSocket c ->
  ServiceSocket_Close (call (S fuel)) s w =
    Done tt (closed_pair w s p
               (if c then []
                else [Sent (Transport.id (transport y)) (mk_apacket A_CLSE 0 (id y) [])])).
Proof.
  intros Hs Hp Hne Hy Hk.
  destruct (shutdown y) eqn:Hsh; destruct c; exec.
  all: unfold closed_pair, set_sockets; cbn.
  all: rewrite ?delete_insert_eq, ?app_nil_r; reflexivity.
Qed.

(** *** Effects are only added *)

Lemma extends_refl w : extends w w.
Proof. exists []. rewrite app_nil_r. reflexivity. Qed.

Lemma extends_trans w1 w2 w3 : extends w1 w2 -> extends w2 w3 -> extends w1 w3.
Proof. intros [r1 H1] [r2 H2]. exists (r1 ++ r2). rewrite H2, H1, app_assoc. reflexivity. Qed.

Ltac extends_tac :=
  repeat match goal with
  | H : remove_socket _ _ = Done _ _ |- _ => apply remove_socket_Done in H as [_ H]
  | H : extends _ _ |- _ => destruct H as [? H]
  end;
  unfold extends; cbn [trace set_trace set_sockets] in *;
  repeat match goal with
  | H : trace ?w = _ |- _ => rewrite H; clear H
  end;
  rewrite <- ?app_assoc;
  first [exists []; rewrite app_nil_r; reflexivity | eexists; reflexivity].

Lemma call_extends fuel o s w r w' : call fuel o s w = Done r w' -> extends w w'.
Proof.
  revert o s w r w'. induction fuel as [|fuel IH]; intros o s w r w'; [discriminate|].
  cbn [call]. unfold methods. intros H. minv.
  all: unfold ServiceSocket_enqueue, Enqueue, Ready, remote_socket_enqueue,
         remote_socket_ready, remote_socket_shutdown, local_socket_enqueue,
         ServiceSocket_Enqueue, ServiceSocket_Ready,
         ServiceSocket_Close, remote_socket_close, local_socket_close in *.
  all: minv.
  all: unfold SinkSocket_Enqueue, SourceSocket_Ready, remote_socket_send_close in *.
  all: minv.
  all: unfold ServiceSocket_Close in *.
  all: minv.
  all: repeat match goal with
       | H : call _ _ _ _ = Done _ _ |- _ => apply IH in H
       end.
  all: extends_tac.
Qed.

(** *** Constructors and the dispatcher *)

(** With a transport, the constructor returns: a new socket at a fresh
    address, with the next local id, no peer and no shutdown callback. *)
Lemma new_ServiceSocket_Done (k : socket_kind) (t : Transport.atransport) (w : World) :
  let a := fresh (dom (sockets w)) in
  new_ServiceSocket k (Some t) w =
    Done a (mk_World (<[a := mk_asocket (local_socket_next_id w) None t false k]> (sockets w))
              (local_socket_list w ++ [a]) (N.succ (local_socket_next_id w)) (trace w)).
Proof.
  intros a. unfold new_ServiceSocket, alloc, install_local_socket. exec.
  fold a. exec. unfold set_sockets. cbn. rewrite insert_insert_eq. reflexivity.
Qed.

Lemma fresh_lookup (w : World) : sockets w !! fresh (dom (sockets w)) = None.
Proof. apply not_elem_of_dom, is_fresh. Qed.

Lemma parse_digits_range (max : Z) (str : string) (value n : Z) :
  0 <= value <= max -> parse_digits max str value = Some n -> 0 <= n <= max.
Proof.
  revert value. induction str as [|c rest IH]; intros value Hvalue; simpl.
  - intros [= <-]. exact Hvalue.
  - unfold digit. destruct (_ && _) eqn:Hd; [|discriminate].
    apply andb_true_iff in Hd as [Hlo Hhi].
    destruct (Z.gtb_spec value (max / 10)); [discriminate|].
    destruct (Z.gtb_spec (value * 10) (max - (Z.of_N (N_of_ascii c) - 48))); [discriminate|].
    apply IH. lia.
Qed.

Lemma ParseUint_range (max : Z) (str : string) (n : Z) :
  0 <= max -> ParseUint max str = Some n -> 0 <= n <= max.
Proof.
  intros Hmax. unfold ParseUint. destruct str; [discriminate|].
  apply parse_digits_range. lia.
Qed.

(** C3. Opening [sink:<n>] makes a sink socket with [n] bytes left. A
    sink socket with [bytes_left] bytes left, paired with the remote
    socket of the peer's stream: a write of fewer than [bytes_left] bytes
    is accepted ([enqueue] returns 0), an OKAY goes back and the bytes
    left go down by the size of the write; a write of [bytes_left] bytes
    or more closes the socket ([enqueue] returns -1): after the OKAY the
    peer gets a CLSE, and both sockets are gone. *)
Theorem SinkSocket_flow_control (jdwp tracker app : M (option ptr))
    (t : Transport.atransport) (digits : string) (n : Z)
    (w : World) (s p : ptr) (x y : asocket) (bytes_left : Z)
    (data : payload_type) (fuel : nat) :
  ParseUint UINT64_MAX digits = Some n ->
  sockets w !! s = Some x -> kind x = SinkSocket bytes_left ->
  0 <= bytes_left <= SIZE_MAX ->
  peer x = Some p -> sockets w !! p = Some y -> kind y = RemoteSocket false ->
  let okay := Sent (Transport.id (transport x)) (mk_apacket A_OKAY (id x) (id y) []) in
  let clse := Sent (Transport.id (transport y)) (mk_apacket A_CLSE 0 (id y) []) in
  (exists a w1,
     daemon_service_to_socket jdwp tracker app ("sink:" +:+ digits) (Some t) w =
       Done (Some a) w1 /\
     sockets w1 !! a =
       Some (mk_asocket (local_socket_next_id w) None t false (SinkSocket n)) /\
     0 <= n <= SIZE_MAX) /\
  (size data < bytes_left ->
   call (S fuel) (enqueue data) s w =
     Done 0 (mk_World (<[s := set_kind x (SinkSocket (bytes_left - size data))]> (sockets w))
               (local_socket_list w) (local_socket_next_id w) (trace w ++ [okay]))) /\
  (bytes_left <= size data ->
   call (S (S fuel)) (enqueue data) s w = Done (-1) (closed_pair w s p [okay; clse])).
Proof.
  intros Hparse Hs Hk Hrange Hp Hy Hky okay clse.
  assert (Hne : s <> p).
  { intros ->. rewrite Hs in Hy. injection Hy as ->. congruence. }
  split; [|split].
  - unfold daemon_service_to_socket.
    change (String.eqb ("sink:" +:+ digits) "jdwp") with false.
    change (String.eqb ("sink:" +:+ digits) "track-jdwp") with false.
    change (String.eqb ("sink:" +:+ digits) "track-app") with false.
    cbv iota. rewrite ConsumePrefix_app, Hparse.
    unfold new_SinkSocket, bind. rewrite new_ServiceSocket_Done. unfold ret.
    eexists _, _. split; [reflexivity|]. cbn [sockets].
    split; [apply lookup_insert_eq|].
    apply (ParseUint_range UINT64_MAX digits); [unfold UINT64_MAX; lia|exact Hparse].
  - intros Hlt. exec.
    destruct (Z.leb_spec bytes_left (size data)); [lia|]. exec.
    unfold set_sockets. cbn.
    rewrite size_sub_exact by (pose proof (size_nonneg data); lia). reflexivity.
  - intros Hle.
    change (call (S (S fuel)) (enqueue data) s w)
      with (methods (call (S fuel)) (enqueue data) s w).
    unfold methods, bind, deref. rewrite Hs, Hk.
    unfold ServiceSocket_enqueue, bind, deref, deref_opt. rewrite Hs, Hp. unfold deref. rewrite Hy.
    unfold send_ready, send_packet, emit, Enqueue, bind, deref.
    cbn [sockets set_trace]. rewrite Hs, Hk.
    unfold SinkSocket_Enqueue, bind, deref. cbn [sockets set_trace]. rewrite Hs, Hk.
    destruct (Z.leb_spec bytes_left (size data)); [|lia].
    erewrite (ServiceSocket_Close_remote fuel _ s p x y false); [|exact Hs|exact Hp|exact Hne|exact Hy|exact Hky].
    unfold ret, closed_pair. cbn. rewrite <- app_assoc. reflexivity.
Qed.

Lemma SinkSocket_flow_control_witness :
  let w := Tests.opened (SinkSocket 1000) in
  let okay := Sent 0 (mk_apacket A_OKAY 1 77 []) in
  let clse := Sent 0 (mk_apacket A_CLSE 0 77 []) in
  let w1 := mk_World (<[0%nat := Tests.service (SinkSocket 900)]> (sockets w))
              [0%nat] 2 [okay] in
  call 1 (enqueue (Tests.bytes 100)) 0%nat w = Done 0 w1 /\
  call 2 (enqueue (Tests.bytes 1000)) 0%nat w1 = Done (-1) (closed_pair w1 0%nat 1%nat [okay; clse]).
Proof.
  split.
  - apply (SinkSocket_flow_control (Tests.jdwp Tests.t) (Tests.jdwp Tests.t)
             (Tests.jdwp Tests.t) Tests.t "1000" 1000 (Tests.opened (SinkSocket 1000))
             0%nat 1%nat (Tests.service (SinkSocket 1000)) Tests.remote 1000
             (Tests.bytes 100) 0);
      try reflexivity; try (vm_compute; intuition discriminate).
  - apply (SinkSocket_flow_control (Tests.jdwp Tests.t) (Tests.jdwp Tests.t)
             (Tests.jdwp Tests.t) Tests.t "1000" 1000 _
             0%nat 1%nat (Tests.service (SinkSocket 900)) Tests.remote 900
             (Tests.bytes 1000) 0);
      try reflexivity; try (vm_compute; intuition discriminate).
Defined.

(** Scenario 7 of the spec, from the OPEN on. *)
Example sink_scenario :
  exists s w1 w2 w3,
    handle_open (Tests.jdwp Tests.t) (Tests.jdwp Tests.t) (Tests.jdwp Tests.t) Tests.os
      "sink:1000" Tests.t 77 Tests.w0 = Done (Some s) w1 /\
    call 2 (enqueue (Tests.bytes 100)) s w1 = Done 0 w2 /\
    call 2 (enqueue (Tests.bytes 1000)) s w2 = Done (-1) w3 /\
    trace w3 = [Sent 0 (mk_apacket A_OKAY 1 77 []); Sent 0 (mk_apacket A_OKAY 1 77 []);
                Sent 0 (mk_apacket A_OKAY 1 77 []); Sent 0 (mk_apacket A_CLSE 0 77 [])] /\
    sockets w3 = ∅.
Proof.
  eexists _, _, _, _. split; [vm_compute; reflexivity|].
  split; [vm_compute; reflexivity|]. split; [vm_compute; reflexivity|].
  split; vm_compute; reflexivity.
Qed.

(** C9. The [enqueue] callback of a service socket (plain, sink or
    source) with a live peer sends the OKAY first and runs the virtual
    [Enqueue] after it, in the world that has the OKAY: whatever
    [Enqueue] returns, accepting or closing, the effects of the call
    start with the OKAY. With a remote socket for a peer the call
    returns (0 or -1), so the credit does go back, on every payload. *)
Theorem ServiceSocket_enqueue_credit_first (fuel : nat) (w : World) (s p : ptr)
    (x y : asocket) (data : payload_type) :
  sockets w !! s = Some x -> is_service (kind x) ->
  peer x = Some p -> sockets w !! p = Some y ->
  let okay := Sent (Transport.id (transport x)) (mk_apacket A_OKAY (id x) (id y) []) in
  call (S fuel) (enqueue data) s w =
    Enqueue (call fuel) s data (set_trace w (trace w ++ [okay])) /\
  (forall r w', call (S fuel) (enqueue data) s w = Done r w' ->
     exists rest, trace w' = trace w ++ okay :: rest) /\
  (forall c, kind y = RemoteSocket c ->
     exists r w', call (S (S fuel)) (enqueue data) s w = Done r w' /\
       (r = 0 \/ r = -1) /\
       exists rest, trace w' = trace w ++ okay :: rest).
Proof.
  intros Hs Hservice Hp Hy okay.
  assert (Hstep : forall fuel, call (S fuel) (enqueue data) s w =
            Enqueue (call fuel) s data (set_trace w (trace w ++ [okay]))).
  { intros fuel'. cbn [call]. unfold methods, bind, deref. rewrite Hs.
    destruct (kind x); try contradiction.
    all: unfold ServiceSocket_enqueue, bind, deref, deref_opt; rewrite Hs, Hp.
    all: unfold deref; rewrite Hy; reflexivity. }
  assert (Hafter : forall fuel r w', call (S fuel) (enqueue data) s w = Done r w' ->
            exists rest, trace w' = trace w ++ okay :: rest).
  { intros fuel' r w'. rewrite Hstep. unfold Enqueue, SinkSocket_Enqueue, ServiceSocket_Enqueue.
    intros H. minv.
    all: unfold ServiceSocket_Close in *; minv.
    all: repeat match goal with
         | H : call _ _ _ _ = Done _ _ |- _ => apply call_extends in H
         end.
    all: repeat match goal with
         | H : remove_socket _ _ = Done _ _ |- _ => apply remove_socket_Done in H as [_ H]
         | H : extends _ _ |- _ => destruct H as [? H]
         end.
    all: cbn [trace set_trace set_sockets] in *.
    all: repeat match goal with H : trace ?w = _ |- _ => rewrite H; clear H end.
    all: rewrite <- ?app_assoc; eexists; reflexivity. }
  split; [apply Hstep|]. split; [apply Hafter|].
  intros c Hc.
  assert (Hne : s <> p).
  { intros ->. rewrite Hs in Hy. injection Hy as ->. rewrite Hc in Hservice. contradiction. }
  assert (Hdone : exists r w', call (S (S fuel)) (enqueue data) s w = Done r w' /\
                    (r = 0 \/ r = -1)).
  { destruct (kind x) as [| bytes_left | bytes_left | |] eqn:Hk; try contradiction.
    2: destruct (bytes_left <=? size data) eqn:Hfull.
    all: destruct c; destruct (shutdown y) eqn:Hsh; exec; try rewrite Hfull; exec.
    all: eexists _, _; (split; [reflexivity|]); auto. }
  destruct Hdone as (r & w' & Hcall & Hr).
  exists r, w'. split; [exact Hcall|]. split; [exact Hr|].
  eapply Hafter, Hcall.
Qed.

Lemma zero_block_size (len : Z) : 0 <= len -> size (zero_block len) = len.
Proof. intros H. unfold size, zero_block. rewrite repeat_length. lia. Qed.

Lemma zero_block_zero (len : Z) : Forall (fun b => b = Byte.x00) (zero_block len).
Proof. unfold zero_block. apply Forall_forall. intros b Hb%list_elem_of_In%repeat_spec. exact Hb. Qed.

(** C10. A source socket with [bytes_left] bytes left, paired with a
    remote socket, on a transport whose payload bound is positive. With
    bytes left, [ready] makes one [enqueue] call on the peer, with a block
    of [min(bytes_left, max_payload)] zero bytes - at most the payload
    bound of the transport - which the remote socket sends as one WRTE,
    and the bytes left go down by that size. With no bytes left, [ready]
    closes the socket and sends no data. *)
Theorem SourceSocket_Ready_block (fuel : nat) (w : World) (s p : ptr) (x y : asocket)
    (bytes_left : Z) (c : bool) :
  sockets w !! s = Some x -> kind x = SourceSocket bytes_left ->
  0 <= bytes_left <= SIZE_MAX ->
  peer x = Some p -> sockets w !! p = Some y ->
  kind y = RemoteSocket c -> peer y = Some s ->
  0 < get_max_payload x ->
  let len := Z.min bytes_left (get_max_payload x) in
  let wrte := Sent (Transport.id (transport y))
                (mk_apacket A_WRTE (id x) (id y) (zero_block len)) in
  let clse := Sent (Transport.id (transport y)) (mk_apacket A_CLSE 0 (id y) []) in
  (0 < bytes_left ->
   (forall rec, SourceSocket_Ready rec s w =
      (rec (enqueue (zero_block len)) p >>
       let! s' := deref s in
       match kind s' with
       | SourceSocket bytes_left' =>
           store s (set_kind s' (SourceSocket (size_sub bytes_left' len)))
       | _ => fun _ => Fault
       end) w) /\
   call (S (S fuel)) ready s w =
     Done 0 (mk_World (<[s := set_kind x (SourceSocket (bytes_left - len))]> (sockets w))
               (local_socket_list w) (local_socket_next_id w) (trace w ++ [wrte])) /\
   size (zero_block len) = len /\
   0 < len <= Transport.max_payload (transport x) /\
   Forall (fun b => b = Byte.x00) (zero_block len)) /\
  (bytes_left = 0 ->
   call (S (S fuel)) ready s w =
     Done 0 (closed_pair w s p (if c then [] else [clse]))).
Proof.
  intros Hs Hk Hrange Hp Hy Hky Hpy Hmax len wrte clse.
  assert (Hne : s <> p).
  { intros ->. rewrite Hs in Hy. injection Hy as ->. congruence. }
  split.
  - intros Hpos.
    assert (Hlen : 0 < len <= get_max_payload x) by (unfold len; lia).
    assert (Hnz : (len =? 0) = false) by (apply Z.eqb_neq; lia).
    split; [|split; [|split; [|split]]].
    + intros rec. unfold SourceSocket_Ready, bind, deref. rewrite Hs, Hk.
      fold len. rewrite Hnz, Hp. reflexivity.
    + exec. fold len. rewrite Hnz. exec.
      unfold set_sockets. cbn.
      rewrite size_sub_exact by (unfold len; lia). reflexivity.
    + apply zero_block_size. lia.
    + exact Hlen.
    + apply zero_block_zero.
  - intros ->.
    assert (Hz : (len =? 0) = true) by (apply Z.eqb_eq; unfold len; lia).
    change (call (S (S fuel)) ready s w) with (methods (call (S fuel)) ready s w).
    unfold methods, bind, deref. rewrite Hs, Hk.
    unfold void, Ready, bind, deref. rewrite Hs, Hk.
    unfold SourceSocket_Ready, bind, deref. rewrite Hs, Hk. fold len. rewrite Hz.
    erewrite (ServiceSocket_Close_remote fuel _ s p x y c);
      [|exact Hs|exact Hp|exact Hne|exact Hy|exact Hky].
    reflexivity.
Qed.

Lemma ServiceSocket_enqueue_credit_first_witness :
  exists r w',
    call 2 (enqueue (Tests.bytes 1000)) 0%nat (Tests.opened (SinkSocket 1000)) = Done r w' /\
    (r = 0 \/ r = -1) /\
    exists rest, trace w' = [] ++ Sent 0 (mk_apacket A_OKAY 1 77 []) :: rest.
Proof.
  apply (ServiceSocket_enqueue_credit_first 0 (Tests.opened (SinkSocket 1000)) 0%nat 1%nat
           (Tests.service (SinkSocket 1000)) Tests.remote (Tests.bytes 1000)
           eq_refl I eq_refl eq_refl) with (c := false).
  reflexivity.
Defined.

Lemma SourceSocket_Ready_block_witness :
  let w := Tests.opened (SourceSocket 5000) in
  let wrte n := Sent 0 (mk_apacket A_WRTE 1 77 (zero_block n)) in
  call 2 ready 0%nat w =
    Done 0 (mk_World (<[0%nat := Tests.service (SourceSocket 904)]> (sockets w))
              [0%nat] 2 [wrte 4096]) /\
  call 2 ready 0%nat (Tests.opened (SourceSocket 0)) =
    Done 0 (closed_pair (Tests.opened (SourceSocket 0)) 0%nat 1%nat
              [Sent 0 (mk_apacket A_CLSE 0 77 [])]).
Proof.
  split.
  - apply (SourceSocket_Ready_block 0 (Tests.opened (SourceSocket 5000)) 0%nat 1%nat
             (Tests.service (SourceSocket 5000)) Tests.remote 5000 false);
      try reflexivity; try (vm_compute; intuition discriminate).
  - apply (SourceSocket_Ready_block 0 (Tests.opened (SourceSocket 0)) 0%nat 1%nat
             (Tests.service (SourceSocket 0)) Tests.remote 0 false);
      try reflexivity; try (vm_compute; intuition discriminate).
Defined.

Lemma new_ServiceSocket_paired k t w a w1 :
  paired w -> new_ServiceSocket k t w = Done a w1 -> paired w1.
Proof.
  intros Hpaired. destruct t as [t|]; [|discriminate].
  rewrite new_ServiceSocket_Done. intros [= <- <-].
  intros s x p. cbn [sockets].
  destruct (decide (fresh (dom (sockets w)) = s)) as [<-|Hne].
  - rewrite lookup_insert_eq. intros [= <-]. discriminate.
  - rewrite lookup_insert_ne by exact Hne. intros Hs Hp.
    destruct (Hpaired _ _ _ Hs Hp) as (y & Hy & Hpy).
    exists y. split; [|exact Hpy].
    rewrite lookup_insert_ne; [exact Hy|].
    intros <-. rewrite fresh_lookup in Hy. discriminate.
Qed.

(** C8. Symmetric pairing is kept by every call through the callbacks
    of a socket ([enqueue], [ready], [close], [shutdown]) that returns,
    for every kind of socket, and by the constructor of the service
    sockets: afterwards every live socket with a peer is again the peer
    of its live peer. And [ServiceSocket::Close] on a socket with a peer
    is the shutdown and the close of the peer, then the removal of the
    socket itself, all run in the world in which the peer's back-pointer
    is already null. *)
Theorem symmetric_pairing_invariant (fuel : nat) (o : op) (s : ptr) (w w' : World) (r : Z) :
  paired w -> call fuel o s w = Done r w' ->
  paired w' /\
  (forall k t a w1, new_ServiceSocket k t w = Done a w1 -> paired w1) /\
  (forall rec x p y,
     sockets w !! s = Some x -> peer x = Some p -> sockets w !! p = Some y ->
     ServiceSocket_Close rec s w =
       (((if shutdown y then rec do_shutdown p >> ret tt else ret tt) >>
         rec close p >> ret tt) >>
        remove_socket s >> free s)
         (set_sockets w (<[p := set_peer y None]> (sockets w)))).
Proof.
  intros Hpaired Hcall. split; [eapply call_paired; eassumption|].
  split; [intros k t a w1; apply new_ServiceSocket_paired, Hpaired|].
  intros rec x p y Hs Hp Hy.
  unfold ServiceSocket_Close, bind, deref. rewrite Hs, Hp, Hy.
  unfold store. rewrite Hy. reflexivity.
Qed.

Lemma opened_paired (k : socket_kind) : paired (Tests.opened k).
Proof.
  intros s x p. unfold Tests.opened. cbn [sockets].
  intros [[<- <-]|[Hs [[<- <-]|[Hs' Hnone]]%lookup_insert_Some]]%lookup_insert_Some.
  - intros [= <-]. exists Tests.remote. split; reflexivity.
  - intros [= <-]. exists (Tests.service k). split; reflexivity.
  - rewrite lookup_empty in Hnone. discriminate.
Qed.

Lemma symmetric_pairing_invariant_witness :
  paired (closed_pair (Tests.opened (SinkSocket 1000)) 0%nat 1%nat
            [Sent 0 (mk_apacket A_OKAY 1 77 []); Sent 0 (mk_apacket A_CLSE 0 77 [])]).
Proof.
  refine (proj1 (symmetric_pairing_invariant 2 (enqueue (Tests.bytes 1000)) 0%nat
                   (Tests.opened (SinkSocket 1000)) _ (-1)
                   (opened_paired _) _)).
  vm_compute. reflexivity.
Defined.

Section Names.

Variables jdwp tracker app : M (option ptr).
Variable os : Os.

(** A name that is not served in process gets no socket. *)
Lemma daemon_service_to_socket_other (name : string) (t : option Transport.atransport) (w : World) :
  ~ in_process_service name ->
  daemon_service_to_socket jdwp tracker app name t w = Done None w.
Proof.
  intros Hno. unfold daemon_service_to_socket, in_process_service in *.
  destruct (String.eqb_spec name "jdwp") as [->|_]; [tauto|].
  destruct (String.eqb_spec name "track-jdwp") as [->|_]; [tauto|].
  destruct (String.eqb_spec name "track-app") as [->|_]; [tauto|].
  destruct (ConsumePrefix name "sink:") as [digits|] eqn:Hsink.
  { apply ConsumePrefix_Some in Hsink as ->.
    destruct (ParseUint UINT64_MAX digits) as [n|] eqn:Hparse; [|reflexivity].
    exfalso. apply Hno. right. right. right. left. eauto. }
  destruct (ConsumePrefix name "source:") as [digits|] eqn:Hsource; [|reflexivity].
  apply ConsumePrefix_Some in Hsource as ->.
  destruct (ParseUint UINT64_MAX digits) as [n|] eqn:Hparse; [|reflexivity].
  exfalso. apply Hno. right. right. right. right. eauto.
Qed.

Lemma sink_source_to_fd (prefix digits : string) (t : Transport.atransport) :
  prefix = "sink:" \/ prefix = "source:" ->
  daemon_service_to_fd os (prefix +:+ digits) t = -1.
Proof.
  intros [-> | ->]; unfold daemon_service_to_fd, android_service_to_fd, common_service_to_fd;
    simpl; destruct (is_in_tradeinmode os && _), (ANDROID os), (ANDROID_RECOVERY os);
    reflexivity.
Qed.

Lemma sink_source_not_in_process (prefix digits : string) :
  prefix = "sink:" \/ prefix = "source:" ->
  ParseUint UINT64_MAX digits = None -> ~ in_process_service (prefix +:+ digits).
Proof.
  intros Hprefix Hparse [H|[H|[H|[(d & n & H & Hd)|(d & n & H & Hd)]]]].
  all: destruct Hprefix as [-> | ->]; simpl in H; simplify_eq.
Qed.

Lemma in_process_service_dec (name : string) :
  in_process_service name \/ ~ in_process_service name.
Proof.
  unfold in_process_service.
  destruct (String.eqb_spec name "jdwp") as [->|Hjdwp]; [tauto|].
  destruct (String.eqb_spec name "track-jdwp") as [->|Htracker]; [tauto|].
  destruct (String.eqb_spec name "track-app") as [->|Happ]; [tauto|].
  destruct (ConsumePrefix name "sink:") as [digits|] eqn:Hsink.
  { apply ConsumePrefix_Some in Hsink as ->.
    destruct (ParseUint UINT64_MAX digits) as [n|] eqn:Hparse.
    - left. right. right. right. left. eauto.
    - right. apply (sink_source_not_in_process "sink:"); auto. }
  destruct (ConsumePrefix name "source:") as [digits|] eqn:Hsource.
  { apply ConsumePrefix_Some in Hsource as ->.
    destruct (ParseUint UINT64_MAX digits) as [n|] eqn:Hparse.
    - left. right. right. right. right. eauto.
    - right. apply (sink_source_not_in_process "source:"); auto. }
  right. intros [H|[H|[H|[(d & n & -> & _)|(d & n & -> & _)]]]]; try congruence.
  - rewrite ConsumePrefix_app in Hsink. discriminate.
  - rewrite ConsumePrefix_app in Hsource. discriminate.
Qed.

(** C7, amended. With JDWP factories that make their sockets,
    [daemon_service_to_socket] returns a socket exactly for [jdwp],
    [track-jdwp], [track-app] and for [sink:<n>] and [source:<n>] with a
    count that parses; for every other name it returns null and changes
    nothing. The caller then asks [daemon_service_to_fd], and answers
    with CLSE(0, remote_id) when that has no descriptor for the name
    either - as it has none for a [sink:] or [source:] request whose
    count does not parse. *)
Theorem daemon_service_to_socket_names (name : string) (t : Transport.atransport)
    (remote_id : N) (w : World) :
  (forall w, exists s w', jdwp w = Done (Some s) w') ->
  (forall w, exists s w', tracker w = Done (Some s) w') ->
  (forall w, exists s w', app w = Done (Some s) w') ->
  let clse := Sent (Transport.id t) (mk_apacket A_CLSE 0 remote_id []) in
  ((exists s w', daemon_service_to_socket jdwp tracker app name (Some t) w = Done (Some s) w')
   <-> in_process_service name) /\
  (~ in_process_service name ->
   daemon_service_to_socket jdwp tracker app name (Some t) w = Done None w) /\
  (~ in_process_service name -> daemon_service_to_fd os name t < 0 ->
   handle_open jdwp tracker app os name t remote_id w =
     Done None (set_trace w (trace w ++ [clse]))) /\
  (forall prefix digits, prefix = "sink:" \/ prefix = "source:" ->
   ParseUint UINT64_MAX digits = None ->
   daemon_service_to_socket jdwp tracker app (prefix +:+ digits) (Some t) w = Done None w /\
   handle_open jdwp tracker app os (prefix +:+ digits) t remote_id w =
     Done None (set_trace w (trace w ++ [clse]))).
Proof.
  intros Hjdwp Htracker Happ clse.
  assert (Hclose : forall name', ~ in_process_service name' ->
            daemon_service_to_fd os name' t < 0 ->
            handle_open jdwp tracker app os name' t remote_id w =
              Done None (set_trace w (trace w ++ [clse]))).
  { intros name' Hno Hfd.
    unfold handle_open, create_local_service_socket, bind.
    rewrite (daemon_service_to_socket_other name' (Some t) w Hno).
    apply Z.ltb_lt in Hfd. rewrite Hfd. reflexivity. }
  split; [|split; [apply daemon_service_to_socket_other|split; [apply Hclose|]]].
  - split.
    + intros (s & w' & Hcall).
      destruct (in_process_service_dec name) as [Hin|Hno]; [exact Hin|].
      rewrite (daemon_service_to_socket_other name (Some t) w Hno) in Hcall. discriminate.
    + unfold daemon_service_to_socket.
      intros [->|[->|[->|[(d & n & -> & Hd)|(d & n & -> & Hd)]]]].
      * apply Hjdwp.
      * apply Htracker.
      * apply Happ.
      * change (String.eqb ("sink:" +:+ d) "jdwp") with false.
        change (String.eqb ("sink:" +:+ d) "track-jdwp") with false.
        change (String.eqb ("sink:" +:+ d) "track-app") with false.
        cbv iota. rewrite ConsumePrefix_app, Hd.
        unfold new_SinkSocket, bind. rewrite new_ServiceSocket_Done. eauto.
      * change (String.eqb ("source:" +:+ d) "jdwp") with false.
        change (String.eqb ("source:" +:+ d) "track-jdwp") with false.
        change (String.eqb ("source:" +:+ d) "track-app") with false.
        cbv iota.
        change (ConsumePrefix ("source:" +:+ d) "sink:") with (@None string).
        cbv iota. rewrite ConsumePrefix_app, Hd.
        unfold new_SourceSocket, bind. rewrite new_ServiceSocket_Done. eauto.
  - intros prefix digits Hprefix Hparse.
    pose proof (sink_source_not_in_process _ _ Hprefix Hparse) as Hno.
    split; [apply daemon_service_to_socket_other, Hno|].
    apply Hclose; [exact Hno|]. rewrite sink_source_to_fd by exact Hprefix. lia.
Qed.

End Names.

Lemma jdwp_makes_socket (t : Transport.atransport) (w : World) :
  exists s w', Tests.jdwp t w = Done (Some s) w'.
Proof. unfold Tests.jdwp, bind. rewrite new_ServiceSocket_Done. eauto. Qed.

Lemma daemon_service_to_socket_names_witness :
  let jdwp := Tests.jdwp Tests.t in
  (exists s w',
     daemon_service_to_socket jdwp jdwp jdwp "track-jdwp" (Some Tests.t) Tests.w0 =
       Done (Some s) w') /\
  daemon_service_to_socket jdwp jdwp jdwp "sink:many" (Some Tests.t) Tests.w0 =
    Done None Tests.w0 /\
  handle_open jdwp jdwp jdwp Tests.os "sink:many" Tests.t 77 Tests.w0 =
    Done None (set_trace Tests.w0 [Sent 0 (mk_apacket A_CLSE 0 77 [])]).
Proof.
  pose proof (daemon_service_to_socket_names (Tests.jdwp Tests.t) (Tests.jdwp Tests.t)
                (Tests.jdwp Tests.t) Tests.os "track-jdwp" Tests.t 77 Tests.w0
                (jdwp_makes_socket _) (jdwp_makes_socket _) (jdwp_makes_socket _))
    as (Hnames & _ & _ & Hcount).
  split.
  { apply Hnames. right. left. reflexivity. }
  exact (Hcount "sink:" "many" (or_introl eq_refl) eq_refl).
Defined.

(** C7 as stated does not hold: for [shell:ls],
    [daemon_service_to_socket] returns null, and the caller, which gets a
    descriptor for the shell from [daemon_service_to_fd], answers the
    OPEN with an OKAY and sends no CLSE. *)
Lemma daemon_service_to_socket_null_not_CLSE :
  let jdwp := Tests.jdwp Tests.t in
  daemon_service_to_socket jdwp jdwp jdwp "shell:ls" (Some Tests.t) Tests.w0 =
    Done None Tests.w0 /\
  daemon_service_to_fd Tests.os "shell:ls" Tests.t = 12 /\
  exists w',
    handle_open jdwp jdwp jdwp Tests.os "shell:ls" Tests.t 77 Tests.w0 =
      Done (Some 0%nat) w' /\
    trace w' = [Sent 0 (mk_apacket A_OKAY 1 77 [])].
Proof.
  split; [reflexivity|]. split; [reflexivity|].
  eexists. split; vm_compute; reflexivity.
Qed.

(** A source of 5000 bytes on a transport with 4096-byte payloads: two
    blocks, then the close. *)
Example source_scenario :
  exists s w1 w2 w3 w4,
    handle_open (Tests.jdwp Tests.t) (Tests.jdwp Tests.t) (Tests.jdwp Tests.t) Tests.os
      "source:5000" Tests.t 77 Tests.w0 = Done (Some s) w1 /\
    call 2 ready s w1 = Done 0 w2 /\
    call 2 ready s w2 = Done 0 w3 /\
    call 2 ready s w3 = Done 0 w4 /\
    trace w4 = [Sent 0 (mk_apacket A_OKAY 1 77 []);
                Sent 0 (mk_apacket A_WRTE 1 77 (zero_block 4096));
                Sent 0 (mk_apacket A_WRTE 1 77 (zero_block 904));
                Sent 0 (mk_apacket A_CLSE 0 77 [])] /\
    sockets w4 = ∅.
Proof.
  eexists _, _, _, _, _. split; [vm_compute; reflexivity|].
  split; [vm_compute; reflexivity|]. split; [vm_compute; reflexivity|].
  split; [vm_compute; reflexivity|]. split; vm_compute; reflexivity.
Qed.

End ServiceSpec.

(** ** The descriptor factory of [services.cpp] *)

Module DescriptorSpec.
Import Strings StringFacts Services ServiceSpec Descriptors.
Local Open Scope Z_scope.

Lemma cut_app (a b : string) (c : ascii) :
  free_of c a = true -> cut (a +:+ String c b) c = Some (a, b).
Proof.
  induction a as [|d a IH]; simpl.
  - intros _. rewrite Ascii.eqb_refl. reflexivity.
  - intros [Hd Ha]%andb_true_iff. apply negb_true_iff in Hd.
    rewrite Hd, (IH Ha). reflexivity.
Qed.

Lemma cut_free (s : string) (c : ascii) : free_of c s = true -> cut s c = None.
Proof.
  induction s as [|d s IH]; simpl; [reflexivity|].
  intros [Hd Hs]%andb_true_iff. apply negb_true_iff in Hd.
  rewrite Hd, (IH Hs). reflexivity.
Qed.

Lemma StartsWith_app (s prefix : string) :
  StartsWith s prefix = true -> exists rest, s = prefix +:+ rest.
Proof.
  intros [rest H]%StartsWith_ConsumePrefix. exists rest.
  apply ConsumePrefix_Some, H.
Qed.

(** The cases of the build and of trade-in mode. *)
Ltac builds os :=
  destruct (is_in_tradeinmode os && _), (ANDROID os), (ANDROID_RECOVERY os);
  try reflexivity.

(** *** The two factories *)

(** X1. The two service factories serve different names: a name for
    which [daemon_service_to_socket] returns a socket (whatever the JDWP
    factories, the transport and the sockets there are) gets no
    descriptor from [daemon_service_to_fd], on any build and system. *)
Theorem factories_disjoint (jdwp tracker app : M (option ptr)) (os : Os) (name : string)
    (transport : option Transport.atransport) (t : Transport.atransport)
    (w w' : World) (s : ptr) :
  daemon_service_to_socket jdwp tracker app name transport w = Done (Some s) w' ->
  daemon_service_to_fd os name t = -1.
Proof.
  unfold daemon_service_to_socket.
  destruct (String.eqb_spec name "jdwp") as [->|_].
  { intros _. unfold daemon_service_to_fd, android_service_to_fd, common_service_to_fd.
    simpl. builds os. }
  destruct (String.eqb_spec name "track-jdwp") as [->|_].
  { intros _. unfold daemon_service_to_fd, android_service_to_fd, common_service_to_fd.
    simpl. builds os. }
  destruct (String.eqb_spec name "track-app") as [->|_].
  { intros _. unfold daemon_service_to_fd, android_service_to_fd, common_service_to_fd.
    simpl. builds os. }
  destruct (ConsumePrefix name "sink:") as [digits|] eqn:Hsink.
  { apply ConsumePrefix_Some in Hsink as ->. intros _.
    unfold daemon_service_to_fd, android_service_to_fd, common_service_to_fd.
    simpl. builds os. }
  destruct (ConsumePrefix name "source:") as [digits|] eqn:Hsource; [|discriminate].
  apply ConsumePrefix_Some in Hsource as ->. intros _.
  unfold daemon_service_to_fd, android_service_to_fd, common_service_to_fd.
  simpl. builds os.
Qed.

Lemma factories_disjoint_witness :
  daemon_service_to_fd Tests.os "source:10" Tests.t = -1.
Proof.
  eapply (factories_disjoint (Tests.jdwp Tests.t) (Tests.jdwp Tests.t) (Tests.jdwp Tests.t)
            Tests.os "source:10" (Some Tests.t) Tests.t Tests.w0).
  vm_compute. reflexivity.
Defined.

(** *** The shell service *)

Lemma shell_dispatch (os : Os) (args : string) (t : Transport.atransport) :
  daemon_service_to_fd os ("shell" +:+ args) t =
    if refused os ("shell" +:+ args) then -1 else ShellService os args.
Proof.
  unfold daemon_service_to_fd, refused, android_service_to_fd, common_service_to_fd.
  simpl. builds os.
Qed.

(** X2. A name that starts with [shell] and has no colon after it gets
    no descriptor, on any build and system: [ShellService] finds no ':'
    in its arguments and starts nothing. *)
Theorem shell_without_colon (os : Os) (rest : string) (t : Transport.atransport) :
  free_of ":" rest = true ->
  daemon_service_to_fd os ("shell" +:+ rest) t = -1.
Proof.
  intros Hfree. rewrite shell_dispatch. unfold ShellService.
  rewrite (cut_free _ _ Hfree). destruct (refused os _); reflexivity.
Qed.

Lemma shell_without_colon_witness :
  daemon_service_to_fd Tests.os "shell,raw" Tests.t = -1.
Proof. apply (shell_without_colon Tests.os ",raw" Tests.t). reflexivity. Defined.

(** The arguments of the shell service, split. *)
Lemma shell_service_args (os : Os) (args : list string) (command : string) :
  args <> [] ->
  Forall (fun a => free_of "," a = true /\ free_of ":" a = true) args ->
  ShellService os (Join args "," +:+ String ":" command) =
    let '(type, protocol, terminal_type) :=
      foldl (shell_arg os) (if String.eqb command "" then kPty else kRaw, kNone, "dumb") args in
    StartSubprocess os command (Some terminal_type) type protocol.
Proof.
  intros Hne Hall. unfold ShellService.
  rewrite cut_app.
  - rewrite Split_Join; [reflexivity|exact Hne|].
    eapply Forall_impl; [exact Hall|]. intros a [H _]. exact H.
  - apply free_of_Join; [discriminate|].
    eapply Forall_impl; [exact Hall|]. intros a [_ H]. exact H.
Qed.

(** X3. The defaults of the shell service. For [shell:<command>],
    without arguments, when trade-in mode does not forbid it and none of
    the three argument words is the empty word: the subprocess runs the
    command with the terminal type [dumb] and without the shell
    protocol, on a PTY when the command is empty (an interactive shell)
    and raw when it is not. *)
Theorem shell_defaults (os : Os) (command : string) (t : Transport.atransport) :
  refused os ("shell:" +:+ command) = false ->
  kShellServiceArgRaw os <> "" -> kShellServiceArgPty os <> "" ->
  kShellServiceArgShellProtocol os <> "" ->
  daemon_service_to_fd os ("shell:" +:+ command) t =
    StartSubprocess os command (Some "dumb")
      (if String.eqb command "" then kPty else kRaw) kNone.
Proof.
  intros Hallowed Hraw Hpty Hv2.
  change ("shell:" +:+ command) with ("shell" +:+ (Join [""] "," +:+ String ":" command)) in *.
  rewrite shell_dispatch, Hallowed.
  rewrite shell_service_args; [|discriminate|repeat constructor].
  cbn [foldl]. unfold shell_arg.
  destruct (String.eqb_spec "" (kShellServiceArgRaw os)); [congruence|].
  destruct (String.eqb_spec "" (kShellServiceArgPty os)); [congruence|].
  destruct (String.eqb_spec "" (kShellServiceArgShellProtocol os)); [congruence|].
  reflexivity.
Qed.

Lemma shell_defaults_witness :
  daemon_service_to_fd Tests.os "shell:" Tests.t =
    StartSubprocess Tests.os "" (Some "dumb") kPty kNone /\
  daemon_service_to_fd Tests.os "shell:ls" Tests.t =
    StartSubprocess Tests.os "ls" (Some "dumb") kRaw kNone.
Proof.
  split.
  - apply (shell_defaults Tests.os "" Tests.t); [reflexivity|discriminate..].
  - apply (shell_defaults Tests.os "ls" Tests.t); [reflexivity|discriminate..].
Defined.

(** X4. An argument of the shell service that is none of the three
    argument words and does not start with [TERM=] is ignored: the
    service starts what it starts without it. (The arguments are words
    without ',' and ':'.) *)
Theorem ShellService_ignores_unknown (os : Os) (before after : list string)
    (arg command : string) :
  arg <> kShellServiceArgRaw os -> arg <> kShellServiceArgPty os ->
  arg <> kShellServiceArgShellProtocol os -> StartsWith arg "TERM=" = false ->
  Forall (fun a => free_of "," a = true /\ free_of ":" a = true) (before ++ arg :: after) ->
  before ++ after <> [] ->
  ShellService os (Join (before ++ arg :: after) "," +:+ String ":" command) =
  ShellService os (Join (before ++ after) "," +:+ String ":" command).
Proof.
  intros Hraw Hpty Hv2 Hterm Hall Hne.
  rewrite !shell_service_args; try exact Hall.
  - rewrite !foldl_app. cbn [foldl].
    replace (shell_arg os (foldl (shell_arg os) _ before) arg)
      with (foldl (shell_arg os)
              (if String.eqb command "" then kPty else kRaw, kNone, "dumb") before);
      [reflexivity|].
    destruct (foldl (shell_arg os) _ before) as [[type protocol] terminal_type].
    unfold shell_arg.
    destruct (String.eqb_spec arg (kShellServiceArgRaw os)); [congruence|].
    destruct (String.eqb_spec arg (kShellServiceArgPty os)); [congruence|].
    destruct (String.eqb_spec arg (kShellServiceArgShellProtocol os)); [congruence|].
    destruct (ConsumePrefix arg "TERM=") as [term|] eqn:Hconsume; [|reflexivity].
    assert (StartsWith arg "TERM=" = true) by (apply StartsWith_ConsumePrefix; eauto).
    congruence.
  - exact Hne.
  - apply Forall_app in Hall as [Hbefore Hafter]. apply Forall_app. split; [exact Hbefore|].
    inversion Hafter; assumption.
  - destruct before; discriminate.
Qed.

Lemma ShellService_ignores_unknown_witness :
  ShellService Tests.os ",v2,x11,TERM=xterm:top" = ShellService Tests.os ",v2,TERM=xterm:top".
Proof.
  apply (ShellService_ignores_unknown Tests.os [""; "v2"] ["TERM=xterm"] "x11" "top");
    try discriminate; try reflexivity.
  repeat constructor.
Defined.

Lemma shell_arg_protocol (os : Os) (args : list string)
    (st : SubprocessType * SubprocessProtocol * string) :
  kShellServiceArgShellProtocol os <> kShellServiceArgRaw os ->
  kShellServiceArgShellProtocol os <> kShellServiceArgPty os ->
  snd (fst (foldl (shell_arg os) st args)) =
    if bool_decide (kShellServiceArgShellProtocol os ∈ args) then kShell else snd (fst st).
Proof.
  intros Hraw Hpty. revert st. induction args as [|arg args IH]; intros st.
  - cbn [foldl]. case_bool_decide as H; [|reflexivity].
    apply elem_of_nil in H. contradiction.
  - cbn [foldl]. rewrite IH.
    destruct (decide (kShellServiceArgShellProtocol os ∈ args)) as [Hin|Hout].
    + rewrite !bool_decide_eq_true_2; [reflexivity| |exact Hin]. right. exact Hin.
    + rewrite (bool_decide_eq_false_2 _ Hout).
      destruct st as [[type protocol] terminal_type]. unfold shell_arg.
      destruct (String.eqb_spec arg (kShellServiceArgRaw os)) as [->|Hr].
      { rewrite bool_decide_eq_false_2; [reflexivity|].
        intros [H|H]%elem_of_cons; [congruence|contradiction]. }
      destruct (String.eqb_spec arg (kShellServiceArgPty os)) as [->|Hp].
      { rewrite bool_decide_eq_false_2; [reflexivity|].
        intros [H|H]%elem_of_cons; [congruence|contradiction]. }
      destruct (String.eqb_spec arg (kShellServiceArgShellProtocol os)) as [->|Hv].
      { rewrite bool_decide_eq_true_2; [reflexivity|]. left. }
      rewrite bool_decide_eq_false_2.
      2:{ intros [H|H]%elem_of_cons; [congruence|contradiction]. }
      destruct (ConsumePrefix arg "TERM="); reflexivity.
Qed.

(** X5. The shell protocol is used exactly when its argument word is
    among the arguments, wherever it stands and whatever the other
    arguments are; no argument switches it off again. (The word is not
    the word for raw or for PTY; the arguments are words without ','
    and ':'.) *)
Theorem ShellService_protocol (os : Os) (args : list string) (command : string) :
  kShellServiceArgShellProtocol os <> kShellServiceArgRaw os ->
  kShellServiceArgShellProtocol os <> kShellServiceArgPty os ->
  args <> [] ->
  Forall (fun a => free_of "," a = true /\ free_of ":" a = true) args ->
  exists type terminal_type,
    ShellService os (Join args "," +:+ String ":" command) =
      StartSubprocess os command (Some terminal_type) type
        (if bool_decide (kShellServiceArgShellProtocol os ∈ args) then kShell else kNone).
Proof.
  intros Hraw Hpty Hne Hall. rewrite shell_service_args by assumption.
  pose proof (shell_arg_protocol os args
                (if String.eqb command "" then kPty else kRaw, kNone, "dumb") Hraw Hpty) as H.
  destruct (foldl _ _ args) as [[type protocol] terminal_type]. simpl in H. subst protocol.
  eauto.
Qed.

Lemma ShellService_protocol_witness :
  exists type terminal_type,
    ShellService Tests.os ",v2,pty:" = StartSubprocess Tests.os "" (Some terminal_type) type kShell.
Proof.
  apply (ShellService_protocol Tests.os [""; "v2"; "pty"] ""); try discriminate.
  repeat constructor.
Defined.

(** *** The build *)

(** X6. A daemon that is not built for Android serves none of the
    Android services: a name that starts with one of their prefixes gets
    no descriptor - it is none of the services of every build either. *)
Theorem android_services_only_on_android (os : Os) (name prefix : string)
    (t : Transport.atransport) :
  ANDROID os = false ->
  prefix ∈ ["abb:"; "abb_exec:"; "framebuffer:"; "remount:"; "reboot:"; "root:"; "unroot:";
            "backup:"; "restore:"; "disable-verity:"; "enable-verity:"; "tcpip:"; "usb:"] ->
  StartsWith name prefix = true ->
  daemon_service_to_fd os name t = -1.
Proof.
  intros Hbuild Hprefix [rest ->]%StartsWith_app.
  unfold daemon_service_to_fd. rewrite Hbuild. cbn [andb].
  destruct (is_in_tradeinmode os && _); [reflexivity|].
  repeat (apply elem_of_cons in Hprefix as [->|Hprefix]; [reflexivity|]).
  apply elem_of_nil in Hprefix. contradiction.
Qed.

Lemma android_services_only_on_android_witness :
  daemon_service_to_fd Builds.host "reboot:bootloader" Tests.t = -1.
Proof.
  apply (android_services_only_on_android Builds.host "reboot:bootloader" "reboot:");
    [reflexivity| |reflexivity].
  do 4 right. left.
Defined.

(** X7. [abb:] and [abb_exec:] are served by [execute_abb_command], with
    the whole name, on an Android build that is not a recovery build, and
    nowhere else: in recovery and off Android they get no descriptor. *)
Theorem abb_only_on_android_proper (os : Os) (name : string) (t : Transport.atransport) :
  StartsWith name "abb:" || StartsWith name "abb_exec:" = true ->
  daemon_service_to_fd os name t =
    if refused os name then -1
    else if ANDROID os && negb (ANDROID_RECOVERY os) then execute_abb_command os name
    else -1.
Proof.
  intros Habb. unfold daemon_service_to_fd, refused. rewrite Habb, andb_true_r.
  destruct (is_in_tradeinmode os && _); [reflexivity|].
  destruct (ANDROID os) eqn:Hbuild, (ANDROID_RECOVERY os); try reflexivity.
  all: apply orb_true_iff in Habb as [[rest ->]%StartsWith_app|[rest ->]%StartsWith_app];
    reflexivity.
Qed.

Lemma abb_only_on_android_proper_witness :
  daemon_service_to_fd Tests.os "abb:package" Tests.t = 10 /\
  daemon_service_to_fd Builds.host "abb_exec:package" Tests.t = -1.
Proof.
  split.
  - apply (abb_only_on_android_proper Tests.os "abb:package" Tests.t). reflexivity.
  - apply (abb_only_on_android_proper Builds.host "abb_exec:package" Tests.t).
    reflexivity.
Defined.

(** *** Failures *)

(** X8. [dev-raw:<path>] gives a descriptor only when the device
    opened and both terminal calls succeeded on it, and then it is the
    descriptor of the device. *)
Theorem dev_raw_descriptor (os : Os) (path : string) (t : Transport.atransport) (fd : Z) :
  daemon_service_to_fd os ("dev-raw:" +:+ path) t = fd -> fd <> -1 ->
  fd = unix_open os path /\ tcgetattr os fd <> -1 /\ tcsetattr os fd <> -1.
Proof.
  unfold daemon_service_to_fd, android_service_to_fd, common_service_to_fd. simpl.
  destruct (is_in_tradeinmode os && _); [congruence|].
  assert (Hraw : (if unix_open os path =? -1 then -1
                  else if tcgetattr os (unix_open os path) =? -1 then -1
                  else if tcsetattr os (unix_open os path) =? -1 then -1
                  else unix_open os path) = fd ->
                 fd <> -1 ->
                 fd = unix_open os path /\ tcgetattr os fd <> -1 /\ tcsetattr os fd <> -1).
  { destruct (Z.eqb_spec (unix_open os path) (-1)); [congruence|].
    destruct (Z.eqb_spec (tcgetattr os (unix_open os path)) (-1)); [congruence|].
    destruct (Z.eqb_spec (tcsetattr os (unix_open os path)) (-1)); [congruence|].
    intros <- _. auto. }
  destruct (ANDROID os), (ANDROID_RECOVERY os); exact Hraw.
Qed.

Lemma dev_raw_descriptor_witness :
  13 = unix_open Tests.os "/dev/ttyS0" /\
  tcgetattr Tests.os 13 <> -1 /\ tcsetattr Tests.os 13 <> -1.
Proof.
  apply (dev_raw_descriptor Tests.os "/dev/ttyS0" Tests.t 13); [reflexivity|discriminate].
Defined.

(** X9. A number that does not parse gives no descriptor: [tcpip:] (on
    Android) with a port that [sscanf] does not read, and [jdwp:] with a
    process id that is not an unsigned decimal number of the range of
    [pid_t]. *)
Theorem unparsed_numbers (os : Os) (prefix digits : string) (t : Transport.atransport) :
  (prefix = "tcpip:" /\ ANDROID os = true /\ sscanf_d os digits = None) \/
  (prefix = "jdwp:" /\ ParseUint INT_MAX digits = None) ->
  daemon_service_to_fd os (prefix +:+ digits) t = -1.
Proof.
  unfold daemon_service_to_fd, android_service_to_fd, common_service_to_fd.
  intros [(-> & -> & Hscan)|[-> Hparse]]; simpl.
  - rewrite Hscan. destruct (is_in_tradeinmode os && _), (ANDROID_RECOVERY os); reflexivity.
  - rewrite Hparse. builds os.
Qed.

Lemma unparsed_numbers_witness :
  daemon_service_to_fd Tests.os "jdwp:4294967296" Tests.t = -1.
Proof.
  apply (unparsed_numbers Tests.os "jdwp:" "4294967296" Tests.t).
  right. split; reflexivity.
Defined.

(** X11. The [CHECK] of the transport in the constructor of the service
    sockets: without a transport, [sink:<n>] and [source:<n>] abort the
    daemon when the count parses, and return null, as with a transport,
    when it does not - the count is parsed first. *)
Theorem CHECK_transport (jdwp tracker app : M (option ptr)) (prefix digits : string)
    (w : World) :
  prefix = "sink:" \/ prefix = "source:" ->
  daemon_service_to_socket jdwp tracker app (prefix +:+ digits) None w =
    match ParseUint UINT64_MAX digits with
    | Some _ => Aborted
    | None => Done None w
    end.
Proof.
  intros [-> | ->]; unfold daemon_service_to_socket.
  - change (String.eqb ("sink:" +:+ digits) "jdwp") with false.
    change (String.eqb ("sink:" +:+ digits) "track-jdwp") with false.
    change (String.eqb ("sink:" +:+ digits) "track-app") with false.
    cbv iota. rewrite ConsumePrefix_app.
    destruct (ParseUint UINT64_MAX digits); reflexivity.
  - change (String.eqb ("source:" +:+ digits) "jdwp") with false.
    change (String.eqb ("source:" +:+ digits) "track-jdwp") with false.
    change (String.eqb ("source:" +:+ digits) "track-app") with false.
    cbv iota.
    change (ConsumePrefix ("source:" +:+ digits) "sink:") with (@None string).
    cbv iota. rewrite ConsumePrefix_app.
    destruct (ParseUint UINT64_MAX digits); reflexivity.
Qed.

Lemma CHECK_transport_witness :
  daemon_service_to_socket (Tests.jdwp Tests.t) (Tests.jdwp Tests.t) (Tests.jdwp Tests.t)
    "sink:1000" None Tests.w0 = Aborted.
Proof.
  apply (CHECK_transport (Tests.jdwp Tests.t) (Tests.jdwp Tests.t) (Tests.jdwp Tests.t)
           "sink:" "1000" Tests.w0).
  left. reflexivity.
Defined.

End DescriptorSpec.

(** ** Streams of calls on the sink and source sockets *)

Module StreamSpec.
Import Strings StringFacts Services ServiceSpec Streams.
Local Open Scope Z_scope.

Lemma set_kind_same (x : asocket) (k : socket_kind) : kind x = k -> set_kind x k = x.
Proof. destruct x. simpl. intros ->. reflexivity. Qed.

Lemma total_nonneg (datas : list payload_type) : 0 <= total datas.
Proof.
  induction datas as [|data rest IH]; simpl; [lia|]. pose proof (size_nonneg data). lia.
Qed.

Section Pair.

(** A service socket at [s] and its peer [y] at [p]. *)
Variables (s p : ptr) (y : asocket).
Hypothesis Hne : s <> p.

(** A write that the sink takes. *)
Lemma sink_accepts fuel w x bytes_left data :
  sockets w !! s = Some x -> kind x = SinkSocket bytes_left ->
  0 <= bytes_left <= SIZE_MAX -> peer x = Some p -> sockets w !! p = Some y ->
  size data < bytes_left ->
  call (S fuel) (enqueue data) s w =
    Done 0 (mk_World (<[s := set_kind x (SinkSocket (bytes_left - size data))]> (sockets w))
              (local_socket_list w) (local_socket_next_id w)
              (trace w ++ [Sent (Transport.id (transport x))
                             (mk_apacket A_OKAY (id x) (id y) [])])).
Proof.
  intros Hs Hk Hrange Hp Hy Hlt. exec.
  destruct (Z.leb_spec bytes_left (size data)); [lia|]. exec.
  unfold set_sockets. cbn.
  rewrite size_sub_exact by (pose proof (size_nonneg data); lia). reflexivity.
Qed.

(** A write that fills the sink. *)
Lemma sink_closes fuel w x bytes_left data :
  sockets w !! s = Some x -> kind x = SinkSocket bytes_left ->
  peer x = Some p -> sockets w !! p = Some y -> kind y = RemoteSocket false ->
  bytes_left <= size data ->
  call (S (S fuel)) (enqueue data) s w =
    Done (-1) (closed_pair w s p
                 [Sent (Transport.id (transport x)) (mk_apacket A_OKAY (id x) (id y) []);
                  Sent (Transport.id (transport y)) (mk_apacket A_CLSE 0 (id y) [])]).
Proof.
  intros Hs Hk Hp Hy Hky Hle.
  change (call (S (S fuel)) (enqueue data) s w)
    with (methods (call (S fuel)) (enqueue data) s w).
  unfold methods, bind, deref. rewrite Hs, Hk.
  unfold ServiceSocket_enqueue, bind, deref, deref_opt. rewrite Hs, Hp. unfold deref. rewrite Hy.
  unfold send_ready, send_packet, emit, Enqueue, bind, deref.
  cbn [sockets set_trace]. rewrite Hs, Hk.
  unfold SinkSocket_Enqueue, bind, deref. cbn [sockets set_trace]. rewrite Hs, Hk.
  destruct (Z.leb_spec bytes_left (size data)); [|lia].
  erewrite (ServiceSocket_Close_remote fuel _ s p x y false);
    [|exact Hs|exact Hp|exact Hne|exact Hy|exact Hky].
  unfold ret, closed_pair. cbn. rewrite <- app_assoc. reflexivity.
Qed.

(** The writes that the sink takes, and then the others. *)
Lemma deliver_all fuel datas : forall w x bytes_left,
  sockets w !! s = Some x -> kind x = SinkSocket bytes_left ->
  0 <= bytes_left <= SIZE_MAX -> peer x = Some p -> sockets w !! p = Some y ->
  total datas < bytes_left ->
  forall rest,
  deliver (S fuel) s (datas ++ rest) w =
    (let! n := deliver (S fuel) s rest in ret (length datas + n)%nat)
      (mk_World (<[s := set_kind x (SinkSocket (bytes_left - total datas))]> (sockets w))
         (local_socket_list w) (local_socket_next_id w)
         (trace w ++ replicate (length datas)
                       (Sent (Transport.id (transport x))
                          (mk_apacket A_OKAY (id x) (id y) [])))).
Proof.
  induction datas as [|data datas IH]; intros w x bytes_left Hs Hk Hrange Hp Hy Hlt rest.
  - simpl. rewrite Z.sub_0_r, app_nil_r.
    rewrite (set_kind_same x _ Hk).
    rewrite insert_id by exact Hs.
    destruct w. unfold bind. cbn. destruct (deliver _ _ _ _); reflexivity.
  - simpl in Hlt. pose proof (total_nonneg datas). pose proof (size_nonneg data).
    cbn [app deliver]. unfold bind at 1.
    rewrite (sink_accepts fuel w x bytes_left data) by (assumption || lia).
    cbn [Z.eqb]. unfold bind at 1.
    erewrite IH; cycle 1.
    { cbn [sockets]. apply lookup_insert_eq. }
    { reflexivity. }
    { lia. }
    { exact Hp. }
    { cbn [sockets]. rewrite lookup_insert_ne by congruence. exact Hy. }
    { lia. }
    cbn [sockets local_socket_list local_socket_next_id trace set_kind id peer transport
         shutdown kind].
    rewrite insert_insert_eq. cbn [length replicate total foldr].
    rewrite <- app_assoc. cbn [app].
    replace (bytes_left - size data - total datas)
      with (bytes_left - (size data + total datas)) by lia.
    unfold bind, ret.
    destruct (deliver (S fuel) s rest _); reflexivity.
Qed.

(** X12. A sink of [n] bytes takes strictly fewer than [n] bytes. Paired
    with the remote socket of the peer's stream, it takes every write of
    a sequence whose sizes add up to less than [n], returns an OKAY for
    each and has [n] less their total left; the write that brings the
    total to [n] or more is acknowledged as well, and then the sink
    closes: the peer gets the CLSE, both sockets are gone, and no later
    write is looked at. *)
Theorem SinkSocket_capacity (fuel : nat) (w : World) (x : asocket) (n : Z)
    (before after : list payload_type) (last : payload_type) :
  sockets w !! s = Some x -> kind x = SinkSocket n -> 0 <= n <= SIZE_MAX ->
  peer x = Some p -> sockets w !! p = Some y -> kind y = RemoteSocket false ->
  total before < n ->
  let okay := Sent (Transport.id (transport x)) (mk_apacket A_OKAY (id x) (id y) []) in
  let clse := Sent (Transport.id (transport y)) (mk_apacket A_CLSE 0 (id y) []) in
  deliver (S fuel) s before w =
    Done (length before)
      (mk_World (<[s := set_kind x (SinkSocket (n - total before))]> (sockets w))
         (local_socket_list w) (local_socket_next_id w)
         (trace w ++ replicate (length before) okay)) /\
  (n <= total before + size last ->
   deliver (S (S fuel)) s (before ++ last :: after) w =
     Done (length before)
       (closed_pair w s p (replicate (length before) okay ++ [okay; clse]))).
Proof.
  intros Hs Hk Hrange Hp Hy Hky Hlt okay clse. split.
  - rewrite <- (app_nil_r before) at 1.
    rewrite (deliver_all fuel before w x n Hs Hk Hrange Hp Hy Hlt []).
    unfold bind, ret. cbn [deliver]. unfold ret. rewrite Nat.add_0_r. reflexivity.
  - intros Hfull.
    rewrite (deliver_all (S fuel) before w x n Hs Hk Hrange Hp Hy Hlt (last :: after)).
    cbn [deliver]. unfold bind.
    erewrite (sink_closes fuel _ (set_kind x (SinkSocket (n - total before))));
      [|cbn [sockets]; apply lookup_insert_eq|reflexivity|exact Hp
       |cbn [sockets]; rewrite lookup_insert_ne by congruence; exact Hy|exact Hky|lia].
    cbn [Z.eqb]. unfold ret, closed_pair.
    cbn [sockets local_socket_list local_socket_next_id trace set_kind id peer transport
         shutdown kind].
    rewrite Nat.add_0_r, (delete_delete _ s p), delete_insert_eq, <- app_assoc.
    rewrite (delete_delete _ p s). reflexivity.
Qed.

Section Source.

(** The peer is a remote socket. *)
Variable c : bool.
Hypothesis Hky : kind y = RemoteSocket c.

(** A [ready] with bytes left. *)
Lemma source_sends fuel w x bytes_left :
  sockets w !! s = Some x -> kind x = SourceSocket bytes_left ->
  0 < bytes_left <= SIZE_MAX -> peer x = Some p -> sockets w !! p = Some y ->
  peer y = Some s -> 0 < get_max_payload x ->
  let len := Z.min bytes_left (get_max_payload x) in
  call (S (S fuel)) ready s w =
    Done 0 (mk_World (<[s := set_kind x (SourceSocket (bytes_left - len))]> (sockets w))
              (local_socket_list w) (local_socket_next_id w)
              (trace w ++ [Sent (Transport.id (transport y))
                             (mk_apacket A_WRTE (id x) (id y) (zero_block len))])).
Proof.
  intros Hs Hk Hrange Hp Hy Hpy Hmax len.
  assert (Hnz : (len =? 0) = false) by (apply Z.eqb_neq; unfold len; lia).
  exec. fold len. rewrite Hnz. exec.
  unfold set_sockets. cbn.
  rewrite size_sub_exact by (unfold len; lia). reflexivity.
Qed.

(** A [ready] with no bytes left. *)
Lemma source_closes fuel w x :
  sockets w !! s = Some x -> kind x = SourceSocket 0 ->
  peer x = Some p -> sockets w !! p = Some y -> 0 < get_max_payload x ->
  call (S (S fuel)) ready s w =
    Done 0 (closed_pair w s p
              (if c then []
               else [Sent (Transport.id (transport y)) (mk_apacket A_CLSE 0 (id y) [])])).
Proof.
  intros Hs Hk Hp Hy Hmax.
  change (call (S (S fuel)) ready s w) with (methods (call (S fuel)) ready s w).
  unfold methods, bind, deref. rewrite Hs, Hk.
  unfold void, Ready, bind, deref. rewrite Hs, Hk.
  unfold SourceSocket_Ready, bind, deref. rewrite Hs, Hk.
  replace (Z.min 0 (get_max_payload x) =? 0) with true.
  2:{ symmetry. apply Z.eqb_eq. lia. }
  erewrite (ServiceSocket_Close_remote fuel _ s p x y c);
    [|exact Hs|exact Hp|exact Hne|exact Hy|exact Hky].
  reflexivity.
Qed.

(** X13. A source of [n] bytes sends exactly [n] bytes. Paired with the
    remote socket of the peer's stream on a transport with a positive
    payload bound, and granted credit for as long as it is live ([steps]
    times is enough when [n <= steps * max_payload]): it sends WRTE
    packets whose payloads are zero bytes, each of them non-empty and
    within the payload bound, [n] bytes in all; then it closes, the peer
    gets the CLSE (unless it went out before), and both sockets are
    gone. *)
Theorem SourceSocket_total (fuel steps : nat) : forall (w : World) (x : asocket) (n : Z),
  sockets w !! s = Some x -> kind x = SourceSocket n -> 0 <= n <= SIZE_MAX ->
  peer x = Some p -> sockets w !! p = Some y -> peer y = Some s ->
  0 < get_max_payload x -> n <= Z.of_nat steps * get_max_payload x ->
  let wrte block := Sent (Transport.id (transport y)) (mk_apacket A_WRTE (id x) (id y) block) in
  let clse := Sent (Transport.id (transport y)) (mk_apacket A_CLSE 0 (id y) []) in
  exists blocks,
    drain (S (S fuel)) (S steps) s w =
      Done tt (closed_pair w s p (map wrte blocks ++ (if c then [] else [clse]))) /\
    total blocks = n /\
    Forall (fun block => 0 < size block <= get_max_payload x /\
                         Forall (fun b => b = Byte.x00) block) blocks.
Proof.
  induction steps as [|steps IH]; intros w x n Hs Hk Hrange Hp Hy Hpy Hmax Hsteps wrte clse.
  - assert (n = 0) as -> by lia. exists []. split; [|split; [reflexivity|constructor]].
    cbn [drain]. rewrite Hs. unfold bind.
    rewrite (source_closes fuel w x Hs Hk Hp Hy Hmax). reflexivity.
  - destruct (decide (n = 0)) as [->|Hpos].
    + exists []. split; [|split; [reflexivity|constructor]].
      cbn [drain]. rewrite Hs. unfold bind.
      rewrite (source_closes fuel w x Hs Hk Hp Hy Hmax).
      unfold closed_pair. cbn [sockets]. rewrite lookup_delete_eq. reflexivity.
    + set (len := Z.min n (get_max_payload x)).
      assert (Hlen : 0 < len <= get_max_payload x) by (unfold len; lia).
      set (x1 := set_kind x (SourceSocket (n - len))).
      set (w1 := mk_World (<[s := x1]> (sockets w)) (local_socket_list w)
                   (local_socket_next_id w) (trace w ++ [wrte (zero_block len)])).
      destruct (IH w1 x1 (n - len)) as (blocks & Hrun & Htotal & Hblocks).
      { apply lookup_insert_eq. }
      { reflexivity. }
      { unfold len. lia. }
      { exact Hp. }
      { cbn [w1 sockets]. rewrite lookup_insert_ne by congruence. exact Hy. }
      { exact Hpy. }
      { exact Hmax. }
      { change (get_max_payload x1) with (get_max_payload x). unfold len. nia. }
      exists (zero_block len :: blocks). split; [|split].
      * change (drain (S (S fuel)) (S (S steps)) s w)
          with (match sockets w !! s with
                | Some _ => (call (S (S fuel)) ready s >> drain (S (S fuel)) (S steps) s) w
                | None => Done tt w
                end).
        rewrite Hs. unfold bind.
        rewrite (source_sends fuel w x n Hs Hk ltac:(lia) Hp Hy Hpy Hmax).
        fold len. fold x1. fold (wrte (zero_block len)). fold w1. rewrite Hrun.
        unfold closed_pair, w1.
        cbn [sockets local_socket_list local_socket_next_id trace map].
        rewrite (delete_delete _ s p), delete_insert_eq, (delete_delete _ p s).
        rewrite <- app_assoc. reflexivity.
      * cbn [total foldr]. fold (total blocks). rewrite zero_block_size by lia. lia.
      * constructor; [|exact Hblocks].
        rewrite zero_block_size by lia. split; [exact Hlen|apply zero_block_zero].
Qed.

End Source.

End Pair.

Lemma SinkSocket_capacity_witness :
  let w := Tests.opened (SinkSocket 1000) in
  let okay := Sent 0 (mk_apacket A_OKAY 1 77 []) in
  let clse := Sent 0 (mk_apacket A_CLSE 0 77 []) in
  deliver 2 0%nat [Tests.bytes 100; Tests.bytes 200; Tests.bytes 700; Tests.bytes 1] w =
    Done 2%nat (closed_pair w 0%nat 1%nat [okay; okay; okay; clse]).
Proof.
  refine (proj2 (SinkSocket_capacity 0%nat 1%nat Tests.remote _ 0
                   (Tests.opened (SinkSocket 1000)) (Tests.service (SinkSocket 1000)) 1000
                   [Tests.bytes 100; Tests.bytes 200] [Tests.bytes 1] (Tests.bytes 700)
                   eq_refl eq_refl _ eq_refl eq_refl eq_refl _) _).
  - discriminate.
  - vm_compute. intuition discriminate.
  - reflexivity.
  - vm_compute. discriminate.
Defined.

Lemma SourceSocket_total_witness :
  let w := Tests.opened (SourceSocket 5000) in
  exists blocks,
    drain 2 3 0%nat w =
      Done tt (closed_pair w 0%nat 1%nat
                 (map (fun block => Sent 0 (mk_apacket A_WRTE 1 77 block)) blocks ++
                  [Sent 0 (mk_apacket A_CLSE 0 77 [])])) /\
    total blocks = 5000 /\
    Forall (fun block => 0 < size block <= 4096 /\ Forall (fun b => b = Byte.x00) block) blocks.
Proof.
  refine (SourceSocket_total 0%nat 1%nat Tests.remote _ false eq_refl 0 2
            (Tests.opened (SourceSocket 5000)) (Tests.service (SourceSocket 5000)) 5000
            eq_refl eq_refl _ eq_refl eq_refl eq_refl _ _).
  - discriminate.
  - vm_compute. intuition discriminate.
  - reflexivity.
  - vm_compute. discriminate.
Defined.

(** *** Data for a socket that takes none *)

(** X14. A plain service socket and a source socket take no data: for a
    write from the peer the OKAY goes back, [enqueue] returns -1, and
    nothing else happens - the socket stays open and a source has the
    bytes left that it had. *)
Theorem refuses_data (fuel : nat) (s p : ptr) (w : World) (x y : asocket)
    (data : payload_type) :
  sockets w !! s = Some x ->
  kind x = ServiceSocket \/ (exists bytes_left, kind x = SourceSocket bytes_left) ->
  peer x = Some p -> sockets w !! p = Some y ->
  call (S fuel) (enqueue data) s w =
    Done (-1) (set_trace w (trace w ++ [Sent (Transport.id (transport x))
                                          (mk_apacket A_OKAY (id x) (id y) [])])).
Proof.
  intros Hs [Hk|[bytes_left Hk]] Hp Hy; exec; reflexivity.
Qed.

Lemma refuses_data_witness :
  let w := Tests.opened (SourceSocket 5000) in
  call 1 (enqueue (Tests.bytes 3)) 0%nat w =
    Done (-1) (set_trace w [Sent 0 (mk_apacket A_OKAY 1 77 [])]).
Proof.
  apply (refuses_data 0 0%nat 1%nat (Tests.opened (SourceSocket 5000))
           (Tests.service (SourceSocket 5000)) Tests.remote (Tests.bytes 3));
    try reflexivity.
  right. exists 5000. reflexivity.
Defined.

(** *** Close *)

(** What a close makes of the pairing, for any socket. *)
Lemma close_peers (fuel : nat) (s : ptr) (w w' : World) (x : asocket) (r : Z) :
  sockets w !! s = Some x ->
  call fuel close s w = Done r w' ->
  peers w' = delete s (match peer x with Some p => delete p (peers w) | None => peers w end).
Proof.
  intros Hs. destruct fuel as [|fuel]; [discriminate|].
  cbn [call]. unfold methods. intros H. minv; simplify_eq.
  all: unfold ServiceSocket_Close, remote_socket_close, local_socket_close in *.
  all: minv; simplify_eq.
  all: try cascade.
  all: repeat match goal with H : peer ?x = _ |- context [peer ?x] => rewrite H end.
  all: peers_tail; try reflexivity.
Qed.

Lemma remove_socket_list (s : ptr) (w w' : World) (u : unit) :
  remove_socket s w = Done u w' ->
  local_socket_list w' = filter (fun a => a <> s) (local_socket_list w).
Proof. intros [= _ <-]. reflexivity. Qed.

Ltac shrinks_tac :=
  repeat match goal with
  | H : remove_socket _ _ = Done _ _ |- _ => apply remove_socket_list in H
  end;
  unfold shrinks in *; cbn [local_socket_list set_trace set_sockets] in *;
  intros ? ?;
  repeat match goal with
  | H : local_socket_list ?w = _ |- _ => rewrite H in *; clear H
  | H : _ ∈ filter _ _ |- _ => apply list_elem_of_filter in H as [_ H]
  | H : forall a, a ∈ local_socket_list ?w -> _, Ha : _ ∈ local_socket_list ?w |- _ =>
      apply H in Ha
  end;
  try assumption.

(** No call through a callback adds a socket to the registry. *)
Lemma call_shrinks fuel o s w r w' : call fuel o s w = Done r w' -> shrinks w w'.
Proof.
  revert o s w r w'. induction fuel as [|fuel IH]; intros o s w r w'; [discriminate|].
  cbn [call]. unfold methods. intros H. minv.
  all: unfold ServiceSocket_enqueue, Enqueue, Ready, remote_socket_enqueue,
         remote_socket_ready, remote_socket_shutdown, local_socket_enqueue,
         ServiceSocket_Enqueue, ServiceSocket_Ready,
         ServiceSocket_Close, remote_socket_close, local_socket_close in *.
  all: minv.
  all: unfold SinkSocket_Enqueue, SourceSocket_Ready, remote_socket_send_close in *.
  all: minv.
  all: unfold ServiceSocket_Close in *.
  all: minv.
  all: repeat match goal with
       | H : call _ _ _ _ = Done _ _ |- _ => apply IH in H
       end.
  all: shrinks_tac.
Qed.

(** X15. A close of a service socket takes the socket and its peer, and
    nothing else: afterwards neither of the two is live, every other
    socket is live as before and has the peer it had, and the registry
    has lost the socket and gained none. This holds for a peer of any
    kind. *)
Theorem close_takes_the_pair (fuel : nat) (s : ptr) (w w' : World) (x : asocket) (r : Z) :
  sockets w !! s = Some x -> is_service (kind x) ->
  call fuel close s w = Done r w' ->
  sockets w' !! s = None /\
  (forall p, peer x = Some p -> sockets w' !! p = None) /\
  (forall q, q <> s -> peer x <> Some q ->
     peer <$> sockets w' !! q = peer <$> sockets w !! q) /\
  (forall a, a ∈ local_socket_list w' -> a ∈ local_socket_list w /\ a <> s).
Proof.
  intros Hs Hservice Hclose.
  pose proof (close_peers _ _ _ _ _ _ Hs Hclose) as Hpeers.
  assert (Hlookup : forall q, peer <$> sockets w' !! q = peers w' !! q).
  { intros q. unfold peers. rewrite lookup_fmap. reflexivity. }
  assert (Hnone : forall q, peers w' !! q = None -> sockets w' !! q = None).
  { intros q. rewrite <- Hlookup. destruct (sockets w' !! q); [discriminate|reflexivity]. }
  split; [|split; [|split]].
  - apply Hnone. rewrite Hpeers. apply lookup_delete_eq.
  - intros p Hp. apply Hnone. rewrite Hpeers, Hp.
    destruct (decide (s = p)) as [->|Hne]; [apply lookup_delete_eq|].
    rewrite lookup_delete_ne by exact Hne. apply lookup_delete_eq.
  - intros q Hq Hpq. rewrite Hlookup, Hpeers, lookup_delete_ne by congruence.
    destruct (peer x) as [p|].
    + rewrite lookup_delete_ne by congruence. unfold peers. apply lookup_fmap.
    + unfold peers. apply lookup_fmap.
  - intros a Ha. split; [eapply call_shrinks; eassumption|].
    destruct fuel as [|fuel]; [discriminate|].
    cbn [call] in Hclose. unfold methods in Hclose. minv; simplify_eq.
    all: match goal with
         | H : kind ?x = _, H' : is_service (kind ?x) |- _ => rewrite H in H'
         end.
    all: try contradiction.
    all: unfold ServiceSocket_Close in *; minv.
    all: repeat match goal with
         | H : remove_socket _ _ = Done _ _ |- _ => apply remove_socket_list in H
         end.
    all: cbn [local_socket_list set_sockets] in Ha.
    all: match goal with H : local_socket_list _ = _ |- _ => rewrite H in Ha end.
    all: apply list_elem_of_filter in Ha as [Ha _]; exact Ha.
Qed.

Lemma close_takes_the_pair_witness :
  let w' := closed_pair (Tests.opened (SinkSocket 1000)) 0%nat 1%nat
              [Sent 0 (mk_apacket A_CLSE 0 77 [])] in
  sockets w' !! 0%nat = None /\
  (forall p, Some 1%nat = Some p -> sockets w' !! p = None) /\
  (forall q, q <> 0%nat -> Some 1%nat <> Some q ->
     peer <$> sockets w' !! q = peer <$> sockets (Tests.opened (SinkSocket 1000)) !! q) /\
  (forall a, a ∈ local_socket_list w' -> a ∈ [0%nat] /\ a <> 0%nat).
Proof.
  apply (close_takes_the_pair 2 0%nat (Tests.opened (SinkSocket 1000)) _
           (Tests.service (SinkSocket 1000)) 0 eq_refl I).
  vm_compute. reflexivity.
Defined.

(** *** Nesting *)

(** X16. The callbacks nest three deep at most: a call through a
    function pointer of a socket of any kind, in any state of the
    process, returns (or faults) within three nested calls - a [ready]
    that enqueues to a peer that closes its own peer, which was unpaired
    before it was closed and closes no one - and a larger bound on the
    nesting gives the same result. *)
Theorem callbacks_nest_three_deep (fuel : nat) (o : op) (s : ptr) (w : World) :
  call (3 + fuel) o s w = call 3 o s w /\ call 3 o s w <> OutOfFuel.
Proof.
  split; [|apply (call_fuel_enough 0)].
  apply call_fuel_mono; [lia|apply (call_fuel_enough 0)].
Qed.

End StreamSpec.

(** ** The start of the daemon *)

Module DaemonSpec.
Import Strings StringFacts Daemon.
Local Open Scope Z_scope.

(** *** System properties *)

Lemma GetProperty_value (props : Properties) (key value : string) :
  value <> "" ->
  GetProperty props key "" = value <-> props !! key = Some value.
Proof.
  intros Hne. unfold GetProperty. destruct (props !! key) as [v|].
  - destruct (String.eqb_spec v "") as [->|Hv]; split; congruence.
  - split; congruence.
Qed.

Lemma ParseBool_false (s : string) :
  ParseBool s = Some false <-> s ∈ ["0"; "n"; "no"; "off"; "false"].
Proof.
  split.
  - unfold ParseBool. destruct (existsb _ ["1"; "y"; "yes"; "on"; "true"]); [discriminate|].
    destruct (existsb _ ["0"; "n"; "no"; "off"; "false"]) eqn:Hword; [|discriminate].
    intros _. apply existsb_exists in Hword as (word & Hin & Heq).
    apply String.eqb_eq in Heq as ->. apply list_elem_of_In, Hin.
  - intros H. repeat (apply elem_of_cons in H as [->|H]; [reflexivity|]).
    apply elem_of_nil in H. contradiction.
Qed.

Lemma false_word_nonempty (value : string) :
  value ∈ ["0"; "n"; "no"; "off"; "false"] -> value <> "".
Proof.
  intros Hword ->. repeat (apply elem_of_cons in Hword as [Hword|Hword]; [discriminate|]).
  apply elem_of_nil in Hword. contradiction.
Qed.

(** A boolean property with the default [true] is false only when it is
    set to one of the words for false. *)
Lemma GetBoolProperty_false (props : Properties) (key : string) :
  GetBoolProperty props key true = false <->
  exists value, props !! key = Some value /\ value ∈ ["0"; "n"; "no"; "off"; "false"].
Proof.
  unfold GetBoolProperty.
  destruct (ParseBool (GetProperty props key "")) as [[|]|] eqn:Hparse.
  - split; [discriminate|]. intros (value & Hvalue & Hword).
    apply (GetProperty_value props key value) in Hvalue; [|apply false_word_nonempty, Hword].
    apply ParseBool_false in Hword. congruence.
  - split; [intros _|reflexivity].
    apply ParseBool_false in Hparse. exists (GetProperty props key "").
    split; [|exact Hparse].
    apply GetProperty_value; [apply false_word_nonempty, Hparse|reflexivity].
  - split; [discriminate|]. intros (value & Hvalue & Hword).
    apply (GetProperty_value props key value) in Hvalue; [|apply false_word_nonempty, Hword].
    apply ParseBool_false in Hword. congruence.
Qed.

(** *** Privileges *)

(** X17. When the daemon keeps root. [should_drop_privileges] is false
    exactly when [service.adb.root] is not "0" (no [adb unroot]) and
    either [ro.secure] is set to a word for false, or the build is
    debuggable and [service.adb.root] is "1" ([adb root]). So [adb root]
    does nothing on a build that is not debuggable, and a build without
    [ro.secure] drops the privileges by default. *)
Theorem keeps_root (sys : System) (props : Properties) :
  should_drop_privileges sys props = false <->
  props !! "service.adb.root" <> Some "0" /\
  ((exists value, props !! "ro.secure" = Some value /\
                  value ∈ ["0"; "n"; "no"; "off"; "false"]) \/
   (android_log_is_debuggable sys = true /\ props !! "service.adb.root" = Some "1")).
Proof.
  rewrite <- GetBoolProperty_false.
  rewrite <- !(GetProperty_value props "service.adb.root") by discriminate.
  unfold should_drop_privileges.
  destruct (String.eqb_spec (GetProperty props "service.adb.root" "") "0") as [H0|H0].
  { split; [discriminate|]. tauto. }
  destruct (String.eqb_spec (GetProperty props "service.adb.root" "") "1") as [H1|H1].
  - destruct (android_log_is_debuggable sys); cbn [andb].
    + tauto.
    + split; [tauto|]. intros [_ [H|[H _]]]; [exact H|discriminate].
  - rewrite andb_false_r. split; [tauto|]. intros [_ [H|[_ H]]]; [exact H|contradiction].
Qed.

Lemma unroot_drops (sys : System) (props : Properties) :
  should_drop_privileges sys (SetProperty props "service.adb.root" "0") = true.
Proof.
  unfold should_drop_privileges, SetProperty.
  assert (GetProperty (<["service.adb.root" := "0"]> props) "service.adb.root" "" = "0") as ->.
  { unfold GetProperty. rewrite lookup_insert_eq. reflexivity. }
  reflexivity.
Qed.

(** X18. No restart loop as root. When [drop_privileges] was to keep
    root and ends in a fatal error - the transition to the SELinux
    context of root failed - it has set [service.adb.root] to "0", so
    that the daemon drops its privileges when it starts again, on any
    build and whatever else the properties say. *)
Theorem failed_root_drops_next_time (sys sys' : System)
    (root_seclabel tim_seclabel : option string) (st st' : Adbd) :
  should_drop_privileges sys (properties st) = false ->
  drop_privileges sys root_seclabel tim_seclabel st = Fatal st' ->
  properties st' !! "service.adb.root" = Some "0" /\
  should_drop_privileges sys' (properties st') = true.
Proof.
  intros Hkeep. unfold drop_privileges. cbn [act properties]. rewrite Hkeep.
  destruct root_seclabel as [seclabel|]; [|discriminate].
  destruct (selinux_android_setcon sys seclabel <? 0); [|discriminate].
  intros [= <-]. cbn [set_properties properties]. split.
  - apply lookup_insert_eq.
  - apply unroot_drops.
Qed.

Lemma failed_root_drops_next_time_witness :
  exists st',
    drop_privileges Tests.userdebug (Some "u:r:su:s0") None Tests.rooted = Fatal st' /\
    properties st' !! "service.adb.root" = Some "0" /\
    should_drop_privileges Tests.userdebug (properties st') = true.
Proof.
  eexists. split; [reflexivity|].
  apply (failed_root_drops_next_time Tests.userdebug Tests.userdebug (Some "u:r:su:s0") None
           Tests.rooted); reflexivity.
Defined.

(** What [drop_privileges] makes of [auth_required]. *)
Lemma drop_privileges_auth (sys : System) (root_seclabel tim_seclabel : option string)
    (st st' : Adbd) :
  drop_privileges sys root_seclabel tim_seclabel st = Running st' ->
  auth_required st' =
    if should_drop_privileges sys (properties st) &&
       (should_enter_tradeinmode sys || is_in_tradein_evaluation_mode sys)
    then false else auth_required st.
Proof.
  unfold drop_privileges. cbn [act properties].
  destruct (should_drop_privileges sys (properties st)); cbn [andb].
  - destruct (cap_clear_flag sys CAP_INHERITABLE =? -1); [discriminate|].
    destruct (cap_clear_flag sys CAP_EFFECTIVE =? -1); [discriminate|].
    destruct (cap_clear_flag sys CAP_PERMITTED =? -1); [discriminate|].
    destruct (cap_set_proc sys =? 0); [|discriminate]. cbn [negb].
    destruct (should_enter_tradeinmode sys), (is_in_tradein_evaluation_mode sys);
      intros [= <-]; destruct (android_log_is_debuggable sys); reflexivity.
  - destruct root_seclabel as [seclabel|].
    + destruct (selinux_android_setcon sys seclabel <? 0); [discriminate|].
      intros [= <-]. reflexivity.
    + intros [= <-]. reflexivity.
Qed.

Lemma listen_auth (addrs : list string) (st : Adbd) :
  auth_required (foldl (fun st addr => act st (init_transport_socket_server addr)) st addrs) =
    auth_required st.
Proof.
  revert st. induction addrs as [|addr addrs IH]; intros st; [reflexivity|].
  cbn [foldl]. rewrite IH. reflexivity.
Qed.

Lemma setup_adb_auth (sys : System) (addrs : list string) (st : Adbd) :
  auth_required (setup_adb sys addrs st) = auth_required st.
Proof. unfold setup_adb. rewrite listen_auth. destruct (ANDROID sys); reflexivity. Qed.

(** X19. On a locked production device the daemon does not touch
    [auth_required]: when the build is not debuggable, the verified boot
    state is not "orange" and the device is not in trade-in mode (entered
    or under evaluation), [adbd_main] reaches the event loop with the
    flag as it found it, whatever [ro.adb.secure] says. *)
Theorem locked_build_keeps_auth (sys : System) (root_seclabel tim_seclabel : option string)
    (st st' : Adbd) :
  android_log_is_debuggable sys = false ->
  properties st !! "ro.boot.verifiedbootstate" <> Some "orange" ->
  should_enter_tradeinmode sys = false -> is_in_tradein_evaluation_mode sys = false ->
  adbd_main sys root_seclabel tim_seclabel st = Running st' ->
  auth_required st' = auth_required st.
Proof.
  intros Hdebug Hlocked Htim Heval. unfold adbd_main.
  set (st0 := act (act (act st (umask 0)) signal_SIGPIPE_SIG_IGN) adbd_cloexec_auth_socket).
  assert (Hauth : adbd_main_auth sys st0 = st0).
  { unfold adbd_main_auth. rewrite Hdebug, orb_false_r.
    destruct (String.eqb_spec (GetProperty (properties st0) "ro.boot.verifiedbootstate" "")
                "orange") as [Horange|_]; [|destruct (ANDROID sys); reflexivity].
    apply GetProperty_value in Horange; [|discriminate]. contradiction. }
  rewrite Hauth.
  set (st1 := match getenv sys "ADB_EXTERNAL_STORAGE" with
              | Some v => act st0 (setenv_EXTERNAL_STORAGE v)
              | None => st0
              end).
  assert (H1 : auth_required st1 = auth_required st)
    by (unfold st1; destruct (getenv sys _); reflexivity).
  destruct (if ANDROID sys then drop_privileges sys root_seclabel tim_seclabel st1
            else Running st1) as [st2|st2] eqn:Hdrop; [|discriminate].
  assert (H2 : auth_required st2 = auth_required st).
  { destruct (ANDROID sys).
    - apply drop_privileges_auth in Hdrop. rewrite Htim, Heval, andb_false_r in Hdrop.
      congruence.
    - injection Hdrop as <-. exact H1. }
  intros [= <-]. cbn [act auth_required].
  destruct (adbd_main_addrs sys _ _); [rewrite setup_adb_auth|];
    destruct (ANDROID sys && _), (ANDROID sys); exact H2.
Qed.

Lemma locked_build_keeps_auth_witness :
  exists st',
    adbd_main Tests.device None None Tests.locked = Running st' /\
    auth_required st' = true.
Proof.
  eexists. split; [vm_compute; reflexivity|].
  apply (locked_build_keeps_auth Tests.device None None Tests.locked);
    [reflexivity|vm_compute; discriminate|reflexivity|reflexivity|vm_compute; reflexivity].
Defined.

(** *** What the daemon listens on *)

(** X20. What the daemon listens on without
    [service.adb.listen_addrs]. The port is read from one text: the
    value of [service.adb.tcp.port] when that is set and not empty; else
    the value of [persist.adb.tcp.port] when that is; else, off Android
    only, the value of [ADBD_PORT] in the environment when it is there;
    else the empty text. When [sscanf] reads a positive number from the
    text, the daemon listens on [tcp:<port>] and [vsock:<port>] for that
    number, with or without USB. When it does not, the daemon listens on
    [tcp:] and [vsock:] with the default port if there is no USB, and on
    nothing if there is USB. *)
Theorem adbd_main_addrs_ports (sys : System) (props : Properties) (is_usb : bool) :
  GetProperty props "service.adb.listen_addrs" "" = "" ->
  let service := GetProperty props "service.adb.tcp.port" "" in
  let persist := GetProperty props "persist.adb.tcp.port" "" in
  let pair port := ["tcp:" +:+ decimal port; "vsock:" +:+ decimal port] in
  let listens text :=
    match sscanf_d sys text with
    | Some port =>
        if 0 <? port then Some (pair port)
        else if is_usb then None
        else Some (pair (DEFAULT_ADB_LOCAL_TRANSPORT_PORT sys))
    | None =>
        if is_usb then None else Some (pair (DEFAULT_ADB_LOCAL_TRANSPORT_PORT sys))
    end in
  (service <> "" -> adbd_main_addrs sys props is_usb = listens service) /\
  (service = "" -> persist <> "" -> adbd_main_addrs sys props is_usb = listens persist) /\
  (service = "" -> persist = "" -> ANDROID sys = false ->
   forall text, getenv sys "ADBD_PORT" = Some text ->
   adbd_main_addrs sys props is_usb = listens text) /\
  (service = "" -> persist = "" ->
   ANDROID sys = true \/ getenv sys "ADBD_PORT" = None ->
   adbd_main_addrs sys props is_usb = listens "") /\
  (adbd_main_addrs sys props is_usb = None -> is_usb = true) /\
  (forall addrs, adbd_main_addrs sys props is_usb = Some addrs ->
   exists port, addrs = pair port /\
     (0 < port \/ (is_usb = false /\ port = DEFAULT_ADB_LOCAL_TRANSPORT_PORT sys))).
Proof.
  intros Haddr service persist pair listens.
  assert (Hlistens : forall text,
            (match sscanf_d sys text with
             | Some port =>
                 if 0 <? port then Some (pair port)
                 else if negb is_usb
                      then Some (pair (DEFAULT_ADB_LOCAL_TRANSPORT_PORT sys))
                      else None
             | None =>
                 if negb is_usb then Some (pair (DEFAULT_ADB_LOCAL_TRANSPORT_PORT sys))
                 else None
             end) = listens text).
  { intros text. unfold listens. destruct (sscanf_d sys text) as [port|], is_usb;
      try reflexivity; destruct (0 <? port); reflexivity. }
  assert (Hshape : forall text,
            (listens text = None -> is_usb = true) /\
            (forall addrs, listens text = Some addrs ->
             exists port, addrs = pair port /\
               (0 < port \/ (is_usb = false /\ port = DEFAULT_ADB_LOCAL_TRANSPORT_PORT sys)))).
  { intros text. unfold listens. destruct (sscanf_d sys text) as [port|].
    - destruct (Z.ltb_spec 0 port).
      + split; [discriminate|]. intros addrs [= <-]. eauto.
      + destruct is_usb; (split; [auto; discriminate|]); try discriminate.
        intros addrs [= <-]. eauto.
    - destruct is_usb; (split; [auto; discriminate|]); try discriminate.
      intros addrs [= <-]. eauto. }
  assert (Hrun : exists text, adbd_main_addrs sys props is_usb = listens text /\
            (service <> "" -> text = service) /\
            (service = "" -> persist <> "" -> text = persist) /\
            (service = "" -> persist = "" -> ANDROID sys = false ->
             forall env, getenv sys "ADBD_PORT" = Some env -> text = env) /\
            (service = "" -> persist = "" ->
             ANDROID sys = true \/ getenv sys "ADBD_PORT" = None -> text = "")).
  { unfold adbd_main_addrs. rewrite Haddr. cbn [String.eqb]. fold service persist.
    rewrite Hlistens. eexists. split; [reflexivity|].
    destruct (String.eqb_spec service "") as [Hs|Hs].
    - destruct (String.eqb_spec persist "") as [Hp|Hp].
      + rewrite Hp.
        destruct (ANDROID sys), (getenv sys "ADBD_PORT") as [env|]; cbn [negb String.eqb];
          repeat split; try congruence; intros; try congruence.
        all: match goal with H : _ \/ _ |- _ => destruct H; congruence end.
      + destruct (ANDROID sys), (getenv sys "ADBD_PORT") as [env|]; cbn [negb];
          try (destruct (String.eqb_spec persist ""); [contradiction|]);
          repeat split; congruence.
    - destruct (ANDROID sys), (getenv sys "ADBD_PORT") as [env|]; cbn [negb];
        try (destruct (String.eqb_spec service ""); [contradiction|]);
        repeat split; congruence. }
  destruct Hrun as (text & Hrun & H1 & H2 & H3 & H4).
  split; [intros H; rewrite Hrun, (H1 H); reflexivity|].
  split; [intros Hs Hp; rewrite Hrun, (H2 Hs Hp); reflexivity|].
  split; [intros Hs Hp Hb env He; rewrite Hrun, (H3 Hs Hp Hb env He); reflexivity|].
  split; [intros Hs Hp Hb; rewrite Hrun, (H4 Hs Hp Hb); reflexivity|].
  rewrite Hrun. apply Hshape.
Qed.

Lemma adbd_main_addrs_ports_witness :
  let props : Properties :=
    <["service.adb.tcp.port" := "5557"]> (<["persist.adb.tcp.port" := "5558"]> ∅) in
  adbd_main_addrs Tests.device props true = Some ["tcp:5557"; "vsock:5557"] /\
  adbd_main_addrs Tests.device ∅ true = None /\
  adbd_main_addrs Tests.device ∅ false = Some ["tcp:5555"; "vsock:5555"].
Proof.
  split; [|split].
  - refine (proj1 (adbd_main_addrs_ports Tests.device
                     (<["service.adb.tcp.port" := "5557"]>
                        (<["persist.adb.tcp.port" := "5558"]> ∅)) true _) _).
    + vm_compute. reflexivity.
    + vm_compute. discriminate.
  - refine (proj1 (proj2 (proj2 (proj2 (adbd_main_addrs_ports Tests.device ∅ true _))))
              _ _ _); try reflexivity.
    left. reflexivity.
  - refine (proj1 (proj2 (proj2 (proj2 (adbd_main_addrs_ports Tests.device ∅ false _))))
              _ _ _); try reflexivity.
    left. reflexivity.
Defined.

Lemma first_port_none (sys : System) (addrs : list string) :
  first_port sys addrs = -1 ->
  Forall (fun addr => get_host_socket_spec_port sys addr = -1) addrs.
Proof.
  induction addrs as [|addr addrs IH]; [constructor|]. cbn [first_port].
  destruct (Z.eqb_spec (get_host_socket_spec_port sys addr) (-1)) as [Hport|Hport];
    cbn [negb]; [|congruence].
  intros H. constructor; [exact Hport|apply IH, H].
Qed.

Lemma first_port_some (sys : System) (addrs : list string) :
  first_port sys addrs <> -1 ->
  exists before addr after,
    addrs = before ++ addr :: after /\
    Forall (fun addr => get_host_socket_spec_port sys addr = -1) before /\
    get_host_socket_spec_port sys addr = first_port sys addrs.
Proof.
  induction addrs as [|addr addrs IH]; [cbn; congruence|]. cbn [first_port].
  destruct (Z.eqb_spec (get_host_socket_spec_port sys addr) (-1)) as [Hport|Hport];
    cbn [negb].
  - intros H. destruct (IH H) as (before & a & after & -> & Hbefore & Ha).
    exists (addr :: before), a, after. split; [reflexivity|].
    split; [constructor; assumption|exact Ha].
  - intros _. exists [], addr, addrs. split; [reflexivity|]. split; [constructor|reflexivity].
Qed.

Lemma listen_done (addrs : list string) (st : Adbd) :
  done (foldl (fun st addr => act st (init_transport_socket_server addr)) st addrs) =
    done st ++ map init_transport_socket_server addrs.
Proof.
  revert st. induction addrs as [|addr addrs IH]; intros st; cbn [foldl map].
  - rewrite app_nil_r. reflexivity.
  - rewrite IH. cbn [act done]. rewrite <- app_assoc. reflexivity.
Qed.

(** X21. On Android [setup_adb] sets up mDNS once, before it starts the
    socket servers, which it starts for every address, in order. The
    port of mDNS is the port of the first address that has one, and the
    default port when no address has one. *)
Theorem setup_adb_mdns_port (sys : System) (addrs : list string) (st : Adbd) :
  ANDROID sys = true ->
  exists port,
    done (setup_adb sys addrs st) =
      done st ++ setup_mdns port :: map init_transport_socket_server addrs /\
    ((port = DEFAULT_ADB_LOCAL_TRANSPORT_PORT sys /\
      Forall (fun addr => get_host_socket_spec_port sys addr = -1) addrs) \/
     (port <> -1 /\
      exists before addr after,
        addrs = before ++ addr :: after /\
        Forall (fun addr => get_host_socket_spec_port sys addr = -1) before /\
        get_host_socket_spec_port sys addr = port)).
Proof.
  intros Hbuild. unfold setup_adb. rewrite Hbuild, listen_done. cbn [act done].
  destruct (Z.eqb_spec (first_port sys addrs) (-1)) as [Hnone|Hsome].
  - eexists. split; [rewrite <- app_assoc; reflexivity|].
    left. split; [reflexivity|apply first_port_none, Hnone].
  - eexists. split; [rewrite <- app_assoc; reflexivity|].
    right. split; [exact Hsome|apply first_port_some, Hsome].
Qed.

Lemma setup_adb_mdns_port_witness :
  exists port,
    done (setup_adb Tests.device ["vsock:5555"; "tcp:5555"] Tests.locked) =
      [] ++ setup_mdns port :: map init_transport_socket_server ["vsock:5555"; "tcp:5555"] /\
    ((port = 5555 /\
      Forall (fun addr => get_host_socket_spec_port Tests.device addr = -1)
        ["vsock:5555"; "tcp:5555"]) \/
     (port <> -1 /\
      exists before addr after,
        ["vsock:5555"; "tcp:5555"] = before ++ addr :: after /\
        Forall (fun addr => get_host_socket_spec_port Tests.device addr = -1) before /\
        get_host_socket_spec_port Tests.device addr = port)).
Proof.
  apply (setup_adb_mdns_port Tests.device ["vsock:5555"; "tcp:5555"] Tests.locked).
  reflexivity.
Defined.

End DaemonSpec.

(** ** The USB handles of the macOS client *)

Module UsbSpec.
Import UsbOsx.
Local Open Scope Z_scope.

Lemma sweep_cons (a : nat) (usb : usb_handle) (rest : handles) :
  KickDisconnectedDevices ((a, usb) :: rest) =
    match (if negb (mark usb) then usb_kick_locked usb else Some (set_mark usb false, [])) with
    | Some (usb', calls) =>
        match KickDisconnectedDevices rest with
        | Some (rest', calls') => Some ((a, usb') :: rest', calls ++ calls')
        | None => None
        end
    | None => None
    end.
Proof.
  cbn [KickDisconnectedDevices].
  destruct (if negb (mark usb) then _ else _) as [[usb' calls]|]; [|reflexivity].
  cbn. destruct (KickDisconnectedDevices rest) as [[rest' calls']|]; reflexivity.
Qed.

(** One handle in a sweep. *)
Lemma sweep_one (usb : usb_handle) :
  is_Some (interface usb) ->
  (if negb (mark usb) then usb_kick_locked usb else Some (set_mark usb false, [])) =
    Some (swept usb, kick_calls usb).
Proof.
  intros [i Hi]. unfold usb_kick_locked, set_mark, set_dead, swept, kick_calls.
  destruct usb as [bi bo it zm mp [|] path [|]]; cbn in Hi; subst; reflexivity.
Qed.

Lemma sweep_map (hs : handles) :
  Forall (fun h => is_Some (interface h.2)) hs ->
  KickDisconnectedDevices hs =
    Some (map (fun h => (h.1, swept h.2)) hs, flat_map (fun h => kick_calls h.2) hs).
Proof.
  induction 1 as [|[a usb] rest Husb _ IH]; [reflexivity|].
  rewrite sweep_cons, (sweep_one usb Husb), IH. reflexivity.
Qed.

(** X22. The sweep after a scan. [KickDisconnectedDevices], on handles
    that have their interfaces, keeps every handle in its place, with its
    device path; afterwards no handle is marked, and a handle is dead
    exactly when it was dead before or was not marked. The interfaces
    that it closes are those of the handles that were neither marked nor
    dead. *)
Theorem sweep_kicks_the_unmarked (hs : handles) :
  Forall (fun h => is_Some (interface h.2)) hs ->
  exists hs' calls,
    KickDisconnectedDevices hs = Some (hs', calls) /\
    length hs' = length hs /\
    (forall n a usb, hs !! n = Some (a, usb) ->
       exists usb', hs' !! n = Some (a, usb') /\
         mark usb' = false /\ devpath usb' = devpath usb /\
         dead usb' = (dead usb || negb (mark usb))) /\
    (forall i, USBInterfaceClose i ∈ calls <->
       exists a usb, (a, usb) ∈ hs /\ interface usb = Some i /\
                     mark usb = false /\ dead usb = false).
Proof.
  intros Hall. rewrite (sweep_map hs Hall). eexists _, _. split; [reflexivity|].
  split; [apply length_map|]. split.
  - intros n a usb Hn. exists (swept usb). rewrite list_lookup_fmap, Hn. auto.
  - intros i. rewrite list_elem_of_In, in_flat_map. split.
    + intros ([a usb] & Hin & Hcall). exists a, usb. apply list_elem_of_In in Hin.
      split; [exact Hin|]. unfold kick_calls in Hcall. cbn [snd] in Hcall.
      destruct (mark usb), (dead usb); cbn in Hcall; try contradiction.
      destruct (interface usb) as [j|]; [|contradiction].
      destruct Hcall as [[= ->]|[[=]|[]]]. auto.
    + intros (a & usb & Hin & Hi & Hmark & Hdead). exists (a, usb).
      split; [apply list_elem_of_In, Hin|].
      unfold kick_calls. cbn [snd]. rewrite Hi, Hmark, Hdead. left. reflexivity.
Qed.

Lemma sweep_kicks_the_unmarked_witness :
  exists hs' calls,
    KickDisconnectedDevices Tests.two = Some (hs', calls) /\
    length hs' = length Tests.two /\
    (forall n a usb, Tests.two !! n = Some (a, usb) ->
       exists usb', hs' !! n = Some (a, usb') /\
         mark usb' = false /\ devpath usb' = devpath usb /\
         dead usb' = (dead usb || negb (mark usb))) /\
    (forall i, USBInterfaceClose i ∈ calls <->
       exists a usb, (a, usb) ∈ Tests.two /\ interface usb = Some i /\
                     mark usb = false /\ dead usb = false).
Proof.
  apply (sweep_kicks_the_unmarked Tests.two).
  repeat constructor; eexists; reflexivity.
Defined.

Lemma IsKnownDevice_first (path : string) (hs : handles) (n a : nat) (usb : usb_handle) :
  hs !! n = Some (a, usb) -> devpath usb = path ->
  (forall m h, (m < n)%nat -> hs !! m = Some h -> devpath h.2 <> path) ->
  IsKnownDevice path hs = (true, <[n := (a, set_mark usb true)]> hs).
Proof.
  revert n. induction hs as [|[b h] rest IH]; intros n Hn Hpath Hfirst; [discriminate|].
  destruct n as [|n].
  - injection Hn as -> ->. cbn [IsKnownDevice]. rewrite Hpath, String.eqb_refl. reflexivity.
  - cbn [IsKnownDevice].
    destruct (String.eqb_spec (devpath h) path) as [Heq|_].
    { exfalso. apply (Hfirst 0%nat (b, h)); [lia|reflexivity|exact Heq]. }
    rewrite (IH n); [reflexivity|exact Hn|exact Hpath|].
    intros m h' Hm Hh'. apply (Hfirst (S m)); [lia|exact Hh'].
Qed.

(** X23. A device that the scan has seen outlives the sweep. For the
    first handle with a device path: [IsKnownDevice] says that the
    device is known, and the sweep that follows leaves the handle as it
    was before the scan, but for the mark, which is clear; if it was
    alive it is alive, and no call goes to its interface. *)
Theorem seen_device_survives (path : string) (hs : handles) (n a : nat) (usb : usb_handle) :
  Forall (fun h => is_Some (interface h.2)) hs ->
  hs !! n = Some (a, usb) -> devpath usb = path ->
  (forall m h, (m < n)%nat -> hs !! m = Some h -> devpath h.2 <> path) ->
  exists hs1 hs2 calls,
    IsKnownDevice path hs = (true, hs1) /\
    KickDisconnectedDevices hs1 = Some (hs2, calls) /\
    hs2 !! n = Some (a, set_mark usb false).
Proof.
  intros Hall Hn Hpath Hfirst.
  rewrite (IsKnownDevice_first path hs n a usb Hn Hpath Hfirst).
  assert (Hall1 : Forall (fun h => is_Some (interface h.2))
                    (<[n := (a, set_mark usb true)]> hs)).
  { apply Forall_insert; [exact Hall|].
    apply (Forall_lookup_1 _ _ _ _ Hall Hn). }
  exists (<[n := (a, set_mark usb true)]> hs).
  rewrite (sweep_map _ Hall1). eexists _, _. split; [reflexivity|].
  split; [reflexivity|].
  rewrite list_lookup_fmap, list_lookup_insert_eq by (eapply lookup_lt_Some, Hn).
  cbn. unfold swept, set_mark. cbn. rewrite orb_false_r. reflexivity.
Qed.

Lemma seen_device_survives_witness :
  exists hs1 hs2 calls,
    IsKnownDevice "usb:2X" Tests.two = (true, hs1) /\
    KickDisconnectedDevices hs1 = Some (hs2, calls) /\
    hs2 !! 1%nat = Some (101%nat, set_mark (Tests.phone 8 "usb:2X" false) false).
Proof.
  apply (seen_device_survives "usb:2X" Tests.two 1 101 (Tests.phone 8 "usb:2X" false)).
  - repeat constructor; eexists; reflexivity.
  - reflexivity.
  - reflexivity.
  - intros [|m] h Hm; [intros [= <-]; discriminate|lia].
Defined.

Lemma sweep_one_inv (usb usb' : usb_handle) (calls : list io) :
  (if negb (mark usb) then usb_kick_locked usb else Some (set_mark usb false, [])) =
    Some (usb', calls) ->
  mark usb' = false /\ dead usb' = (dead usb || negb (mark usb)).
Proof.
  unfold usb_kick_locked.
  destruct usb as [bi bo [i|] zm mp [|] path [|]]; cbn; intros [= <- <-]; auto.
Qed.

(** X24. Two sweeps without a scan between them leave every handle dead,
    and from then on a sweep changes nothing and closes no interface: an
    interface is closed once. *)
Theorem two_sweeps_kill_all (hs hs1 hs2 : handles) (calls1 calls2 : list io) :
  KickDisconnectedDevices hs = Some (hs1, calls1) ->
  KickDisconnectedDevices hs1 = Some (hs2, calls2) ->
  Forall (fun h => dead h.2 = true) hs2 /\
  KickDisconnectedDevices hs2 = Some (hs2, []).
Proof.
  revert hs1 hs2 calls1 calls2.
  induction hs as [|[a usb] rest IH]; intros hs1 hs2 calls1 calls2.
  - intros [= <- <-] [= <- <-]. split; [constructor|reflexivity].
  - rewrite sweep_cons.
    destruct (if negb (mark usb) then _ else _) as [[usb1 c1]|] eqn:H1; [|discriminate].
    destruct (KickDisconnectedDevices rest) as [[rest1 c1']|] eqn:Hrest1; [|discriminate].
    intros [= <- <-]. rewrite sweep_cons.
    destruct (if negb (mark usb1) then _ else _) as [[usb2 c2]|] eqn:H2; [|discriminate].
    destruct (KickDisconnectedDevices rest1) as [[rest2 c2']|] eqn:Hrest2; [|discriminate].
    intros [= <- <-].
    destruct (IH _ _ _ _ eq_refl Hrest2) as [Hdead Hthird].
    apply sweep_one_inv in H1 as [Hmark1 _].
    apply sweep_one_inv in H2 as [Hmark2 Hdead2].
    rewrite Hmark1, orb_true_r in Hdead2.
    split; [constructor; assumption|].
    rewrite sweep_cons, Hthird, Hmark2. unfold usb_kick_locked. rewrite Hdead2. reflexivity.
Qed.

Lemma two_sweeps_kill_all_witness :
  exists hs2,
    Forall (fun h => dead h.2 = true) hs2 /\ KickDisconnectedDevices hs2 = Some (hs2, []).
Proof.
  eexists.
  eapply (two_sweeps_kill_all Tests.two); reflexivity.
Defined.

Lemma usb_kick_locked_twice (usb usb' : usb_handle) (calls : list io) :
  usb_kick_locked usb = Some (usb', calls) ->
  dead usb' = true /\ usb_kick_locked usb' = Some (usb', []).
Proof.
  unfold usb_kick_locked. destruct (dead usb) eqn:Hdead.
  - intros [= <- <-]. rewrite Hdead. auto.
  - destruct (interface usb); [|discriminate]. intros [= <- <-]. auto.
Qed.

(** X25. A kick is final and happens once: after [usb_kick] (or
    [usb_reset]) of a handle the handle is dead and still in the vector,
    which has the same handles at the same addresses, and a second kick
    of it makes no call and changes nothing. *)
Theorem usb_kick_once (handle : nat) (hs hs' : handles) (calls : list io) :
  usb_kick handle hs = Some (hs', calls) ->
  usb_kick handle hs' = Some (hs', []) /\
  (exists n usb', hs' !! n = Some (handle, usb') /\ dead usb' = true) /\
  map fst hs' = map fst hs.
Proof.
  revert hs' calls. induction hs as [|[a usb] rest IH]; intros hs' calls; [discriminate|].
  cbn [usb_kick]. destruct (decide (a = handle)) as [->|Hne].
  - destruct (usb_kick_locked usb) as [[usb' c]|] eqn:Hkick; [|discriminate].
    cbn. intros [= <- <-]. apply usb_kick_locked_twice in Hkick as [Hdead Htwice].
    split; [|split; [|reflexivity]].
    + cbn [usb_kick]. rewrite decide_True by reflexivity. rewrite Htwice. reflexivity.
    + exists 0%nat, usb'. auto.
  - destruct (usb_kick handle rest) as [[rest' c]|] eqn:Hrest; [|discriminate].
    cbn. intros [= <- <-].
    destruct (IH _ _ eq_refl) as (Hagain & (n & usb' & Hn & Hdead) & Hfst).
    split; [|split].
    + cbn [usb_kick]. rewrite decide_False by exact Hne. rewrite Hagain. reflexivity.
    + exists (S n), usb'. auto.
    + cbn [map]. rewrite Hfst. reflexivity.
Qed.

Lemma usb_kick_once_witness :
  exists hs',
    usb_kick 101 Tests.two = Some (hs', [USBInterfaceClose 8; Release 8]) /\
    usb_kick 101 hs' = Some (hs', []).
Proof.
  eexists. split; [reflexivity|].
  eapply (usb_kick_once 101 Tests.two). reflexivity.
Defined.

Lemma IsKnownDevice_unknown (path : string) (hs : handles) :
  Forall (fun h => devpath h.2 <> path) hs -> IsKnownDevice path hs = (false, hs).
Proof.
  induction 1 as [|[a usb] rest Husb _ IH]; [reflexivity|].
  cbn [IsKnownDevice]. destruct (String.eqb_spec (devpath usb) path); [contradiction|].
  rewrite IH. reflexivity.
Qed.

Lemma IsKnownDevice_known (before after : handles) (a : nat) (usb : usb_handle) :
  (IsKnownDevice (devpath usb) (before ++ (a, usb) :: after)).1 = true.
Proof.
  induction before as [|[b h] rest IH]; cbn [IsKnownDevice app].
  - rewrite String.eqb_refl. reflexivity.
  - destruct (String.eqb (devpath h) (devpath usb)); [reflexivity|].
    destruct (IsKnownDevice _ _). exact IH.
Qed.

Lemma usb_close_app (before after : handles) (a : nat) (usb : usb_handle) :
  Forall (fun h => h.1 <> a) before ->
  usb_close a (before ++ (a, usb) :: after) = before ++ after.
Proof.
  induction 1 as [|[b h] rest Hb _ IH]; cbn [usb_close app].
  - rewrite decide_True by reflexivity. reflexivity.
  - rewrite decide_False by exact Hb. rewrite IH. reflexivity.
Qed.

(** X26. A device is known for as long as its handle is in the vector,
    dead or alive, and unknown once [usb_close] took the handle out: for
    a handle that is the only one at its address and the only one with
    its device path, [IsKnownDevice] is true before [usb_close] and false
    after it, and [usb_close] removes this handle and no other. So a
    device that was kicked is added again by a scan only after its
    handle was closed. *)
Theorem closed_device_is_unknown (before after : handles) (a : nat) (usb : usb_handle) :
  Forall (fun h => h.1 <> a /\ devpath h.2 <> devpath usb) (before ++ after) ->
  let hs := before ++ (a, usb) :: after in
  (IsKnownDevice (devpath usb) hs).1 = true /\
  usb_close a hs = before ++ after /\
  IsKnownDevice (devpath usb) (usb_close a hs) = (false, before ++ after).
Proof.
  intros Hothers hs. unfold hs.
  assert (Hclose : usb_close a (before ++ (a, usb) :: after) = before ++ after).
  { apply usb_close_app. apply Forall_app in Hothers as [Hbefore _].
    eapply Forall_impl; [exact Hbefore|]. intros h [H _]. exact H. }
  split; [apply IsKnownDevice_known|]. split; [exact Hclose|].
  rewrite Hclose. apply IsKnownDevice_unknown.
  eapply Forall_impl; [exact Hothers|]. intros h [_ H]. exact H.
Qed.

Lemma closed_device_is_unknown_witness :
  (IsKnownDevice "usb:2X" Tests.two).1 = true /\
  usb_close 101 Tests.two = [(100%nat, Tests.phone 7 "usb:1X" true)] /\
  IsKnownDevice "usb:2X" (usb_close 101 Tests.two) =
    (false, [(100%nat, Tests.phone 7 "usb:1X" true)]).
Proof.
  apply (closed_device_is_unknown [(100%nat, Tests.phone 7 "usb:1X" true)] [] 101
           (Tests.phone 8 "usb:2X" false)).
  repeat constructor; cbn; discriminate.
Defined.

(** X27. The zero-length packet. On a handle that is alive, with an
    interface, a bulk-out pipe, packets of [2^n] bytes ([n] at least 1)
    and the mask that [CheckInterface] sets, a write of [len] bytes that
    succeeds is followed by a write of no bytes exactly when [len] is a
    multiple of the packet size; the result is [len], unless the write of
    no bytes fails, and -1 then. *)
Theorem usb_write_zero_length_packet (WritePipe_result : nat -> Z) (h : usb_handle)
    (i : nat) (len n : Z) :
  dead h = false -> interface h = Some i -> bulkOut h <> 0 ->
  0 < n <= 32 -> max_packet_size h = 2 ^ n -> zero_mask h = max_packet_size h - 1 ->
  0 < len < 2 ^ 31 ->
  WritePipe_result 0%nat = 0 ->
  usb_write WritePipe_result (Some h) len =
    if len mod max_packet_size h =? 0 then
      (if WritePipe_result 1%nat =? 0 then len else -1,
       [WritePipe i (bulkOut h) len; WritePipe i (bulkOut h) 0])
    else (len, [WritePipe i (bulkOut h) len]).
Proof.
  intros Hdead Hi Hout Hn Hsize Hmask Hlen Hfirst.
  assert (Hpow : 2 <= 2 ^ n).
  { change 2 with (2 ^ 1) at 1. apply Z.pow_le_mono_r; lia. }
  unfold usb_write. rewrite Hdead, Hi, Hfirst, Hmask, Hsize.
  destruct (Z.eqb_spec len 0); [lia|].
  destruct (Z.eqb_spec (bulkOut h) 0); [contradiction|].
  destruct (Z.eqb_spec (2 ^ n - 1) 0); [lia|]. cbn [Z.eqb andb negb].
  rewrite !(Z.mod_small len (2 ^ 32)) by lia.
  replace (2 ^ n - 1) with (Z.ones n) by (rewrite Z.ones_equiv; lia).
  rewrite Z.land_ones by lia.
  destruct (len mod 2 ^ n =? 0); [|reflexivity].
  destruct (WritePipe_result 1%nat =? 0); reflexivity.
Qed.

Lemma usb_write_zero_length_packet_witness :
  usb_write (fun _ => 0) (Some (Tests.phone 8 "usb:2X" false)) 1024 =
    (1024, [WritePipe 8 2 1024; WritePipe 8 2 0]) /\
  usb_write (fun _ => 0) (Some (Tests.phone 8 "usb:2X" false)) 1000 =
    (1000, [WritePipe 8 2 1000]).
Proof.
  split.
  - apply (usb_write_zero_length_packet (fun _ => 0) (Tests.phone 8 "usb:2X" false) 8 1024 9);
      try reflexivity; try discriminate; try (vm_compute; intuition discriminate).
  - apply (usb_write_zero_length_packet (fun _ => 0) (Tests.phone 8 "usb:2X" false) 8 1000 9);
      try reflexivity; try discriminate; try (vm_compute; intuition discriminate).
Defined.

End UsbSpec.

(** ** mDNS discovery of the client *)

Module MdnsSpec.
Import Mdns.
Local Open Scope Z_scope.

(** With a named instance, the lookup callback ends with the last
    service of that instance, when there is one. *)
Lemma ForEachService_last (receiver : ServiceWatcher) (wanted : string)
    (info : option MdnsInfo) :
  wanted <> "" ->
  ForEachService receiver wanted emplace info =
    match last (found receiver wanted) with
    | Some si => emplace si None
    | None => info
    end.
Proof.
  intros Hwanted. unfold ForEachService, found.
  destruct (is_running receiver); cbn [negb]; [|reflexivity].
  destruct (String.eqb_spec wanted "") as [|_]; [contradiction|]. cbn [orb].
  induction (GetServices receiver) as [|s rest IH] using rev_ind; [reflexivity|].
  rewrite foldl_snoc, filter_app, IH. cbn [filter list_filter].
  destruct (String.eqb_spec (instance_name s) wanted) as [Hs|Hs].
  - rewrite (decide_True _ _ Hs), last_snoc. reflexivity.
  - rewrite (decide_False _ _ Hs), app_nil_r. reflexivity.
Qed.

Section Lookups.

Variables transport pairing connect : nat.
Variable parse : string -> option MdnsInstance.
Variable index_of : string -> option nat.
Variables responder_connect responder_pairing : string -> option MdnsInfo.

(** X28. The lookup for [adb connect] prefers the secure service. For a
    name without a service name, with discovery by Openscreen: the
    answer is the last service of that instance that the running watcher
    of the secure connect service has found; only when it has none, the
    last one of the watcher of the plain transport service; and none
    when that has none either. *)
Theorem connect_prefers_secure (d : Discovery) (name : string)
    (mdns_instance : MdnsInstance) (watchers : list ServiceWatcher)
    (secure plain : ServiceWatcher) :
  g_using_bonjour d = false -> name <> "" ->
  parse name = Some mdns_instance -> parsed_service_name mdns_instance = "" ->
  g_state d = Some watchers ->
  watchers !! connect = Some secure -> watchers !! transport = Some plain ->
  mdns_get_connect_service_info transport connect parse index_of responder_connect d name =
    Answer (match last (found secure name), last (found plain name) with
            | Some si, _ | None, Some si => emplace si None
            | None, None => None
            end).
Proof.
  intros Hbonjour Hname Hparse Hservice Hstate Hsecure Hplain.
  unfold mdns_get_connect_service_info.
  destruct (String.eqb_spec name ""); [contradiction|]. rewrite Hbonjour, Hstate.
  destruct watchers as [|w ws]; [discriminate|].
  rewrite Hparse, Hservice. cbn [String.eqb negb]. unfold watcher.
  rewrite Hsecure, Hplain, !ForEachService_last by exact Hname.
  destruct (last (found secure name)); [reflexivity|].
  destruct (last (found plain name)); reflexivity.
Qed.

(** X29. The lookup for [adb pair] finds nothing for a name that has a
    service name in it, with discovery by Openscreen: whatever the
    watchers have found, and also when the service named is the pairing
    service, the answer is empty - the watchers are asked only for a
    name without a service name. *)
Theorem pairing_with_service_name_finds_nothing (d : Discovery) (name : string)
    (mdns_instance : MdnsInstance) :
  g_using_bonjour d = false -> name <> "" ->
  parse name = Some mdns_instance -> parsed_service_name mdns_instance <> "" ->
  mdns_get_pairing_service_info pairing parse index_of responder_pairing d name =
    Answer None.
Proof.
  intros Hbonjour Hname Hparse Hservice. unfold mdns_get_pairing_service_info.
  destruct (String.eqb_spec name ""); [contradiction|]. rewrite Hbonjour.
  destruct (g_state d) as [[|w ws]|]; try reflexivity.
  rewrite Hparse.
  destruct (String.eqb_spec (parsed_service_name mdns_instance) ""); [contradiction|].
  cbn [negb]. destruct (index_of _); [|reflexivity].
  destruct (bool_decide _); reflexivity.
Qed.

End Lookups.

Lemma connect_prefers_secure_witness :
  mdns_get_connect_service_info 0 2 Tests.parse Tests.index_of Tests.no_responder
    Tests.discovery "adb-1234" =
  Answer (Some (mk_MdnsInfo "adb-1234" "_adb-tls-connect._tcp" "192.168.0.2" 37002)).
Proof.
  apply (connect_prefers_secure 0 2 Tests.parse Tests.index_of Tests.no_responder
           Tests.discovery "adb-1234" (mk_MdnsInstance "adb-1234" "" "")
           [Tests.seen "_adb._tcp" 5555; Tests.seen "_adb-tls-pairing._tcp" 37001;
            Tests.seen "_adb-tls-connect._tcp" 37002]
           (Tests.seen "_adb-tls-connect._tcp" 37002) (Tests.seen "_adb._tcp" 5555));
    try reflexivity.
  discriminate.
Defined.

Lemma pairing_with_service_name_finds_nothing_witness :
  mdns_get_pairing_service_info 1 Tests.parse Tests.index_of Tests.no_responder
    Tests.discovery "adb-1234/_adb-tls-pairing" = Answer None /\
  exists info,
    mdns_get_pairing_service_info 1 Tests.parse Tests.index_of Tests.no_responder
      Tests.discovery "adb-1234" = Answer (Some info).
Proof.
  split.
  - apply (pairing_with_service_name_finds_nothing 1 Tests.parse Tests.index_of
             Tests.no_responder Tests.discovery "adb-1234/_adb-tls-pairing"
             (mk_MdnsInstance "adb-1234" "_adb-tls-pairing" "_tcp"));
      try reflexivity; discriminate.
  - eexists. reflexivity.
Defined.

End MdnsSpec.
